(** * The client-side state layer of DocsGPT: stores and persistence codec

    A shallow embedding of [frontend/js/storage.js] (the persistence codec over
    [localStorage]) and [frontend/js/stores.js] (the Session, Document and Chat
    stores), followed by the properties of the state layer.

    Conventions of the embedding.
    - JavaScript values are the inductive [value]; [VUndef] is [undefined].
      Numbers are integers: every number the stores create is one
      ([Date.now()], file sizes, the version tag).
    - [localStorage] holds strings.  [JSON.parse] and [JSON.stringify] belong
      to the platform, so a stored string is kept as what [JSON.parse] makes
      of it: a value, a text it rejects, or the empty string.
    - A [try { ... } catch] block is a computation in [option] ([None]: an
      exception was thrown) whose handler is written out.
    - Objects that are mutated through a retained reference (documents, chat
      logs and messages) live in an explicit heap.
    - Every reading of the clock is an argument of the operation that reads
      it.
    - A string is the sequence of its code units, each below 256. *)

From Stdlib Require Import ZArith Ascii String List Bool Lia.
From stdpp Require Import base option list gmap strings pretty.

Set Warnings "-register-all".
Local Open Scope string_scope.
Local Open Scope list_scope.
Local Open Scope Z_scope.

(** ** JavaScript values *)

Module Js.

Inductive value : Type :=
  | VUndef
  | VNull
  | VBool (b : bool)
  | VNum (n : Z)
  | VStr (s : string)
  | VArr (items : list value)
  | VObj (props : list (string * value)).

(** ToBoolean. *)
Definition truthy (v : value) : bool :=
  match v with
  | VUndef | VNull => false
  | VBool b => b
  | VNum n => negb (n =? 0)
  | VStr s => negb (String.eqb s EmptyString)
  | VArr _ | VObj _ => true
  end.

(** Own property of an object literal; [undefined] when absent. *)
Fixpoint own (k : string) (props : list (string * value)) : value :=
  match props with
  | [] => VUndef
  | (k', v) :: rest => if String.eqb k' k then v else own k rest
  end.

(** [o.k] for the property names used by the stores, none of which is a
    built-in property of strings, numbers, booleans or arrays.  Reading a
    property of [null] or [undefined] throws a TypeError. *)
Definition get_prop (k : string) (o : value) : option value :=
  match o with
  | VUndef | VNull => None
  | VObj props => Some (own k props)
  | _ => Some VUndef
  end.

(** [o.k] where the receiver is known not to be [null] or [undefined]. *)
Definition prop (k : string) (o : value) : value :=
  default VUndef (get_prop k o).

Fixpoint assign (k : string) (v : value) (props : list (string * value))
  : list (string * value) :=
  match props with
  | [] => [(k, v)]
  | (k', v') :: rest =>
      if String.eqb k' k then (k, v) :: rest else (k', v') :: assign k v rest
  end.

(** [o.k = v] on an object. *)
Definition set_prop (k : string) (v : value) (o : value) : value :=
  match o with
  | VObj props => VObj (assign k v props)
  | _ => o
  end.

Definition isArray (v : value) : bool :=
  match v with VArr _ => true | _ => false end.

(** The value is an Object: an array or an object, of the values at hand. *)
Definition isObject (v : value) : bool :=
  match v with VArr _ | VObj _ => true | _ => false end.

(** [v === 'literal']. *)
Definition is_str (v : value) (lit : string) : bool :=
  match v with VStr s => String.eqb s lit | _ => false end.

(** The array pattern [[a, b]] applied to [v]: arrays and strings are
    iterable, anything else throws a TypeError. *)
Definition destructure2 (v : value) : option (value * value) :=
  match v with
  | VArr items => Some (nth 0 items VUndef, nth 1 items VUndef)
  | VStr (String a (String b _)) => Some (VStr (String a EmptyString), VStr (String b EmptyString))
  | VStr (String a EmptyString) => Some (VStr (String a EmptyString), VUndef)
  | VStr EmptyString => Some (VUndef, VUndef)
  | _ => None
  end.

(** SameValueZero, the key equality of [Map] and of [Array.prototype.includes].
    Arrays and objects are compared by reference: those that occur as keys or
    list elements come fresh out of [JSON.parse], so they are equal to no
    other key. *)
Definition same_value_zero (a b : value) : bool :=
  match a, b with
  | VUndef, VUndef | VNull, VNull => true
  | VBool x, VBool y => Bool.eqb x y
  | VNum x, VNum y => x =? y
  | VStr x, VStr y => String.eqb x y
  | _, _ => false
  end.

Definition includes (l : list value) (x : value) : bool :=
  existsb (same_value_zero x) l.

(** [x < n] (abstract relational comparison with a number).  For a string,
    array or object operand the engine goes through ToPrimitive and
    StringToNumber; that conversion is the parameter [coerced_lt], [None]
    when it throws. *)
Definition less_than (coerced_lt : value → Z → option bool)
    (x : value) (n : Z) : option bool :=
  match x with
  | VUndef => Some false
  | VNull => Some (0 <? n)
  | VBool b => Some ((if b then 1 else 0) <? n)
  | VNum m => Some (m <? n)
  | VStr _ | VArr _ | VObj _ => coerced_lt x n
  end.

(** [Number.prototype.toString] on an integer: its decimal digits. *)
Definition toString (n : Z) : string := pretty n.

(** ToString, as [new Error(v)], a template literal or [FormData.append]
    applies it: an array is its elements joined by commas, [null] and
    [undefined] elements left empty. *)
Fixpoint to_string (v : value) : string :=
  match v with
  | VUndef => "undefined"
  | VNull => "null"
  | VBool b => if b then "true" else "false"
  | VNum n => toString n
  | VStr s => s
  | VArr items =>
      String.concat ","
        (map (λ x, match x with VUndef | VNull => EmptyString | _ => to_string x end)
           items)
  | VObj _ => "[object Object]"
  end.

(** ToInt32: the integer congruent to [z] modulo 2^32 that lies in
    [-2^31, 2^31). *)
Definition to_int32 (z : Z) : Z := (z + 2 ^ 31) mod 2 ^ 32 - 2 ^ 31.

(** The code units of a string, as [charCodeAt] reads them one by one. *)
Definition charCodes (s : string) : list Z :=
  map (λ c, Z.of_N (Ascii.N_of_ascii c)) (list_ascii_of_string s).

(** The code units that [trim] removes: WhiteSpace and LineTerminator. *)
Definition is_white (c : Z) : bool :=
  existsb (Z.eqb c)
    [9; 10; 11; 12; 13; 32; 160; 5760; 8232; 8233; 8239; 8287; 12288; 65279]
  || ((8192 <=? c) && (c <=? 8202)).

(** [s.split('\n')] on the code units of [s]. *)
Fixpoint split_lines (codes : list Z) : list (list Z) :=
  match codes with
  | [] => [[]]
  | c :: rest =>
      if c =? 10 then [] :: split_lines rest
      else match split_lines rest with
           | line :: lines => (c :: line) :: lines
           | [] => [[c]]
           end
  end.

(** A JavaScript [Map]: entries in insertion order, keys compared with
    SameValueZero. *)
Section Map.
Context {A : Type}.

Fixpoint Map_get (k : value) (m : list (value * A)) : option A :=
  match m with
  | [] => None
  | (k', a) :: rest => if same_value_zero k' k then Some a else Map_get k rest
  end.

Fixpoint Map_set (k : value) (a : A) (m : list (value * A)) : list (value * A) :=
  match m with
  | [] => [(k, a)]
  | (k', a') :: rest =>
      if same_value_zero k' k then (k', a) :: rest
      else (k', a') :: Map_set k a rest
  end.

Definition Map_has (k : value) (m : list (value * A)) : bool :=
  bool_decide (is_Some (Map_get k m)).
End Map.

End Js.

Export Js.

(** ** JSON and the persistence substrate *)

Module Json.

(** What [JSON.parse (JSON.stringify v)] yields for [v] other than
    [undefined]: a property whose value is [undefined] is left out, an
    [undefined] array element becomes [null]. *)
Fixpoint roundtrip (v : value) : value :=
  match v with
  | VArr items =>
      VArr (map (λ x, match x with VUndef => VNull | _ => roundtrip x end) items)
  | VObj props =>
      VObj ((fix go (ps : list (string * value)) : list (string * value) :=
               match ps with
               | [] => []
               | (k, VUndef) :: rest => go rest
               | (k, x) :: rest => (k, roundtrip x) :: go rest
               end) props)
  | _ => v
  end.

(** The value that stands at an array position after the round trip. *)
Definition element (x : value) : value :=
  match x with VUndef => VNull | _ => roundtrip x end.

(** The properties of an object after the round trip. *)
Fixpoint properties (props : list (string * value)) : list (string * value) :=
  match props with
  | [] => []
  | (k, VUndef) :: rest => properties rest
  | (k, x) :: rest => (k, roundtrip x) :: properties rest
  end.

(** The values that JSON can express: no [undefined] inside. *)
Fixpoint json (v : value) : bool :=
  match v with
  | VUndef => false
  | VArr items => forallb json items
  | VObj props => forallb (λ p, json p.2) props
  | _ => true
  end.

(** A string held by the substrate. *)
Inductive stored : Type :=
  | Blank                 (* the empty string *)
  | Malformed             (* a text that JSON.parse rejects *)
  | Text (data : value).  (* a text that JSON.parse reads as [data] *)

(** [JSON.stringify v] as it ends up in the substrate: [setItem] stores the
    string "undefined" when [JSON.stringify] returns [undefined]. *)
Definition stringify (v : value) : stored :=
  match v with
  | VUndef => Malformed
  | _ => Text (roundtrip v)
  end.

(** [JSON.parse]; [None] is a SyntaxError. *)
Definition parse (s : stored) : option value :=
  match s with
  | Text data => Some data
  | Blank | Malformed => None
  end.

End Json.

(** [localStorage], the synchronous key-value substrate. *)
Abbreviation localStorage := (gmap string Json.stored).

Definition getItem (key : string) (ls : localStorage) : option Json.stored := ls !! key.
Definition setItem (key : string) (s : Json.stored) (ls : localStorage) : localStorage :=
  <[key := s]> ls.
Definition removeItem (key : string) (ls : localStorage) : localStorage :=
  delete key ls.

(** ** Entities held in memory (the object literals of stores.js) *)

(** The parts of a browser [File] that the stores read. *)
Record File := {
  file_name : string;
  file_size : Z;
  file_type : string;
}.

(** A session object.  A restored session is the parsed object itself; only
    these six properties are ever read or written. *)
Record Session := {
  sessionId : value;
  name : value;
  sessionState : value;
  activeDocumentIds : list value;
  activeDocumentId : value;
  createdAt : value;
}.

(** Assignments to the properties of a session object. *)
Definition set_activeDocumentIds (ids : list value) (s : Session) : Session :=
  {| sessionId := sessionId s; name := name s; sessionState := sessionState s;
     activeDocumentIds := ids; activeDocumentId := activeDocumentId s;
     createdAt := createdAt s |}.
Definition set_activeDocumentId (id : value) (s : Session) : Session :=
  {| sessionId := sessionId s; name := name s; sessionState := sessionState s;
     activeDocumentIds := activeDocumentIds s; activeDocumentId := id;
     createdAt := createdAt s |}.

(** A document object; [file] is [None] for [null]. *)
Record Document := {
  docId : value;
  state : value;
  metadata : value;
  file : option File;
  parsedArtifactId : value;
  parseError : value;
  requiresReupload : bool;
}.

Module DocumentState.
Definition UPLOADED := "UPLOADED".
Definition PARSING := "PARSING".
Definition PARSE_FAILED := "PARSE_FAILED".
Definition PARSED := "PARSED".
Definition REQUIRES_REUPLOAD := "REQUIRES_REUPLOAD".
End DocumentState.

Module SessionState.
Definition CREATED := "CREATED".
Definition ACTIVE := "ACTIVE".
Definition ARCHIVED := "ARCHIVED".
End SessionState.

(** ** storage.js: the persistence codec *)

Module Storage.

Module STORAGE_KEYS.
Definition sessions := "docsgpt-sessions-v2".
Definition documents := "docsgpt-documents-v2".
Definition messages := "docsgpt-messages-v2".
Definition config := "docsgpt-config".
End STORAGE_KEYS.

Definition STORAGE_VERSION : Z := 2.

(** *** Saving *)

Definition canonicalSession (entry : value * Session) : value :=
  let '(id, session) := entry in
  VArr [ id;
         VObj [ ("sessionId", sessionId session);
                ("name", name session);
                ("state", sessionState session);
                ("activeDocumentIds", VArr (activeDocumentIds session));
                ("createdAt", createdAt session) ] ].

(** [saveSessions(sessions, activeSessionId)]; [now] is the reading of
    [Date.now()]. *)
Definition saveSessions (sessions : list (value * Session)) (activeSessionId : value)
    (now : Z) (ls : localStorage) : localStorage :=
  let data :=
    VObj [ ("version", VNum STORAGE_VERSION);
           ("sessions", VArr (map canonicalSession sessions));
           ("activeSessionId", activeSessionId);
           ("timestamp", VNum now) ] in
  setItem STORAGE_KEYS.sessions (Json.stringify data) ls.

(** One entry of [canonicalDocs]; [None] when [doc.metadata.name] throws. *)
Definition canonicalDoc (entry : value * Document) : option value :=
  let '(id, doc) := entry in
  n ← get_prop "name" (metadata doc);
  sz ← get_prop "size" (metadata doc);
  ty ← get_prop "type" (metadata doc);
  up ← get_prop "uploadedAt" (metadata doc);
  Some (VArr [ id;
               VObj [ ("docId", docId doc);
                      ("state", state doc);
                      ("metadata", VObj [ ("name", n); ("size", sz);
                                          ("type", ty); ("uploadedAt", up) ]);
                      ("parsedArtifactId", parsedArtifactId doc);
                      ("parseError", parseError doc) ] ]).

(** The object written for a document whose [metadata] is not null. *)
Definition canonical (doc : Document) : value :=
  VObj [ ("docId", docId doc);
         ("state", state doc);
         ("metadata", VObj [ ("name", prop "name" (metadata doc));
                             ("size", prop "size" (metadata doc));
                             ("type", prop "type" (metadata doc));
                             ("uploadedAt", prop "uploadedAt" (metadata doc)) ]);
         ("parsedArtifactId", parsedArtifactId doc);
         ("parseError", parseError doc) ].

(** [saveDocuments(documents)]: the map is read as it is at the call.  An
    exception inside the [try] leaves the substrate as it was. *)
Definition saveDocuments (documents : list (value * Document)) (now : Z)
    (ls : localStorage) : localStorage :=
  match mapM canonicalDoc documents with
  | Some canonicalDocs =>
      let data :=
        VObj [ ("version", VNum STORAGE_VERSION);
               ("documents", VArr canonicalDocs);
               ("timestamp", VNum now) ] in
      setItem STORAGE_KEYS.documents (Json.stringify data) ls
  | None => ls
  end.

(** [saveMessages(sessionMessages)]: the argument is the array of the map's
    entries. *)
Definition saveMessages (sessionMessages : value) (now : Z) (ls : localStorage)
    : localStorage :=
  let data :=
    VObj [ ("version", VNum STORAGE_VERSION);
           ("sessionMessages", sessionMessages);
           ("timestamp", VNum now) ] in
  setItem STORAGE_KEYS.messages (Json.stringify data) ls.

(** *** Clearing *)

Definition clearSessions (ls : localStorage) : localStorage :=
  removeItem STORAGE_KEYS.sessions ls.
Definition clearDocuments (ls : localStorage) : localStorage :=
  removeItem STORAGE_KEYS.documents ls.
Definition clearMessages (ls : localStorage) : localStorage :=
  removeItem STORAGE_KEYS.messages ls.
Definition clearAllData (ls : localStorage) : localStorage :=
  removeItem STORAGE_KEYS.config (clearMessages (clearDocuments (clearSessions ls))).

(** *** Loading *)

(** What the loaders return when they do not return [null].  The entry lists
    are kept as the pairs that the pattern [[id, x]] extracts from each
    entry, which is how the loaders and the stores read them. *)
Record SavedSessions := {
  saved_sessions : list (value * value);
  saved_activeSessionId : value;
  sessions_timestamp : value;
}.

Record SavedDocuments := {
  saved_documents : list (value * value);
  documents_timestamp : value;
}.

Record SavedMessages := {
  saved_sessionMessages : value;
  messages_timestamp : value;
}.

Section Load.
(** The engine's comparison of a string, array or object with a number
    (see [less_than]). *)
Context (coerced_lt : value → Z → option bool).

(** [!data.version || data.version < STORAGE_VERSION]; [None] when the
    test throws. *)
Definition outdated (data : value) : option bool :=
  version ← get_prop "version" data;
  if negb (truthy version) then Some true
  else less_than coerced_lt version STORAGE_VERSION.

(** The callback of [data.sessions.filter]. *)
Definition validSession (id session : value) : bool :=
  truthy id && truthy session &&
  truthy (prop "sessionId" session) &&
  truthy (prop "name" session) &&
  truthy (prop "state" session) &&
  isArray (prop "activeDocumentIds" session).

Fixpoint filterSessions (entries : list value) : option (list (value * value)) :=
  match entries with
  | [] => Some []
  | entry :: rest =>
      p ← destructure2 entry;
      valid ← filterSessions rest;
      Some (if validSession p.1 p.2 then p :: valid else valid)
  end.

(** The body of the [try] block of [loadSessions]: the returned value and
    the substrate afterwards, or [None] when an exception is thrown (none is
    thrown after the substrate has been written). *)
Definition loadSessions_try (ls : localStorage)
    : option (option SavedSessions * localStorage) :=
  match getItem STORAGE_KEYS.sessions ls with
  | None | Some Json.Blank => Some (None, ls)
  | Some saved =>
      data ← Json.parse saved;
      old ← outdated data;
      if old : bool then Some (None, clearSessions ls)
      else
        let sessions := prop "sessions" data in
        if negb (truthy sessions) || negb (isArray sessions) then Some (None, ls)
        else
          match sessions with
          | VArr entries =>
              validSessions ← filterSessions entries;
              Some (Some {| saved_sessions := validSessions;
                            saved_activeSessionId := prop "activeSessionId" data;
                            sessions_timestamp := prop "timestamp" data |}, ls)
          | _ => Some (None, ls)
          end
  end.

Definition loadSessions (ls : localStorage) : option SavedSessions * localStorage :=
  match loadSessions_try ls with
  | Some result => result
  | None => (None, ls)       (* catch: warn and return null *)
  end.

(** The callback of [data.documents.map]: [None] for an invalid entry
    (filtered out afterwards), otherwise the entry with its state
    repaired. *)
Definition rehydrate (id doc : value) : option (value * value) :=
  if negb (truthy id) || negb (truthy doc) || negb (truthy (prop "docId" doc))
     || negb (truthy (prop "state" doc)) || negb (truthy (prop "metadata" doc))
  then None
  else
    let doc :=
      if is_str (prop "state" doc) "PARSED"
         && negb (truthy (prop "parsedArtifactId" doc))
      then set_prop "parsedArtifactId" VNull (set_prop "state" (VStr "UPLOADED") doc)
      else doc in
    let doc :=
      if is_str (prop "state" doc) "PARSING"
      then set_prop "parseError" (VStr "Parsing interrupted by page reload")
             (set_prop "state" (VStr "PARSE_FAILED") doc)
      else doc in
    Some (id, doc).

(** The two repairs of [rehydrate], on their own. *)
Definition repair (doc : value) : value :=
  let doc :=
    if is_str (prop "state" doc) "PARSED"
       && negb (truthy (prop "parsedArtifactId" doc))
    then set_prop "parsedArtifactId" VNull (set_prop "state" (VStr "UPLOADED") doc)
    else doc in
  if is_str (prop "state" doc) "PARSING"
  then set_prop "parseError" (VStr "Parsing interrupted by page reload")
         (set_prop "state" (VStr "PARSE_FAILED") doc)
  else doc.

Fixpoint rehydrateAll (entries : list value) : option (list (value * value)) :=
  match entries with
  | [] => Some []
  | entry :: rest =>
      p ← destructure2 entry;
      valid ← rehydrateAll rest;
      Some (match rehydrate p.1 p.2 with
            | Some d => d :: valid
            | None => valid
            end)
  end.

Definition loadDocuments_try (ls : localStorage)
    : option (option SavedDocuments * localStorage) :=
  match getItem STORAGE_KEYS.documents ls with
  | None | Some Json.Blank => Some (None, ls)
  | Some saved =>
      data ← Json.parse saved;
      old ← outdated data;
      if old : bool then Some (None, clearDocuments ls)
      else
        let documents := prop "documents" data in
        if negb (truthy documents) || negb (isArray documents) then Some (None, ls)
        else
          match documents with
          | VArr entries =>
              validDocs ← rehydrateAll entries;
              Some (Some {| saved_documents := validDocs;
                            documents_timestamp := prop "timestamp" data |}, ls)
          | _ => Some (None, ls)
          end
  end.

Definition loadDocuments (ls : localStorage) : option SavedDocuments * localStorage :=
  match loadDocuments_try ls with
  | Some result => result
  | None => (None, ls)
  end.

Definition loadMessages_try (ls : localStorage)
    : option (option SavedMessages * localStorage) :=
  match getItem STORAGE_KEYS.messages ls with
  | None | Some Json.Blank => Some (None, ls)
  | Some saved =>
      data ← Json.parse saved;
      old ← outdated data;
      if old : bool then Some (None, clearMessages ls)
      else
        let sessionMessages := prop "sessionMessages" data in
        if negb (truthy sessionMessages) || negb (isArray sessionMessages)
        then Some (None, ls)
        else Some (Some {| saved_sessionMessages := sessionMessages;
                           messages_timestamp := prop "timestamp" data |}, ls)
  end.

Definition loadMessages (ls : localStorage) : option SavedMessages * localStorage :=
  match loadMessages_try ls with
  | Some result => result
  | None => (None, ls)
  end.
End Load.

(** *** Configuration: no version tag, no validation *)

(** [saveConfig(config)]. *)
Definition saveConfig (config : value) (ls : localStorage) : localStorage :=
  setItem STORAGE_KEYS.config (Json.stringify config) ls.

(** [loadConfig()]: [saved ? JSON.parse(saved) : null], and [null] when
    [JSON.parse] throws. *)
Definition loadConfig (ls : localStorage) : value :=
  match getItem STORAGE_KEYS.config ls with
  | None | Some Json.Blank => VNull
  | Some saved => default VNull (Json.parse saved)
  end.

End Storage.

(** ** stores.js: the Session Store

    Ids passed to the store by its callers are strings (they come from
    [Date.now().toString()] and travel through the DOM). *)

Module SessionStore.

Record t := {
  sessions : list (value * Session);
  activeSessionId : value;
}.

(** The store together with the substrate it persists to. *)
Record world := {
  store : t;
  storage : localStorage;
}.

Definition constructor : t := {| sessions := []; activeSessionId := VNull |}.

Definition persist (now : Z) (w : world) : world :=
  {| store := store w;
     storage := Storage.saveSessions (sessions (store w)) (activeSessionId (store w))
                  now (storage w) |}.

(** [createSession(name = 'Untitled Session')]; [now 0], [now 1], [now 2] are
    the successive readings of the clock.  Returns the new id. *)
Definition createSession (name : value) (now : nat → Z) (w : world) : string * world :=
  let name := match name with VUndef => VStr "Untitled Session" | _ => name end in
  let sessionId := toString (now 0%nat) in
  let session :=
    {| sessionId := VStr sessionId;
       name := name;
       sessionState := VStr SessionState.ACTIVE;
       activeDocumentIds := [];
       activeDocumentId := VNull;
       createdAt := VNum (now 1%nat) |} in
  let st := {| sessions := Map_set (VStr sessionId) session (sessions (store w));
               activeSessionId := VStr sessionId |} in
  (sessionId, persist (now 2%nat) {| store := st; storage := storage w |}).

Definition getActiveSession (st : t) : option Session :=
  if truthy (activeSessionId st) then Map_get (activeSessionId st) (sessions st)
  else None.

Definition setActiveSession (sessionId : string) (now : Z) (w : world) : world :=
  if Map_has (VStr sessionId) (sessions (store w)) then
    persist now {| store := {| sessions := sessions (store w);
                               activeSessionId := VStr sessionId |};
                   storage := storage w |}
  else w.

Definition addDocumentToSession (sessionId docId : string) (now : Z) (w : world) : world :=
  match Map_get (VStr sessionId) (sessions (store w)) with
  | Some session =>
      if negb (includes (activeDocumentIds session) (VStr docId)) then
        let session :=
          set_activeDocumentId (VStr docId)
            (set_activeDocumentIds (activeDocumentIds session ++ [VStr docId]) session) in
        persist now
          {| store := {| sessions := Map_set (VStr sessionId) session (sessions (store w));
                         activeSessionId := activeSessionId (store w) |};
             storage := storage w |}
      else w
  | None => w
  end.

Definition setActiveDocument (sessionId docId : string) (now : Z) (w : world) : world :=
  match Map_get (VStr sessionId) (sessions (store w)) with
  | Some session =>
      if includes (activeDocumentIds session) (VStr docId) then
        let session := set_activeDocumentId (VStr docId) session in
        persist now
          {| store := {| sessions := Map_set (VStr sessionId) session (sessions (store w));
                         activeSessionId := activeSessionId (store w) |};
             storage := storage w |}
      else w
  | None => w
  end.

(** [addDocumentToSession] and [setActiveDocument] as the application calls
    them, with the [sessionId] property of a session object, which for a
    session read back from the substrate is whatever JSON value was
    stored. *)
Definition addDocumentToSession_at (sessionId : value) (docId : string) (now : Z)
    (w : world) : world :=
  match Map_get sessionId (sessions (store w)) with
  | Some session =>
      if negb (includes (activeDocumentIds session) (VStr docId)) then
        let session :=
          set_activeDocumentId (VStr docId)
            (set_activeDocumentIds (activeDocumentIds session ++ [VStr docId]) session) in
        persist now
          {| store := {| sessions := Map_set sessionId session (sessions (store w));
                         activeSessionId := activeSessionId (store w) |};
             storage := storage w |}
      else w
  | None => w
  end.

Definition setActiveDocument_at (sessionId : value) (docId : string) (now : Z)
    (w : world) : world :=
  match Map_get sessionId (sessions (store w)) with
  | Some session =>
      if includes (activeDocumentIds session) (VStr docId) then
        let session := set_activeDocumentId (VStr docId) session in
        persist now
          {| store := {| sessions := Map_set sessionId session (sessions (store w));
                         activeSessionId := activeSessionId (store w) |};
             storage := storage w |}
      else w
  | None => w
  end.

(** The session object that [restore] puts in the map is the parsed object
    itself, read here through the properties the store uses
    ([activeDocumentIds] is an array for every entry the loader keeps). *)
Definition Session_of (session : value) : Session :=
  {| sessionId := prop "sessionId" session;
     name := prop "name" session;
     sessionState := prop "state" session;
     activeDocumentIds :=
       match prop "activeDocumentIds" session with VArr ids => ids | _ => [] end;
     activeDocumentId := prop "activeDocumentId" session;
     createdAt := prop "createdAt" session |}.

Section Restore.
Context (coerced_lt : value → Z → option bool).

Definition restore (w : world) : world :=
  match Storage.loadSessions coerced_lt (storage w) with
  | (Some saved, ls) =>
      {| store :=
           {| sessions :=
                fold_left (λ m entry, Map_set entry.1 (Session_of entry.2) m)
                  (Storage.saved_sessions saved) (sessions (store w));
              activeSessionId := Storage.saved_activeSessionId saved |};
         storage := ls |}
  | (None, ls) => {| store := store w; storage := ls |}
  end.
End Restore.

End SessionStore.

(** ** stores.js: the Document Store *)

Module DocumentStore.

(** The store's map holds references into [heap], the document objects; a
    suspended [parseDocument] call keeps the reference of the document it
    works on in [awaiting]. *)
Record world := {
  documents : list (value * nat);
  heap : list Document;
  awaiting : list nat;
  storage : localStorage;
}.

Definition constructor (ls : localStorage) : world :=
  {| documents := []; heap := []; awaiting := []; storage := ls |}.

#[global] Instance Document_inhabited : Inhabited Document :=
  populate {| docId := VUndef; state := VUndef; metadata := VUndef; file := None;
              parsedArtifactId := VUndef; parseError := VUndef;
              requiresReupload := false |}.

Definition deref (w : world) (l : nat) : Document := heap w !!! l.

(** Assignments to the properties of a document object. *)
Definition set_state (s : string) (d : Document) : Document :=
  {| docId := docId d; state := VStr s; metadata := metadata d; file := file d;
     parsedArtifactId := parsedArtifactId d; parseError := parseError d;
     requiresReupload := requiresReupload d |}.
Definition set_file (f : option File) (d : Document) : Document :=
  {| docId := docId d; state := state d; metadata := metadata d; file := f;
     parsedArtifactId := parsedArtifactId d; parseError := parseError d;
     requiresReupload := requiresReupload d |}.
Definition set_parsedArtifactId (a : value) (d : Document) : Document :=
  {| docId := docId d; state := state d; metadata := metadata d; file := file d;
     parsedArtifactId := a; parseError := parseError d;
     requiresReupload := requiresReupload d |}.
Definition set_parseError (e : value) (d : Document) : Document :=
  {| docId := docId d; state := state d; metadata := metadata d; file := file d;
     parsedArtifactId := parsedArtifactId d; parseError := e;
     requiresReupload := requiresReupload d |}.
Definition set_requiresReupload (b : bool) (d : Document) : Document :=
  {| docId := docId d; state := state d; metadata := metadata d; file := file d;
     parsedArtifactId := parsedArtifactId d; parseError := parseError d;
     requiresReupload := b |}.

(** Mutation of the object at [l]. *)
Definition update (l : nat) (f : Document → Document) (w : world) : world :=
  {| documents := documents w; heap := alter f l (heap w);
     awaiting := awaiting w; storage := storage w |}.

(** The map as [saveDocuments] reads it. *)
Definition entries (w : world) : list (value * Document) :=
  map (λ e, (e.1, deref w e.2)) (documents w).

Definition persist (now : Z) (w : world) : world :=
  {| documents := documents w; heap := heap w; awaiting := awaiting w;
     storage := Storage.saveDocuments (entries w) now (storage w) |}.

Definition addDocument (f : File) (now : nat → Z) (w : world) : string * world :=
  let docId := toString (now 0%nat) in
  let document :=
    {| docId := VStr docId;
       state := VStr DocumentState.UPLOADED;
       metadata := VObj [ ("name", VStr (file_name f));
                          ("size", VNum (file_size f));
                          ("type", VStr (file_type f));
                          ("uploadedAt", VNum (now 1%nat)) ];
       file := Some f;
       parsedArtifactId := VNull;
       parseError := VNull;
       requiresReupload := false |} in
  let l := length (heap w) in
  (docId,
   persist (now 2%nat)
     {| documents := Map_set (VStr docId) l (documents w);
        heap := heap w ++ [document];
        awaiting := awaiting w;
        storage := storage w |}).

Definition reuploadDocument (docId : string) (f : File) (now : Z) (w : world)
    : bool * world :=
  match Map_get (VStr docId) (documents w) with
  | None => (false, w)
  | Some l =>
      (true,
       persist now
         (update l (λ doc, set_requiresReupload false
                             (set_parseError VNull
                                (set_state DocumentState.UPLOADED
                                   (set_file (Some f) doc)))) w))
  end.

Definition getDocument (docId : string) (w : world) : option Document :=
  deref w <$> Map_get (VStr docId) (documents w).

(** [doc?.state === PARSED && doc.parsedArtifactId !== null]. *)
Definition isQueryable (docId : string) (w : world) : bool :=
  match getDocument docId w with
  | None => false
  | Some doc =>
      is_str (state doc) DocumentState.PARSED
      && negb (match parsedArtifactId doc with VNull => true | _ => false end)
  end.

Definition hasValidEvidence (docId : string) (w : world) : bool :=
  isQueryable docId w.

(** [isQueryable] as the application calls it, with the [docId] property of
    a document object. *)
Definition isQueryable_at (docId : value) (w : world) : bool :=
  match deref w <$> Map_get docId (documents w) with
  | None => false
  | Some doc =>
      is_str (state doc) DocumentState.PARSED
      && negb (match parsedArtifactId doc with VNull => true | _ => false end)
  end.

(** One round of the loop of [simpleHash]:
    [hash = ((hash << 5) - hash) + char; hash = hash & hash].  The shift
    works on 32 bits; the subtraction and the addition are exact, their
    operands being far below 2^53; [hash & hash] brings the result back to
    32 bits. *)
Definition simpleHash_round (hash char : Z) : Z :=
  let hash := (to_int32 (Z.shiftl (to_int32 hash) 5) - hash) + char in
  Z.land (to_int32 hash) (to_int32 hash).

(** The number that [simpleHash(str)] prints. *)
Definition simpleHash_value (str : string) : Z :=
  fold_left simpleHash_round (charCodes str) 0.

Definition simpleHash (str : string) : string := toString (simpleHash_value str).

(** [Math.ceil(n / k)] for integers [n] and [k > 0]. *)
Definition ceil_div (n k : Z) : Z := - ((- n) / k).

(** [parseFile(file)]; [text] is what [file.text()] resolves to, [now 0] and
    [now 1] are the two readings of the clock.  A line counts when [trim]
    leaves something of it. *)
Definition parseFile (f : File) (text : string) (now : nat → Z) : value :=
  let artifactId := toString (now 0%nat) in
  if String.eqb (file_type f) "text/plain" then
    let lines :=
      List.filter (existsb (λ c, negb (is_white c))) (split_lines (charCodes text)) in
    let n := Z.of_nat (length lines) in
    VObj [ ("artifactId", VStr artifactId);
           ("pages", VNum (Z.max 1 (ceil_div n 50)));
           ("chunks", VNum (ceil_div n 10));
           ("entities", VArr []);
           ("checksum", VStr (simpleHash text));
           ("createdAt", VNum (now 1%nat)) ]
  else
    VObj [ ("artifactId", VStr artifactId);
           ("pages", VNum 1);
           ("chunks", VNum 1);
           ("entities", VArr []);
           ("checksum", VStr (simpleHash (file_name f)));
           ("createdAt", VNum (now 1%nat)) ].

(** What the awaited exchange with the backend hands back to
    [parseDocument]: the parsed body of an ok response, or an exception
    (a rejected [fetch], a response that is not ok, a body that is not JSON)
    with its message. *)
Inductive Reply :=
  | Result (result : value)
  | Thrown (message : string).

(** The message of the TypeError raised by reading a property of [null]. *)
Definition TypeError_message : string :=
  "Cannot read properties of null (reading 'documentId')".

(** What the [try] block of [parseDocument] makes of a response whose body
    is JSON, as every response of server.js is: the body of an ok response
    is the result; for any other status an [Error] is thrown with the
    [error] of the body, or with 'Parse failed' when that is falsy. *)
Definition response_reply (status : Z) (body : value) : Reply :=
  if (200 <=? status) && (status <=? 299) then Result body
  else
    match get_prop "error" body with
    | Some error => Thrown (if truthy error then to_string error else "Parse failed")
    | None => Thrown "Cannot read properties of null (reading 'error')"
    end.

(** [parseDocument(docId)] up to the point where it awaits the backend.
    [Some b]: the call is over and resolves to [b]; [None]: the request is
    out and the call is suspended, holding its document. *)
Definition parseDocument (docId : string) (now : Z) (w : world) : option bool * world :=
  match Map_get (VStr docId) (documents w) with
  | None => (Some false, w)
  | Some l =>
      let doc := deref w l in
      if negb (bool_decide (is_Some (file doc))) then
        (Some false, persist now (update l (set_state DocumentState.REQUIRES_REUPLOAD) w))
      else if negb (is_str (state doc) DocumentState.UPLOADED) then
        (Some false, w)
      else
        let w := persist now
                   (update l (λ doc, set_parseError VNull
                                       (set_state DocumentState.PARSING doc)) w) in
        (None, {| documents := documents w; heap := heap w;
                  awaiting := l :: awaiting w; storage := storage w |})
  end.

Fixpoint remove_first (l : nat) (ls : list nat) : list nat :=
  match ls with
  | [] => []
  | x :: rest => if Nat.eqb x l then rest else x :: remove_first l rest
  end.

(** The rest of a suspended [parseDocument] call on the document at [l],
    run when the backend's reply arrives. *)
Definition parseDocument_resume (l : nat) (reply : Reply) (now : Z) (w : world)
    : bool * world :=
  let w := {| documents := documents w; heap := heap w;
              awaiting := remove_first l (awaiting w); storage := storage w |} in
  let failed (message : string) :=
    (false,
     persist now (update l (λ doc, set_parseError (VStr message)
                                     (set_state DocumentState.PARSE_FAILED doc)) w)) in
  match reply with
  | Result result =>
      match get_prop "documentId" result with
      | Some documentId =>
          (true,
           persist now (update l (λ doc, set_state DocumentState.PARSED
                                           (set_parsedArtifactId documentId doc)) w))
      | None => failed TypeError_message
      end
  | Thrown message => failed message
  end.

(** The object literal that [restore] builds from a stored record. *)
Definition Document_of (docData : value) : Document :=
  {| docId := prop "docId" docData;
     state := prop "state" docData;
     metadata := prop "metadata" docData;
     file := None;
     parsedArtifactId := prop "parsedArtifactId" docData;
     parseError := prop "parseError" docData;
     requiresReupload := false |}.

(** The document that [restore] puts in the map: the literal, then the two
    state downgrades. *)
Definition restored (docData : value) : Document :=
  let document := Document_of docData in
  let document :=
    if is_str (state document) DocumentState.PARSED
       && negb (bool_decide (is_Some (file document)))
    then set_state DocumentState.REQUIRES_REUPLOAD document else document in
  if is_str (state document) DocumentState.PARSING
  then set_state DocumentState.REQUIRES_REUPLOAD document else document.

Definition restore_entry (w : world) (entry : value * value) : world :=
  {| documents := Map_set entry.1 (length (heap w)) (documents w);
     heap := heap w ++ [restored entry.2];
     awaiting := awaiting w;
     storage := storage w |}.

Section Restore.
Context (coerced_lt : value → Z → option bool).

Definition restore (w : world) : world :=
  match Storage.loadDocuments coerced_lt (storage w) with
  | (Some saved, ls) =>
      fold_left restore_entry (Storage.saved_documents saved)
        {| documents := documents w; heap := heap w; awaiting := awaiting w;
           storage := ls |}
  | (None, ls) =>
      {| documents := documents w; heap := heap w; awaiting := awaiting w;
         storage := ls |}
  end.
End Restore.

End DocumentStore.

(** ** stores.js: the Chat Store *)

Module ChatStore.

(** Arrays and message objects are heap cells: an array holds the references
    of its elements.  A cell [Obj v] holds any other value: a message, and
    also what [restore] puts in the map for a stored log that is not an
    array.  A log that is an array is always a cell [Arr]: the store creates
    its logs so, and so does [alloc] for the stored ones. *)
Inductive cell :=
  | Arr (elems : list nat)
  | Obj (v : value).

Record world := {
  sessionMessages : list (value * nat);   (* sessionId -> messages[] *)
  isSending : bool;
  heap : list cell;
  storage : localStorage;
}.

Definition constructor (h : list cell) (ls : localStorage) : world :=
  {| sessionMessages := []; isSending := false; heap := h; storage := ls |}.

Definition elements (h : list cell) (a : nat) : list nat :=
  match h !! a with Some (Arr elems) => elems | _ => [] end.

Definition object_at (h : list cell) (m : nat) : value :=
  match h !! m with Some (Obj v) => v | _ => VUndef end.

(** The messages an array holds, as a reader of the array sees them. *)
Definition items (h : list cell) (a : nat) : list value :=
  map (object_at h) (elements h a).

(** The value of the map at the reference [a], as [JSON.stringify] reads
    it. *)
Definition value_at (h : list cell) (a : nat) : value :=
  match h !! a with
  | Some (Obj v) => v
  | _ => VArr (items h a)
  end.

(** [Array.from(this.sessionMessages.entries())]. *)
Definition entries (w : world) : value :=
  VArr (map (λ e, VArr [e.1; value_at (heap w) e.2]) (sessionMessages w)).

Definition persist (now : Z) (w : world) : world :=
  {| sessionMessages := sessionMessages w; isSending := isSending w; heap := heap w;
     storage := Storage.saveMessages (entries w) now (storage w) |}.

(** [addMessage(sessionId, role, content, evidence = null)].  [Some]: the
    call returns the reference of the created message, [None] for [null].
    [None]: the call throws, the log of the session being no array ([push]
    is not a function of it); the store is then as it was. *)
Definition addMessage (sessionId : string) (role content evidence : value)
    (now : nat → Z) (w : world) : option (option nat * world) :=
  if negb (truthy (VStr sessionId)) then Some (None, w)
  else
    let evidence := match evidence with VUndef => VNull | _ => evidence end in
    let message :=
      VObj [ ("id", VStr (toString (now 0%nat)));
             ("role", role);
             ("content", content);
             ("evidence", evidence);
             ("createdAt", VNum (now 1%nat)) ] in
    let m := length (heap w) in
    let h := heap w ++ [Obj message] in
    let '(a, h, logs) :=
      match Map_get (VStr sessionId) (sessionMessages w) with
      | Some a => (a, h, sessionMessages w)
      | None =>
          (length h, h ++ [Arr []],
           Map_set (VStr sessionId) (length h) (sessionMessages w))
      end in
    match h !! a with
    | Some (Arr _) =>
        let h := <[a := Arr (elements h a ++ [m])]> h in
        Some (Some m,
              persist (now 2%nat)
                {| sessionMessages := logs; isSending := isSending w; heap := h;
                   storage := storage w |})
    | _ => None
    end.

(** A new array of the elements [elems], and one of new cells that hold
    the values [vs]. *)
Definition new_array (elems : list nat) (w : world) : nat * world :=
  (length (heap w),
   {| sessionMessages := sessionMessages w; isSending := isSending w;
      heap := heap w ++ [Arr elems]; storage := storage w |}).

Definition new_array_of (vs : list value) (w : world) : nat * world :=
  new_array (seq (length (heap w)) (length vs))
    {| sessionMessages := sessionMessages w; isSending := isSending w;
       heap := heap w ++ map Obj vs; storage := storage w |}.

(** The characters of a string, as the spread of the string yields them. *)
Definition characters (s : string) : list value :=
  map (λ c, VStr (String c EmptyString)) (list_ascii_of_string s).

(** [getMessages(sessionId)]: [[...(log || [])]].  [Some]: the reference of
    the new array; for a log that is an array it has the elements of the
    log, for a falsy one none, for a string its characters.  [None]: the
    spread throws, the log being a number, [true] or an object, which are
    not iterable. *)
Definition getMessages (sessionId : string) (w : world) : option (nat * world) :=
  if negb (truthy (VStr sessionId)) then Some (new_array [] w)
  else
    match Map_get (VStr sessionId) (sessionMessages w) with
    | None => Some (new_array [] w)
    | Some a =>
        match heap w !! a with
        | Some (Obj v) =>
            if truthy v then
              match v with
              | VStr s => Some (new_array_of (characters s) w)
              | VArr items => Some (new_array_of items w)
              | _ => None
              end
            else Some (new_array [] w)
        | _ => Some (new_array (elements (heap w) a) w)
        end
    end.

Definition setSending (b : bool) (w : world) : world :=
  {| sessionMessages := sessionMessages w; isSending := b; heap := heap w;
     storage := storage w |}.

(** The entry that [new Map(iterable)] reads from an element of the
    iterable: its properties 0 and 1.  An element that is not an object
    throws a TypeError. *)
Definition entry_of (item : value) : option (value * value) :=
  match item with
  | VArr items => Some (nth 0 items VUndef, nth 1 items VUndef)
  | VObj props => Some (own "0" props, own "1" props)
  | _ => None
  end.

(** A value that [JSON.parse] made, as cells of the heap: an array is an
    array cell over the cells of its elements. *)
Definition alloc (v : value) (h : list cell) : nat * list cell :=
  match v with
  | VArr items =>
      (length (h ++ map Obj items),
       h ++ map Obj items ++ [Arr (seq (length h) (length items))])
  | _ => (length h, h ++ [Obj v])
  end.

(** [map.set(key, value)] for one entry of the stored array. *)
Definition restore_entry (acc : list (value * nat) * list cell)
    (entry : value * value) : list (value * nat) * list cell :=
  (Map_set entry.1 (alloc entry.2 acc.2).1 acc.1, (alloc entry.2 acc.2).2).

Section Restore.
Context (coerced_lt : value → Z → option bool).

(** [restore()]: the map is replaced by [new Map(saved.sessionMessages)];
    [None] when that throws. *)
Definition restore (w : world) : option world :=
  match Storage.loadMessages coerced_lt (storage w) with
  | (Some saved, ls) =>
      if truthy (Storage.saved_sessionMessages saved) then
        match Storage.saved_sessionMessages saved with
        | VArr items =>
            entries ← mapM entry_of items;
            let acc := fold_left restore_entry entries ([], heap w) in
            Some {| sessionMessages := acc.1; isSending := isSending w;
                    heap := acc.2; storage := ls |}
        | _ => None
        end
      else
        Some {| sessionMessages := sessionMessages w; isSending := isSending w;
                heap := heap w; storage := ls |}
  | (None, ls) =>
      Some {| sessionMessages := sessionMessages w; isSending := isSending w;
              heap := heap w; storage := ls |}
  end.
End Restore.

(** What a caller can do to an array it holds: any change of its elements
    ([push], [pop], [splice], [a[i] = x], [a.length = n], ...) leaves the
    array with some list of elements. *)
Definition mutate_array (r : nat) (elems : list nat) (w : world) : world :=
  {| sessionMessages := sessionMessages w; isSending := isSending w;
     heap := match heap w !! r with
             | Some (Arr _) => <[r := Arr elems]> (heap w)
             | _ => heap w
             end;
     storage := storage w |}.


End ChatStore.

(** ** upload.js: the validation of a chosen file *)

Module Upload.

(** [toLowerCase] on a code unit below 256: the capital letters of ASCII and
    of Latin-1 move up by 32, every other code unit stays. *)
Definition lower (c : Ascii.ascii) : Ascii.ascii :=
  let n := Ascii.N_of_ascii c in
  if (((65 <=? n) && (n <=? 90))
      || ((192 <=? n) && (n <=? 222) && negb (n =? 215)))%N
  then Ascii.ascii_of_N (n + 32) else c.

Fixpoint toLowerCase (s : string) : string :=
  match s with
  | EmptyString => EmptyString
  | String c rest => String (lower c) (toLowerCase rest)
  end.

(** [s.lastIndexOf('.')]: the index of the last dot, -1 without one. *)
Fixpoint lastIndexOf_dot (s : string) : Z :=
  match s with
  | EmptyString => -1
  | String c rest =>
      let i := lastIndexOf_dot rest in
      if 0 <=? i then i + 1
      else if Ascii.eqb c "."%char then 0 else -1
  end.

Fixpoint drop_chars (n : nat) (s : string) : string :=
  match n, s with
  | O, _ => s
  | S n, String _ rest => drop_chars n rest
  | S _, EmptyString => EmptyString
  end.

(** [s.substring(start)]: a negative start counts as 0. *)
Definition substring (start : Z) (s : string) : string :=
  drop_chars (Z.to_nat start) s.

(** [filename.toLowerCase().substring(filename.lastIndexOf('.'))]: the
    index is taken on the name as given and cuts the lower-cased name.  On
    the strings of this embedding, whose code units are below 256,
    lower-casing keeps every position, so the cut falls on the same dot; a
    name with a code unit whose lower case is longer (U+0130) is not among
    them. *)
Definition getFileExtension (filename : string) : string :=
  substring (lastIndexOf_dot filename) (toLowerCase filename).

Definition allowedTypes : list string :=
  [ "application/pdf";
    "application/vnd.openxmlformats-officedocument.wordprocessingml.document";
    "text/plain" ].

Definition allowedExtensions : list string := [ ".pdf"; ".docx"; ".txt" ].

Definition maxSize : Z := 10 * 1024 * 1024.

(** [{ success: true, file }] or [{ success: false, error }]. *)
Inductive result :=
  | Success (file : File)
  | Failure (error : string).

Definition handleFileUpload (file : File) : result :=
  let fileExtension := getFileExtension (file_name file) in
  if negb (existsb (String.eqb (file_type file)) allowedTypes)
     && negb (existsb (String.eqb fileExtension) allowedExtensions)
  then Failure "Upload a PDF, DOCX, or TXT"
  else if maxSize <? file_size file
  then Failure "File too large. Use files under 10MB"
  else if file_size file =? 0
  then Failure "File is empty. Choose another file"
  else Success file.

End Upload.

(** ** backend/server.js: the route [POST /parse]

    The route is [upload.single('document')] followed by the handler; an
    error that the upload raises goes to the error middleware at the end
    of the file.  What the libraries and the modules outside the
    repository's files compute is part of the request: whether multer found
    the file larger than [limits.fileSize], [isSupported] and [extractText]
    of the extractor; [path.extname] is a parameter. *)

Module Backend.

Record request := {
  has_file : bool;              (* a file came under the field document *)
  originalname : string;        (* file.originalname *)
  exceeds_fileSize : bool;      (* the file is larger than limits.fileSize *)
  documentId : string;          (* req.body.documentId, empty when missing *)
  supported : bool;             (* isSupported(req.file) *)
  documentText : option string; (* extractText(req.file); None when it throws *)
}.

(** What is passed to [next]: a [MulterError] with its code, or another
    [Error]; both have a message. *)
Inductive error :=
  | MulterError (code message : string)
  | Error (message : string).

Definition message (e : error) : string :=
  match e with MulterError _ m | Error m => m end.

(** The error middleware: the status and the JSON body of the response. *)
Definition error_middleware (e : error) : Z * value :=
  let other :=
    if String.eqb (message e) "Unsupported file type" then
      (400, VObj [("error", VStr "Only PDF, DOCX, and TXT files are supported")])
    else (500, VObj [("error", VStr "Internal server error")]) in
  match e with
  | MulterError code _ =>
      if String.eqb code "LIMIT_FILE_SIZE" then
        (413, VObj [("error", VStr "File too large (max 10MB)")])
      else if String.eqb code "LIMIT_FILE_COUNT" then
        (400, VObj [("error", VStr "Only one file allowed")])
      else other
  | Error _ => other
  end.

(** The handler of the route: the status and the JSON body of the
    response; [timestamp] is [new Date().toISOString()]. *)
Definition parse_handler (req : request) (timestamp : string) : Z * value :=
  if negb (has_file req) || String.eqb (documentId req) EmptyString then
    (400, VObj [("error", VStr "Document file and documentId required")])
  else if negb (supported req) then
    (400, VObj [("error", VStr "Unsupported file type")])
  else
    match documentText req with
    | None => (500, VObj [("error", VStr "Document parsing failed")])
    | Some text =>
        if String.eqb text EmptyString || (Z.of_nat (String.length text) <? 10) then
          (400, VObj [("error", VStr "Document contains insufficient text")])
        else
          (200, VObj [ ("success", VBool true);
                       ("documentId", VStr (documentId req));
                       ("textLength", VNum (Z.of_nat (String.length text)));
                       ("timestamp", VStr timestamp) ])
    end.

Section Route.
(** [path.extname]. *)
Context (extname : string → string).

Definition allowedExtensions : list string := [ ".pdf"; ".docx"; ".txt" ].

(** The [fileFilter] of the upload: [true] when it accepts the file. *)
Definition fileFilter (req : request) : bool :=
  let fileExtension := Upload.toLowerCase (extname (originalname req)) in
  existsb (String.eqb fileExtension) allowedExtensions.

(** [POST /parse]: the filter sees the file when its part begins, the size
    limit is met while the file is read, and the handler runs when the
    upload has raised no error. *)
Definition parse (req : request) (timestamp : string) : Z * value :=
  if has_file req && negb (fileFilter req) then
    error_middleware (Error "Unsupported file type")
  else if has_file req && exceeds_fileSize req then
    error_middleware (MulterError "LIMIT_FILE_SIZE" "File too large")
  else parse_handler req timestamp.
End Route.

(** A reply that the store can get from this backend: an exception of any
    kind, or the body of a response with status 200. *)
Definition sends (reply : DocumentStore.Reply) : Prop :=
  match reply with
  | DocumentStore.Result result =>
      ∃ extname req timestamp, parse extname req timestamp = (200, result)
  | DocumentStore.Thrown _ => True
  end.

End Backend.

(** ** Runs of the stores *)

Module SessionRun.

Inductive op :=
  | CreateSession (name : value) (now : nat → Z)
  | SetActiveSession (sessionId : string) (now : Z)
  | AddDocumentToSession (sessionId docId : string) (now : Z)
  | SetActiveDocument (sessionId docId : string) (now : Z)
  | Restore
  | Reload.      (* the page is loaded again: a new store over the same substrate *)

Section Run.
Context (coerced_lt : value → Z → option bool).

Definition step (w : SessionStore.world) (o : op) : SessionStore.world :=
  match o with
  | CreateSession name now => (SessionStore.createSession name now w).2
  | SetActiveSession sessionId now => SessionStore.setActiveSession sessionId now w
  | AddDocumentToSession sessionId docId now =>
      SessionStore.addDocumentToSession sessionId docId now w
  | SetActiveDocument sessionId docId now =>
      SessionStore.setActiveDocument sessionId docId now w
  | Restore => SessionStore.restore coerced_lt w
  | Reload => {| SessionStore.store := SessionStore.constructor;
                 SessionStore.storage := SessionStore.storage w |}
  end.

Definition run (ops : list op) (w : SessionStore.world) : SessionStore.world :=
  fold_left step ops w.
End Run.

(** A new store in a browser that holds no data yet. *)
Definition initial : SessionStore.world :=
  {| SessionStore.store := SessionStore.constructor; SessionStore.storage := ∅ |}.

End SessionRun.

Module DocumentRun.

Inductive op :=
  | AddDocument (f : File) (now : nat → Z)
  | ReuploadDocument (docId : string) (f : File) (now : Z)
  | ParseDocument (docId : string) (now : Z)
  | Resume (l : nat) (reply : DocumentStore.Reply) (now : Z)
      (* the backend's reply reaches the call suspended on the document at l *)
  | Restore
  | Reload.

Section Run.
Context (coerced_lt : value → Z → option bool).

Definition step (w : DocumentStore.world) (o : op) : DocumentStore.world :=
  match o with
  | AddDocument f now => (DocumentStore.addDocument f now w).2
  | ReuploadDocument docId f now => (DocumentStore.reuploadDocument docId f now w).2
  | ParseDocument docId now => (DocumentStore.parseDocument docId now w).2
  | Resume l reply now =>
      if bool_decide (l ∈ DocumentStore.awaiting w)
      then (DocumentStore.parseDocument_resume l reply now w).2
      else w
  | Restore => DocumentStore.restore coerced_lt w
  | Reload => DocumentStore.constructor (DocumentStore.storage w)
  end.

Definition run (ops : list op) (w : DocumentStore.world) : DocumentStore.world :=
  fold_left step ops w.
End Run.

(** The replies in a run come from the backend. *)
Definition from_backend (o : op) : Prop :=
  match o with
  | Resume _ reply _ => Backend.sends reply
  | _ => True
  end.

(** The result of a parse that completes in the step, if it has a
    [documentId], has one that is neither [null] nor [undefined]. *)
Definition carries_artifact (o : op) : Prop :=
  match o with
  | Resume _ (DocumentStore.Result result) _ =>
      ∀ a, get_prop "documentId" result = Some a → a ≠ VNull ∧ a ≠ VUndef
  | _ => True
  end.

End DocumentRun.

Module ChatRun.

Inductive op :=
  | AddMessage (sessionId : string) (role content evidence : value) (now : nat → Z)
  | GetMessages (sessionId : string)
  | MutateArray (r : nat) (elems : list nat)
      (* a caller changes an array that getMessages returned to it *)
  | SetSending (b : bool).

(** The store, and the arrays that callers hold: those that [getMessages]
    returned. *)
Record state := {
  world : ChatStore.world;
  held : list nat;
}.

(** A call that throws leaves the store as it was. *)
Definition step (st : state) (o : op) : state :=
  match o with
  | AddMessage sessionId role content evidence now =>
      match ChatStore.addMessage sessionId role content evidence now (world st) with
      | Some returned => {| world := returned.2; held := held st |}
      | None => st
      end
  | GetMessages sessionId =>
      match ChatStore.getMessages sessionId (world st) with
      | Some (r, w) => {| world := w; held := r :: held st |}
      | None => st
      end
  | MutateArray r elems =>
      if bool_decide (r ∈ held st)
      then {| world := ChatStore.mutate_array r elems (world st); held := held st |}
      else st
  | SetSending b =>
      {| world := ChatStore.setSending b (world st); held := held st |}
  end.

Definition run (ops : list op) (st : state) : state := fold_left step ops st.

Definition initial (ls : localStorage) : state :=
  {| world := ChatStore.constructor [] ls; held := [] |}.

(** The message that [addMessage] creates. *)
Definition message (role content evidence : value) (now : nat → Z) : value :=
  VObj [ ("id", VStr (toString (now 0%nat)));
         ("role", role);
         ("content", content);
         ("evidence", match evidence with VUndef => VNull | _ => evidence end);
         ("createdAt", VNum (now 1%nat)) ].

(** The messages added to a session, in the order of the calls. *)
Fixpoint history (ops : list op) (sessionId : string) : list value :=
  match ops with
  | [] => []
  | AddMessage s role content evidence now :: rest =>
      if truthy (VStr s) && String.eqb s sessionId
      then message role content evidence now :: history rest sessionId
      else history rest sessionId
  | _ :: rest => history rest sessionId
  end.

(** What a caller reads in the array that [getMessages] returns; [None]
    when the call throws. *)
Definition observe (sessionId : string) (w : ChatStore.world) : option (list value) :=
  returned ← ChatStore.getMessages sessionId w;
  Some (ChatStore.items (ChatStore.heap returned.2) returned.1).

End ChatRun.

(** ** app.js: the three stores over one substrate

    Rendering and the other work on the DOM are left out: they read the
    stores and do not write them. *)

Module App.

Record world := {
  sessionStore : SessionStore.t;
  documents : list (value * nat);        (* documentStore.documents *)
  heap : list Document;                  (* the document objects *)
  awaiting : list nat;                   (* suspended parseDocument calls *)
  sessionMessages : list (value * nat);  (* chatStore.sessionMessages *)
  isSending : bool;                      (* chatStore.isSending *)
  cells : list ChatStore.cell;           (* the arrays and messages of the chat *)
  pendingReuploadDocId : option string;  (* window.pendingReuploadDocId *)
  storage : localStorage;
}.

(** The stores as the page creates them when it loads. *)
Definition start (ls : localStorage) : world :=
  {| sessionStore := SessionStore.constructor;
     documents := []; heap := []; awaiting := [];
     sessionMessages := []; isSending := false; cells := [];
     pendingReuploadDocId := None;
     storage := ls |}.

(** Each store with the substrate, and the application after a store has
    worked. *)
Definition sessions_of (a : world) : SessionStore.world :=
  {| SessionStore.store := sessionStore a; SessionStore.storage := storage a |}.

Definition put_sessions (w : SessionStore.world) (a : world) : world :=
  {| sessionStore := SessionStore.store w;
     documents := documents a; heap := heap a; awaiting := awaiting a;
     sessionMessages := sessionMessages a; isSending := isSending a; cells := cells a;
     pendingReuploadDocId := pendingReuploadDocId a;
     storage := SessionStore.storage w |}.

Definition documents_of (a : world) : DocumentStore.world :=
  {| DocumentStore.documents := documents a; DocumentStore.heap := heap a;
     DocumentStore.awaiting := awaiting a; DocumentStore.storage := storage a |}.

Definition put_documents (w : DocumentStore.world) (a : world) : world :=
  {| sessionStore := sessionStore a;
     documents := DocumentStore.documents w; heap := DocumentStore.heap w;
     awaiting := DocumentStore.awaiting w;
     sessionMessages := sessionMessages a; isSending := isSending a; cells := cells a;
     pendingReuploadDocId := pendingReuploadDocId a;
     storage := DocumentStore.storage w |}.

Definition chat_of (a : world) : ChatStore.world :=
  {| ChatStore.sessionMessages := sessionMessages a; ChatStore.isSending := isSending a;
     ChatStore.heap := cells a; ChatStore.storage := storage a |}.

Definition put_chat (w : ChatStore.world) (a : world) : world :=
  {| sessionStore := sessionStore a;
     documents := documents a; heap := heap a; awaiting := awaiting a;
     sessionMessages := ChatStore.sessionMessages w;
     isSending := ChatStore.isSending w; cells := ChatStore.heap w;
     pendingReuploadDocId := pendingReuploadDocId a;
     storage := ChatStore.storage w |}.

Definition set_pendingReuploadDocId (p : option string) (a : world) : world :=
  {| sessionStore := sessionStore a;
     documents := documents a; heap := heap a; awaiting := awaiting a;
     sessionMessages := sessionMessages a; isSending := isSending a; cells := cells a;
     pendingReuploadDocId := p;
     storage := storage a |}.

Section Init.
Context (coerced_lt : value → Z → option bool).

(** [init()]: the three stores are restored in turn; [None] when the
    restore of the chat throws. *)
Definition init (a : world) : option world :=
  let a := put_sessions (SessionStore.restore coerced_lt (sessions_of a)) a in
  let a := put_documents (DocumentStore.restore coerced_lt (documents_of a)) a in
  c ← ChatStore.restore coerced_lt (chat_of a);
  Some (put_chat c a).
End Init.

Definition getActiveSession (a : world) : option Session :=
  SessionStore.getActiveSession (sessionStore a).

(** [getActiveDocument()]: the reference of the document, [None] for [null]
    and [undefined]. *)
Definition getActiveDocument (a : world) : option nat :=
  match getActiveSession a with
  | Some session =>
      if truthy (activeDocumentId session)
      then Map_get (activeDocumentId session) (documents a)
      else None
  | None => None
  end.

(** [canAskQuestions()], read as a condition:
    [doc && documentStore.isQueryable(doc.docId)]. *)
Definition canAskQuestions (a : world) : bool :=
  match getActiveDocument a with
  | Some l =>
      DocumentStore.isQueryable_at (docId (DocumentStore.deref (documents_of a) l))
        (documents_of a)
  | None => false
  end.

(** [createSession()] and [switchToSession(sessionId)]. *)
Definition createSession (now : nat → Z) (a : world) : world :=
  put_sessions (SessionStore.createSession VUndef now (sessions_of a)).2 a.

Definition switchToSession (sessionId : string) (now : Z) (a : world) : world :=
  put_sessions (SessionStore.setActiveSession sessionId now (sessions_of a)) a.

(** [triggerReupload(docId)]. *)
Definition triggerReupload (docId : string) (a : world) : world :=
  set_pendingReuploadDocId (Some docId) a.

(** [handleFileSelection(e)] with [file] for [e.target.files[0]]; [now] is
    the clock, read from [now 0] on.  [None]: reading [session.sessionId]
    throws. *)
Definition handleFileSelection (file : option File) (now : nat → Z) (a : world)
    : option world :=
  match file with
  | None => Some a
  | Some file =>
      match Upload.handleFileUpload file with
      | Upload.Failure _ => Some a
      | Upload.Success _ =>
          let '(created, a) :=
            match getActiveSession a with
            | Some _ => (0%nat, a)
            | None => (3%nat, createSession now a)
            end in
          let now := λ i, now (created + i)%nat in
          session ← getActiveSession a;
          let pending :=
            match pendingReuploadDocId a with
            | Some docId => if truthy (VStr docId) then Some docId else None
            | None => None
            end in
          match pending with
          | Some pending =>
              let '(success, w) :=
                DocumentStore.reuploadDocument pending file (now 0%nat)
                  (documents_of a) in
              let a := put_documents w a in
              let a :=
                if success
                then put_sessions
                       (SessionStore.setActiveDocument_at (sessionId session) pending
                          (now 1%nat) (sessions_of a)) a
                else a in
              Some (set_pendingReuploadDocId None a)
          | None =>
              let '(docId, w) := DocumentStore.addDocument file now (documents_of a) in
              let a := put_documents w a in
              Some (put_sessions
                      (SessionStore.addDocumentToSession_at (sessionId session) docId
                         (now 3%nat) (sessions_of a)) a)
          end
      end
  end.

(** [parseDocument(docId)], and its rest when the backend has replied. *)
Definition parseDocument (docId : string) (now : Z) (a : world) : world :=
  put_documents (DocumentStore.parseDocument docId now (documents_of a)).2 a.

Definition parseDocument_resume (l : nat) (reply : DocumentStore.Reply) (now : Z)
    (a : world) : world :=
  put_documents (DocumentStore.parseDocument_resume l reply now (documents_of a)).2 a.

End App.

(** * Definitions for the statements *)

Section value_induction.
Context (P : value → Prop).
Context (Hundef : P VUndef) (Hnull : P VNull) (Hbool : ∀ b, P (VBool b))
        (Hnum : ∀ n, P (VNum n)) (Hstr : ∀ s, P (VStr s))
        (Harr : ∀ items, Forall P items → P (VArr items))
        (Hobj : ∀ props, Forall (λ p, P p.2) props → P (VObj props)).

Fixpoint value_nested_ind (v : value) : P v :=
  match v with
  | VUndef => Hundef
  | VNull => Hnull
  | VBool b => Hbool b
  | VNum n => Hnum n
  | VStr s => Hstr s
  | VArr items =>
      Harr items
        ((fix go (l : list value) : Forall P l :=
            match l with
            | [] => Forall_nil_2 P
            | x :: r => Forall_cons_2 P x r (value_nested_ind x) (go r)
            end) items)
  | VObj props =>
      Hobj props
        ((fix go (l : list (string * value)) : Forall (λ p, P p.2) l :=
            match l with
            | [] => Forall_nil_2 _
            | p :: r => Forall_cons_2 (λ p, P p.2) p r (value_nested_ind p.2) (go r)
            end) props)
  end.
End value_induction.

Section Map_invariant.
Context {A : Type}.

(** No key occurs twice. *)
Inductive Map_ok : list (value * A) → Prop :=
  | Map_ok_nil : Map_ok []
  | Map_ok_cons k a m : Map_get k m = None → Map_ok m → Map_ok ((k, a) :: m).
End Map_invariant.

(** The session object read back from the substrate. *)
Definition reloaded_session (s : Session) : value :=
  VObj (Json.properties [ ("sessionId", sessionId s);
                          ("name", name s);
                          ("state", sessionState s);
                          ("activeDocumentIds", VArr (activeDocumentIds s));
                          ("createdAt", createdAt s) ]).

(** The document that [addDocument] creates. *)
Definition fresh_document (f : File) (now : nat → Z) : Document :=
  {| docId := VStr (toString (now 0%nat));
     state := VStr DocumentState.UPLOADED;
     metadata := VObj [ ("name", VStr (file_name f));
                        ("size", VNum (file_size f));
                        ("type", VStr (file_type f));
                        ("uploadedAt", VNum (now 1%nat)) ];
     file := Some f;
     parsedArtifactId := VNull;
     parseError := VNull;
     requiresReupload := false |}.

(** What a step asks of a property of documents for the property to hold of
    every object of the heap after the step. *)
Definition op_preserves (P : Document → Prop) (w : DocumentStore.world)
    (o : DocumentRun.op) : Prop :=
  match o with
  | DocumentRun.AddDocument f now => P (fresh_document f now)
  | DocumentRun.ReuploadDocument _ f _ =>
      ∀ d, P d →
        P (DocumentStore.set_requiresReupload false
             (DocumentStore.set_parseError VNull
                (DocumentStore.set_state DocumentState.UPLOADED
                   (DocumentStore.set_file (Some f) d))))
  | DocumentRun.ParseDocument _ _ =>
      (∀ d, P d → file d = None →
         P (DocumentStore.set_state DocumentState.REQUIRES_REUPLOAD d))
      ∧ (∀ d, P d → is_Some (file d) →
           is_str (state d) DocumentState.UPLOADED = true →
           P (DocumentStore.set_parseError VNull
                (DocumentStore.set_state DocumentState.PARSING d)))
  | DocumentRun.Resume l reply _ =>
      l ∈ DocumentStore.awaiting w →
      match reply with
      | DocumentStore.Result result =>
          match get_prop "documentId" result with
          | Some documentId =>
              ∀ d, P d →
                P (DocumentStore.set_state DocumentState.PARSED
                     (DocumentStore.set_parsedArtifactId documentId d))
          | None =>
              ∀ d, P d →
                P (DocumentStore.set_parseError (VStr DocumentStore.TypeError_message)
                     (DocumentStore.set_state DocumentState.PARSE_FAILED d))
          end
      | DocumentStore.Thrown message =>
          ∀ d, P d →
            P (DocumentStore.set_parseError (VStr message)
                 (DocumentStore.set_state DocumentState.PARSE_FAILED d))
      end
  | DocumentRun.Restore =>
      ∀ id doc e, Storage.rehydrate id doc = Some e → P (DocumentStore.restored e.2)
  | DocumentRun.Reload => True
  end.

(** A document that the loader will keep when it is saved. *)
Definition doc_ok (d : Document) : Prop :=
  truthy (docId d) = true ∧ truthy (state d) = true ∧ truthy (metadata d) = true.

(** The map is a map, its keys are truthy and its references are in the
    heap. *)
Definition map_ok (w : DocumentStore.world) : Prop :=
  Map_ok (DocumentStore.documents w)
  ∧ Forall (λ e, truthy e.1 = true ∧ (e.2 < length (DocumentStore.heap w))%nat)
      (DocumentStore.documents w).

(** A PARSED document has an artifact id. *)
Definition artifact_ok (d : Document) : Prop :=
  is_str (state d) DocumentState.PARSED = true →
  parsedArtifactId d ≠ VNull ∧ parsedArtifactId d ≠ VUndef.



(** An engine whose coercions all yield NaN. *)
Definition nan_lt (_ : value) (_ : Z) : option bool := Some false.

Definition report_txt : File :=
  {| file_name := "report.txt"; file_size := 2048; file_type := "text/plain" |}.

(** A clock that advances by one at every reading, starting at [t]. *)
Definition clock (t : Z) : nat → Z := λ i, t + Z.of_nat i.

(** One document uploaded at time 1000 in a browser without data, and its
    parse started. *)
Definition w_uploaded : DocumentStore.world :=
  (DocumentStore.addDocument report_txt (clock 1000) (DocumentStore.constructor ∅)).2.
Definition w_parsing : DocumentStore.world :=
  (DocumentStore.parseDocument "1000" 1005 w_uploaded).2.

(** The backend failed: the document is PARSE_FAILED, its file still there. *)
Definition w_failed : DocumentStore.world :=
  (DocumentStore.parseDocument_resume 0 (DocumentStore.Thrown "Parse failed")
     1010 w_parsing).2.

(** The backend answered: the document is PARSED. *)
Definition parse_reply : value :=
  VObj [ ("success", VBool true); ("documentId", VStr "1000");
         ("textLength", VNum 31); ("timestamp", VStr "2024-01-01T00:00:00.000Z") ].
Definition w_parsed : DocumentStore.world :=
  (DocumentStore.parseDocument_resume 0 (DocumentStore.Result parse_reply)
     1010 w_parsing).2.

(** One document uploaded at time 1000, and the page loaded again: the
    document is back without its file. *)
Definition ops_reloaded : list DocumentRun.op :=
  [ DocumentRun.AddDocument report_txt (clock 1000);
    DocumentRun.Reload;
    DocumentRun.Restore ].
Definition w_reloaded : DocumentStore.world :=
  DocumentRun.run nan_lt ops_reloaded (DocumentStore.constructor ∅).

(** A PARSED document without its file (no run of the store produces it). *)
Definition w_parsed_no_file : DocumentStore.world :=
  {| DocumentStore.documents := [(VStr "d1", 0%nat)];
     DocumentStore.heap :=
       [ {| docId := VStr "d1"; state := VStr DocumentState.PARSED;
            metadata := VObj [ ("name", VStr "report.txt"); ("size", VNum 2048);
                               ("type", VStr "text/plain"); ("uploadedAt", VNum 1) ];
            file := None; parsedArtifactId := VStr "a1"; parseError := VNull;
            requiresReupload := false |} ];
     DocumentStore.awaiting := [];
     DocumentStore.storage := ∅ |}.


(** The steps that lead to [w_parsed]. *)
Definition ops_parsed : list DocumentRun.op :=
  [ DocumentRun.AddDocument report_txt (clock 1000);
    DocumentRun.ParseDocument "1000" 1005;
    DocumentRun.Resume 0 (DocumentStore.Result parse_reply) 1010 ].

(** The steps that lead to a document in PARSING. *)
Definition ops_parsing : list DocumentRun.op :=
  [ DocumentRun.AddDocument report_txt (clock 1000);
    DocumentRun.ParseDocument "1000" 1005 ].

(** The active document of a session is [null], absent ([undefined], as in a
    session read back from the substrate) or one of its documents. *)
Definition session_ok (s : Session) : Prop :=
  activeDocumentId s = VNull ∨ activeDocumentId s = VUndef
  ∨ In (activeDocumentId s) (activeDocumentIds s).

(** Nothing is stored for the sessions, or what is stored was written by
    [saveSessions]. *)
Definition sessions_written (ls : localStorage) : Prop :=
  ls !! Storage.STORAGE_KEYS.sessions = None
  ∨ ∃ m a now ls0, ls = Storage.saveSessions m a now ls0.

(** The object written for a well-formed document, and read back. *)
Definition plain_document (d : Document) : value :=
  VObj [ ("docId", docId d); ("state", state d); ("metadata", metadata d);
         ("parsedArtifactId", parsedArtifactId d); ("parseError", parseError d) ].

(** Well-formed entries of the three families: the fields that the loaders
    test are truthy, every canonical field is a JSON value, the metadata of
    a document is as [addDocument] builds it, and a PARSED document has its
    artifact id. *)
Definition wf_session (e : value * Session) : bool :=
  truthy e.1 && Json.json e.1
  && truthy (sessionId e.2) && Json.json (sessionId e.2)
  && truthy (name e.2) && Json.json (name e.2)
  && truthy (sessionState e.2) && Json.json (sessionState e.2)
  && forallb Json.json (activeDocumentIds e.2)
  && Json.json (createdAt e.2).

Definition is_metadata (v : value) : bool :=
  match v with
  | VObj [(k1, n); (k2, sz); (k3, ty); (k4, up)] =>
      String.eqb k1 "name" && String.eqb k2 "size" && String.eqb k3 "type"
      && String.eqb k4 "uploadedAt"
      && Json.json n && Json.json sz && Json.json ty && Json.json up
  | _ => false
  end.

Definition wf_document (e : value * Document) : bool :=
  truthy e.1 && Json.json e.1
  && truthy (docId e.2) && Json.json (docId e.2)
  && truthy (state e.2) && Json.json (state e.2)
  && is_metadata (metadata e.2)
  && Json.json (parsedArtifactId e.2) && Json.json (parseError e.2)
  && (negb (is_str (state e.2) DocumentState.PARSED) || truthy (parsedArtifactId e.2)).

(** The canonical fields of a session read back, against those saved. *)
Definition same_session (e : value * Session) (e' : value * value) : Prop :=
  e'.1 = e.1
  ∧ sessionId (SessionStore.Session_of e'.2) = sessionId e.2
  ∧ name (SessionStore.Session_of e'.2) = name e.2
  ∧ sessionState (SessionStore.Session_of e'.2) = sessionState e.2
  ∧ activeDocumentIds (SessionStore.Session_of e'.2) = activeDocumentIds e.2
  ∧ createdAt (SessionStore.Session_of e'.2) = createdAt e.2.

(** The canonical fields of a document read back, against those saved: all
    the same, but for a document saved in PARSING, which comes back
    PARSE_FAILED with the loader's error; the file is gone. *)
Definition same_document (e : value * Document) (e' : value * value) : Prop :=
  e'.1 = e.1
  ∧ docId (DocumentStore.Document_of e'.2) = docId e.2
  ∧ metadata (DocumentStore.Document_of e'.2) = metadata e.2
  ∧ parsedArtifactId (DocumentStore.Document_of e'.2) = parsedArtifactId e.2
  ∧ file (DocumentStore.Document_of e'.2) = None
  ∧ if is_str (state e.2) DocumentState.PARSING
    then state (DocumentStore.Document_of e'.2) = VStr DocumentState.PARSE_FAILED
         ∧ parseError (DocumentStore.Document_of e'.2)
           = VStr "Parsing interrupted by page reload"
    else state (DocumentStore.Document_of e'.2) = state e.2
         ∧ parseError (DocumentStore.Document_of e'.2) = parseError e.2.

(** The log that the store holds for a session. *)
Definition log (w : ChatStore.world) (sessionId : string) : list value :=
  if truthy (VStr sessionId) then
    match Map_get (VStr sessionId) (ChatStore.sessionMessages w) with
    | Some a => ChatStore.items (ChatStore.heap w) a
    | None => []
    end
  else [].

(** An array of the store: not held by a caller, and an array of objects. *)
Definition array_ok (h : list ChatStore.cell) (held : list nat) (a : nat) : Prop :=
  (a ∉ held)
  ∧ ∃ elems, h !! a = Some (ChatStore.Arr elems)
             ∧ Forall (λ x, ∃ v, h !! x = Some (ChatStore.Obj v)) elems.

(** The arrays of the store are well formed, each is the array of one
    session only, and what callers hold are arrays. *)
Record chat_ok (st : ChatRun.state) : Prop := {
  chat_arrays :
    ∀ k a, (k, a) ∈ ChatStore.sessionMessages (ChatRun.world st) →
           array_ok (ChatStore.heap (ChatRun.world st)) (ChatRun.held st) a;
  chat_distinct :
    ∀ k1 k2 a, (k1, a) ∈ ChatStore.sessionMessages (ChatRun.world st) →
               (k2, a) ∈ ChatStore.sessionMessages (ChatRun.world st) → k1 = k2;
  chat_held :
    ∀ r, r ∈ ChatRun.held st →
         ∃ elems, ChatStore.heap (ChatRun.world st) !! r = Some (ChatStore.Arr elems);
}.

(** Every cell of [h] is the same in [h'], but for arrays that callers
    hold. *)
Definition frame (h h' : list ChatStore.cell) (held : list nat) : Prop :=
  ∀ x c, h !! x = Some c →
         (x ∈ held ∧ ∃ elems, c = ChatStore.Arr elems) ∨ h' !! x = Some c.

(** What a loader does with nothing stored, with a text that is not JSON,
    with the stored value [null], with data whose version tag is absent or
    otherwise falsy, and with data whose version tag is a number below the
    current one; [body] is the [try] block of the loader.  [JSON.parse]
    yields [null] but never [undefined]. *)
Definition rejects {A} (key : string)
    (body : localStorage → option (option A * localStorage))
    (load : localStorage → option A * localStorage) : Prop :=
  (∀ ls, ls !! key = None → load ls = (None, ls))
  ∧ (∀ ls, ls !! key = Some Json.Blank → load ls = (None, ls))
  ∧ (∀ ls, ls !! key = Some Json.Malformed → load ls = (None, ls))
  ∧ (∀ ls, ls !! key = Some (Json.Text VNull) → load ls = (None, ls))
  ∧ (∀ ls data, ls !! key = Some (Json.Text data) →
       data ≠ VNull → data ≠ VUndef →
       truthy (prop "version" data) = false →
       load ls = (None, removeItem key ls))
  ∧ (∀ ls data n, ls !! key = Some (Json.Text data) →
       prop "version" data = VNum n → n < Storage.STORAGE_VERSION →
       load ls = (None, removeItem key ls))
  ∧ (∀ ls, body ls = None → load ls = (None, ls)).

Definition session_work : Session :=
  {| sessionId := VStr "s1"; name := VStr "Work";
     sessionState := VStr SessionState.ACTIVE;
     activeDocumentIds := [VStr "d1"]; activeDocumentId := VStr "d1";
     createdAt := VNum 1 |}.

Definition doc_parsing : Document :=
  {| docId := VStr "d1"; state := VStr DocumentState.PARSING;
     metadata := VObj [ ("name", VStr "report.txt"); ("size", VNum 2048);
                        ("type", VStr "text/plain"); ("uploadedAt", VNum 1) ];
     file := Some report_txt; parsedArtifactId := VNull; parseError := VNull;
     requiresReupload := false |}.

(** The entries that the loaders return, none when they return [null]. *)
Definition loaded_sessions (ls : localStorage) : list (value * value) :=
  match (Storage.loadSessions nan_lt ls).1 with
  | Some saved => Storage.saved_sessions saved
  | None => []
  end.
Definition loaded_documents (ls : localStorage) : list (value * value) :=
  match (Storage.loadDocuments nan_lt ls).1 with
  | Some saved => Storage.saved_documents saved
  | None => []
  end.

(** A session with two documents, the first selected again; then the page
    is loaded again and the store restored. *)
Definition ops_session : list SessionRun.op :=
  [ SessionRun.CreateSession (VStr "Work") (clock 1);
    SessionRun.AddDocumentToSession "1" "d1" 5;
    SessionRun.AddDocumentToSession "1" "d2" 6;
    SessionRun.SetActiveDocument "1" "d1" 7 ].

Definition w_session : SessionStore.world :=
  SessionRun.run nan_lt ops_session SessionRun.initial.

(** The session of [w_session]. *)
Definition session_1 : Session :=
  {| sessionId := VStr "1"; name := VStr "Work";
     sessionState := VStr SessionState.ACTIVE;
     activeDocumentIds := [VStr "d1"; VStr "d2"]; activeDocumentId := VStr "d1";
     createdAt := VNum 2 |}.

(** A substrate that holds a session whose active document is none of its
    documents. *)
Definition ls_stranger : localStorage :=
  {[ Storage.STORAGE_KEYS.sessions :=
       Json.Text
         (VObj [ ("version", VNum 2);
                 ("sessions",
                  VArr [ VArr [ VStr "s1";
                                VObj [ ("sessionId", VStr "s1");
                                       ("name", VStr "Work");
                                       ("state", VStr "ACTIVE");
                                       ("activeDocumentIds", VArr []);
                                       ("activeDocumentId", VStr "zz");
                                       ("createdAt", VNum 1) ] ] ]);
                 ("activeSessionId", VStr "s1");
                 ("timestamp", VNum 1) ]) ]}.

(** A substrate whose documents were written by an older version. *)
Definition ls_outdated : localStorage :=
  {[ Storage.STORAGE_KEYS.documents :=
       Json.Text (VObj [ ("version", VNum 1); ("documents", VArr []) ]) ]}.

(** A substrate whose documents have no version tag. *)
Definition ls_untagged : localStorage :=
  {[ Storage.STORAGE_KEYS.documents := Json.Text (VObj [ ("documents", VArr []) ]) ]}.

(** The run of the scenario of two messages. *)
Definition ops_chat : list ChatRun.op :=
  [ ChatRun.AddMessage "S" (VStr "user") (VStr "hi") VUndef (clock 1);
    ChatRun.AddMessage "S" (VStr "assistant") (VStr "hello") VUndef (clock 5) ].

Definition w_chat : ChatStore.world :=
  ChatRun.world (ChatRun.run ops_chat (ChatRun.initial ∅)).

(** The array at [a] holds cells whose values are [msgs]. *)
Definition array_holds (h : list ChatStore.cell) (a : nat) (msgs : list value) : Prop :=
  ∃ elems, h !! a = Some (ChatStore.Arr elems)
           ∧ Forall2 (λ x v, h !! x = Some (ChatStore.Obj v)) elems msgs.

(** The log [v] that [restore] has put in the map under the reference
    [a]: an array over the cells of its messages, or a cell of any other
    value. *)
Definition holds_log (h : list ChatStore.cell) (a : nat) (v : value) : Prop :=
  match v with
  | VArr msgs => array_holds h a msgs
  | _ => h !! a = Some (ChatStore.Obj v)
  end.

(** Stored messages in which the log of the session S is a text. *)
Definition ls_text_log : localStorage :=
  {[ Storage.STORAGE_KEYS.messages :=
       Json.Text (VObj [ ("version", VNum 2);
                         ("sessionMessages", VArr [ VArr [ VStr "S"; VStr "hi" ] ]);
                         ("timestamp", VNum 7) ]) ]}.

(** The keys of the logs are non-empty strings, none twice. *)
Definition chat_keys (w : ChatStore.world) : Prop :=
  Map_ok (ChatStore.sessionMessages w)
  ∧ Forall (λ e, ∃ s, e.1 = VStr s ∧ truthy (VStr s) = true)
      (ChatStore.sessionMessages w).

(** The messages of a run are such that JSON expresses them. *)
Definition storable_message (o : ChatRun.op) : bool :=
  match o with
  | ChatRun.AddMessage _ role content evidence _ =>
      Json.json role && Json.json content
      && match evidence with VUndef => true | _ => Json.json evidence end
  | _ => true
  end.

(** The substrate holds the logs of the store, as the last [persist] wrote
    them, or nothing when the store has none. *)
Definition chat_synced (w : ChatStore.world) : Prop :=
  (ChatStore.sessionMessages w = []
   ∧ ChatStore.storage w !! Storage.STORAGE_KEYS.messages = None)
  ∨ ∃ now,
      ChatStore.storage w !! Storage.STORAGE_KEYS.messages
      = Some (Json.stringify
                (VObj [ ("version", VNum Storage.STORAGE_VERSION);
                        ("sessionMessages", ChatStore.entries w);
                        ("timestamp", VNum now) ])).

(** The polynomial in 31 whose coefficients are the code units, the first
    one of highest degree. *)
Definition horner (codes : list Z) : Z := fold_left (λ h c, 31 * h + c) codes 0.

(** A session that the codec can write and read back: its key, id and
    state are truthy, and JSON expresses its canonical fields. *)
Definition storable_session (e : value * Session) : bool :=
  truthy e.1 && Json.json e.1
  && truthy (sessionId e.2) && Json.json (sessionId e.2)
  && Json.json (name e.2)
  && truthy (sessionState e.2) && Json.json (sessionState e.2)
  && forallb Json.json (activeDocumentIds e.2)
  && Json.json (createdAt e.2).

(** The state in which a document comes back when the page is loaded
    again. *)
Definition state_after_reload (d : Document) : value :=
  if is_str (state d) DocumentState.PARSING then VStr DocumentState.PARSE_FAILED
  else if is_str (state d) DocumentState.PARSED then
    VStr (if truthy (parsedArtifactId d) then DocumentState.REQUIRES_REUPLOAD
          else DocumentState.UPLOADED)
  else Json.roundtrip (state d).

(** An operation on the substrate that changes no entry but the one under
    [key]. *)
Definition confined (key : string) (f : localStorage → localStorage) : Prop :=
  ∀ ls k, k ≠ key → f ls !! k = ls !! k.

(** The configuration that the application starts with. *)
Definition config_xai : value :=
  VObj [ ("provider", VStr "xai"); ("model", VStr "grok-4-1-fast-reasoning");
         ("apiKey", VStr "your-api-key-here") ].

(** The request that carries [report_txt] for the document 1000. *)
Definition req_report : Backend.request :=
  {| Backend.has_file := true; Backend.originalname := "report.txt";
     Backend.exceeds_fileSize := false; Backend.documentId := "1000";
     Backend.supported := true;
     Backend.documentText := Some "Quarterly report: revenue grew." |}.

(** A file whose type the browser does not know. *)
Definition notes_TXT : File :=
  {| file_name := "NOTES.TXT"; file_size := 12; file_type := EmptyString |}.

(** A file that the validation of the page accepts by its type and the
    filter of the route refuses by its name, and the request that carries
    it. *)
Definition report_bin : File :=
  {| file_name := "report.bin"; file_size := 2048; file_type := "text/plain" |}.

Definition w_uploaded_bin : DocumentStore.world :=
  (DocumentStore.addDocument report_bin (clock 1000) (DocumentStore.constructor ∅)).2.

Definition req_report_bin : Backend.request :=
  {| Backend.has_file := true; Backend.originalname := "report.bin";
     Backend.exceeds_fileSize := false; Backend.documentId := "1000";
     Backend.supported := true;
     Backend.documentText := Some "Quarterly report: revenue grew." |}.

(** [path.extname] on names without a path separator that do not begin or
    end with a dot. *)
Definition extname_plain (name : string) : string :=
  Upload.substring (Upload.lastIndexOf_dot name) name.

(** Replies with status 200 that no response of the route is: one whose
    [documentId] is [null], and one without a [documentId]. *)
Definition reply_null : value :=
  VObj [ ("success", VBool true); ("documentId", VNull) ].
Definition reply_bare : value := VObj [ ("success", VBool true) ].

(** A chat store over a substrate whose stored logs hold a number where an
    entry should be. *)
Definition w_bad_chat : ChatStore.world :=
  ChatStore.constructor []
    {[ Storage.STORAGE_KEYS.messages :=
         Json.Text (VObj [ ("version", VNum 2); ("sessionMessages", VArr [VNum 1]) ]) ]}.

(** The application in a browser without data, after [report_txt] has been
    chosen at time 1000: a session 1000 with the document 1003. *)
Definition a_uploaded : App.world :=
  default (App.start ∅)
    (App.handleFileSelection (Some report_txt) (clock 1000) (App.start ∅)).

Definition session_1000 : Session :=
  {| sessionId := VStr "1000"; name := VStr "Untitled Session";
     sessionState := VStr SessionState.ACTIVE;
     activeDocumentIds := [VStr "1003"]; activeDocumentId := VStr "1003";
     createdAt := VNum 1001 |}.

Definition reply_1003 : value :=
  VObj [ ("success", VBool true); ("documentId", VStr "1003");
         ("textLength", VNum 31); ("timestamp", VStr "2024-01-01T00:00:00.000Z") ].

(** The same, with a re-upload asked for the document. *)
Definition a_pending : App.world := App.triggerReupload "1003" a_uploaded.

(** The application of [a_uploaded] after the backend has parsed the
    document, and after the page has then been loaded again. *)
Definition a_parsed : App.world :=
  App.parseDocument_resume 0 (DocumentStore.Result reply_1003) 1020
    (App.parseDocument "1003" 1010 a_uploaded).

Definition a_reloaded : App.world :=
  default (App.start ∅) (App.init nan_lt (App.start (App.storage a_parsed))).

(** * Properties *)

(** ** Values, maps and JSON *)

Lemma same_value_zero_eq a b : same_value_zero a b = true → a = b.
Proof.
  destruct a, b; simpl; try done.
  - intros H. f_equal. by apply Bool.eqb_prop.
  - intros H. f_equal. by apply Z.eqb_eq.
  - intros H. f_equal. by apply String.eqb_eq.
Qed.

Lemma same_value_zero_sym a b : same_value_zero a b = same_value_zero b a.
Proof.
  destruct a, b; simpl; try done.
  - by destruct b, b0.
  - apply Z.eqb_sym.
  - apply String.eqb_sym.
Qed.

Lemma same_value_zero_str s : same_value_zero (VStr s) (VStr s) = true.
Proof. simpl. apply String.eqb_refl. Qed.

Lemma includes_In l x : includes l x = true → In x l.
Proof.
  unfold includes. rewrite existsb_exists. intros (y & Hy & Heq).
  apply same_value_zero_eq in Heq. by subst.
Qed.

Lemma toString_nonempty n : toString n ≠ EmptyString.
Proof.
  assert (Hgo : ∀ x s, (String.length s ≤ String.length (pretty_N_go x s))%nat).
  { intros x. induction (N.lt_wf_0 x) as [x _ IH]. intros s.
    destruct (decide (x = 0)%N) as [->|Hx].
    - rewrite pretty_N_go_0. lia.
    - rewrite pretty_N_go_step by lia.
      etrans; [|apply IH; apply N.div_lt; lia]. simpl. lia. }
  assert (Hpos : ∀ p : positive, pretty p ≠ EmptyString).
  { intros p. unfold pretty, pretty_positive, pretty, pretty_N.
    rewrite decide_False by lia.
    rewrite pretty_N_go_step by lia.
    intros Heq.
    pose proof (Hgo (N.pos p `div` 10)%N
                  (String (pretty_N_char (N.pos p `mod` 10)) EmptyString)) as Hl.
    rewrite Heq in Hl. simpl in Hl. lia. }
  unfold toString, pretty, pretty_Z. destruct n; [done|apply Hpos|done].
Qed.

Lemma truthy_toString n : truthy (VStr (toString n)) = true.
Proof. simpl. apply negb_true_iff, String.eqb_neq, toString_nonempty. Qed.

(** *** Maps *)

Section Map_facts.
Context {A : Type}.
Implicit Types (m : list (value * A)) (k : value) (a : A).

Lemma Map_get_Some_elem k a m : Map_get k m = Some a → (k, a) ∈ m.
Proof.
  induction m as [|[k' a'] r IH]; simpl; [done|].
  destruct (same_value_zero k' k) eqn:E.
  - intros [= ->]. apply same_value_zero_eq in E as ->. left.
  - intros H. right. auto.
Qed.

Lemma Map_get_elem_Some k a m :
  (k, a) ∈ m → same_value_zero k k = true → is_Some (Map_get k m).
Proof.
  induction m as [|[k' a'] r IH]; simpl; [by intros ?%elem_of_nil|].
  intros [[= <- <-]|Hin]%elem_of_cons Hk.
  - rewrite Hk. eauto.
  - destruct (same_value_zero k' k); eauto.
Qed.

Lemma Map_get_set_eq k a m :
  same_value_zero k k = true → Map_get k (Map_set k a m) = Some a.
Proof.
  intros Hk. induction m as [|[k' a'] r IH]; simpl.
  - by rewrite Hk.
  - destruct (same_value_zero k' k) eqn:E; simpl; rewrite E; done.
Qed.

Lemma Map_get_set_ne k k' a m :
  same_value_zero k k' = false → Map_get k' (Map_set k a m) = Map_get k' m.
Proof.
  intros Hne. induction m as [|[k0 a0] r IH]; simpl.
  - by rewrite Hne.
  - destruct (same_value_zero k0 k) eqn:E; simpl.
    + apply same_value_zero_eq in E as ->. by rewrite Hne.
    + by rewrite IH.
Qed.

Lemma Map_ok_set k a m : Map_ok m → Map_ok (Map_set k a m).
Proof.
  induction 1 as [|k' a' r Hk' Hr IH]; simpl.
  - by repeat constructor.
  - destruct (same_value_zero k' k) eqn:E.
    + by constructor.
    + constructor; [|done].
      rewrite Map_get_set_ne; [done|]. by rewrite same_value_zero_sym.
Qed.

Lemma Map_ok_unique k a b m :
  Map_ok m → (k, a) ∈ m → (k, b) ∈ m → same_value_zero k k = true → a = b.
Proof.
  intros Hok Ha Hb Hk. induction Hok as [|k' a' r Hk' Hr IH]; [by apply elem_of_nil in Ha|].
  apply elem_of_cons in Ha as [Ha|Ha]; apply elem_of_cons in Hb as [Hb|Hb].
  - congruence.
  - injection Ha as -> ->.
    destruct (Map_get_elem_Some _ _ _ Hb Hk) as [? Hs]. congruence.
  - injection Hb as -> ->.
    destruct (Map_get_elem_Some _ _ _ Ha Hk) as [? Hs]. congruence.
  - auto.
Qed.

(** An entry of the map after [Map_set] is the new one or an old one. *)
Lemma Map_set_elem k a k' a' m :
  (k', a') ∈ Map_set k a m → a' = a ∨ (k', a') ∈ m.
Proof.
  induction m as [|[k0 a0] r IH]; simpl.
  - intros [[= -> ->]|[]%elem_of_nil]%elem_of_cons. by left.
  - destruct (same_value_zero k0 k).
    + intros [[= -> ->]|?]%elem_of_cons; [by left|]. right. by right.
    + intros [[= -> ->]|?]%elem_of_cons; [right; left|].
      destruct IH as [?|?]; auto. right. by right.
Qed.

Lemma Map_set_keys k a k' a' m :
  (k', a') ∈ Map_set k a m → k' = k ∨ (∃ a0, (k', a0) ∈ m).
Proof.
  induction m as [|[k0 a0] r IH]; simpl.
  - intros [[= -> ->]|[]%elem_of_nil]%elem_of_cons. by left.
  - destruct (same_value_zero k0 k).
    + intros [[= -> ->]|?]%elem_of_cons; right; eexists; [left|by right].
    + intros [[= -> ->]|?]%elem_of_cons; [right; eexists; left|].
      destruct IH as [?|[a1 ?]]; auto. right. eexists. by right.
Qed.
End Map_facts.

(** *** JSON *)

Lemma roundtrip_VArr items :
  Json.roundtrip (VArr items) = VArr (map Json.element items).
Proof. reflexivity. Qed.

Lemma roundtrip_VObj props :
  Json.roundtrip (VObj props) = VObj (Json.properties props).
Proof. reflexivity. Qed.

Lemma roundtrip_json v : Json.json v = true → Json.roundtrip v = v.
Proof.
  induction v using value_nested_ind; simpl; intros Hj; try done.
  - f_equal. induction H as [|x r Hx Hr IH]; simpl in *; [done|].
    apply andb_true_iff in Hj as [Hjx Hjr].
    rewrite IH by done. f_equal.
    destruct x; try done; auto.
  - f_equal. induction H as [|[k x] r Hx Hr IH]; simpl in *; [done|].
    apply andb_true_iff in Hj as [Hjx Hjr].
    rewrite IH by done.
    destruct x; try done; simpl in *; f_equal; f_equal; auto.
Qed.

Lemma element_json v : Json.json v = true → Json.element v = v.
Proof.
  intros Hj. unfold Json.element. rewrite roundtrip_json by done. by destruct v.
Qed.

Lemma map_element_json l : forallb Json.json l = true → map Json.element l = l.
Proof.
  induction l as [|x r IH]; simpl; [done|].
  intros [Hx Hr]%andb_true_iff. by rewrite element_json, IH.
Qed.

Lemma own_absent k props : k ∉ props.*1 → own k props = VUndef.
Proof.
  induction props as [|[k' x] r IH]; simpl; [done|].
  intros Hk. apply not_elem_of_cons in Hk as [Hne Hr].
  destruct (String.eqb_spec k' k); [congruence|auto].
Qed.

Lemma properties_keys k props : k ∉ props.*1 → k ∉ (Json.properties props).*1.
Proof.
  induction props as [|[k' x] r IH]; simpl; [done|].
  intros Hk. apply not_elem_of_cons in Hk as [Hne Hr].
  destruct x; simpl; try apply not_elem_of_cons; auto.
Qed.

Lemma own_properties k props :
  NoDup props.*1 → own k (Json.properties props) = Json.roundtrip (own k props).
Proof.
  induction props as [|[k' x] r IH]; simpl; [done|].
  intros Hnd. apply NoDup_cons in Hnd as [Hk' Hnd].
  destruct (String.eqb_spec k' k) as [->|Hne].
  - destruct x; simpl; rewrite ?String.eqb_refl; try done.
    apply own_absent, properties_keys, Hk'.
  - destruct x; simpl; try (destruct (String.eqb_spec k' k); [congruence|]); auto.
Qed.

Lemma truthy_roundtrip v : truthy (Json.roundtrip v) = truthy v.
Proof. destruct v; reflexivity. Qed.

Lemma truthy_element v : truthy (Json.element v) = truthy v.
Proof. destruct v; reflexivity. Qed.

Lemma is_str_roundtrip v s : is_str (Json.roundtrip v) s = is_str v s.
Proof. destruct v; reflexivity. Qed.

Lemma element_str_inv v s : Json.element v = VStr s → v = VStr s.
Proof. destruct v; simpl; congruence. Qed.

Lemma own_assign_eq k v props : own k (assign k v props) = v.
Proof.
  induction props as [|[k' x] r IH]; simpl.
  - by rewrite String.eqb_refl.
  - destruct (String.eqb_spec k' k) as [->|Hne]; simpl.
    + by rewrite String.eqb_refl.
    + destruct (String.eqb_spec k' k); [congruence|done].
Qed.

Lemma own_assign_ne k k' v props : k ≠ k' → own k (assign k' v props) = own k props.
Proof.
  intros Hne. induction props as [|[k0 x] r IH]; simpl.
  - destruct (String.eqb_spec k' k); [congruence|done].
  - destruct (String.eqb_spec k0 k') as [->|Hne0]; simpl.
    + destruct (String.eqb_spec k' k); [congruence|done].
    + rewrite IH. done.
Qed.

Lemma prop_set_prop_eq k v props : prop k (set_prop k v (VObj props)) = v.
Proof. unfold prop; simpl. apply own_assign_eq. Qed.

Lemma prop_set_prop_ne k k' v o : k ≠ k' → prop k (set_prop k' v o) = prop k o.
Proof.
  intros Hne. destruct o; try done. unfold prop; simpl. by apply own_assign_ne.
Qed.

(** A value with a truthy property is an object. *)
Lemma truthy_prop_object k o : truthy (prop k o) = true → ∃ props, o = VObj props.
Proof. destruct o; try done. eauto. Qed.

(** *** The repairs of the document loader *)

Lemma rehydrate_repair id doc :
  Storage.rehydrate id doc =
    if negb (truthy id) || negb (truthy doc) || negb (truthy (prop "docId" doc))
       || negb (truthy (prop "state" doc)) || negb (truthy (prop "metadata" doc))
    then None else Some (id, Storage.repair doc).
Proof. reflexivity. Qed.

Lemma rehydrate_Some id doc e :
  Storage.rehydrate id doc = Some e →
  e = (id, Storage.repair doc) ∧ truthy id = true ∧ truthy (prop "docId" doc) = true
  ∧ truthy (prop "state" doc) = true ∧ truthy (prop "metadata" doc) = true.
Proof.
  rewrite rehydrate_repair.
  destruct (truthy id), (truthy doc), (truthy (prop "docId" doc)),
    (truthy (prop "state" doc)), (truthy (prop "metadata" doc)); simpl; try done.
  by intros [= <-].
Qed.

Lemma repair_other k doc :
  k ≠ "state" → k ≠ "parsedArtifactId" → k ≠ "parseError" →
  prop k (Storage.repair doc) = prop k doc.
Proof.
  intros H1 H2 H3. unfold Storage.repair.
  repeat match goal with
         | |- context [if ?c then _ else _] => destruct c
         end;
    rewrite ?prop_set_prop_ne by done; done.
Qed.

Lemma prop_VObj k props : prop k (VObj props) = own k props.
Proof. reflexivity. Qed.

Ltac own_simpl :=
  cbn [set_prop]; rewrite ?prop_VObj;
  repeat first [ rewrite own_assign_eq | rewrite own_assign_ne by done ].

Lemma repair_not_PARSING props :
  is_str (prop "state" (Storage.repair (VObj props))) "PARSING" = false.
Proof.
  unfold Storage.repair.
  destruct (is_str (prop "state" (VObj props)) "PARSED"
            && negb (truthy (prop "parsedArtifactId" (VObj props)))) eqn:E1.
  - own_simpl. simpl. own_simpl. done.
  - destruct (is_str (prop "state" (VObj props)) "PARSING") eqn:E2; [|done].
    own_simpl. done.
Qed.

Lemma repair_PARSED props :
  is_str (prop "state" (Storage.repair (VObj props))) "PARSED" = true →
  truthy (prop "parsedArtifactId" (Storage.repair (VObj props))) = true.
Proof.
  unfold Storage.repair.
  destruct (is_str (prop "state" (VObj props)) "PARSED"
            && negb (truthy (prop "parsedArtifactId" (VObj props)))) eqn:E1.
  - own_simpl. simpl. own_simpl. done.
  - destruct (is_str (prop "state" (VObj props)) "PARSING") eqn:E2.
    + own_simpl. done.
    + intros Hs. rewrite Hs in E1. simpl in E1. by apply negb_false_iff in E1.
Qed.

Lemma repair_PARSING props :
  is_str (prop "state" (VObj props)) "PARSING" = true →
  prop "state" (Storage.repair (VObj props)) = VStr "PARSE_FAILED"
  ∧ prop "parseError" (Storage.repair (VObj props))
    = VStr "Parsing interrupted by page reload"
  ∧ prop "parsedArtifactId" (Storage.repair (VObj props))
    = prop "parsedArtifactId" (VObj props).
Proof.
  intros Hs. unfold Storage.repair.
  assert (is_str (prop "state" (VObj props)) "PARSED" = false) as ->.
  { destruct (prop "state" (VObj props)); try done. simpl in *.
    apply String.eqb_eq in Hs as ->. done. }
  simpl andb. cbv iota. rewrite Hs. own_simpl. done.
Qed.

Lemma repair_id doc :
  is_str (prop "state" doc) "PARSING" = false →
  (is_str (prop "state" doc) "PARSED" = true →
   truthy (prop "parsedArtifactId" doc) = true) →
  Storage.repair doc = doc.
Proof.
  intros H1 H2. unfold Storage.repair.
  destruct (is_str (prop "state" doc) "PARSED") eqn:E.
  - rewrite H2 by done. simpl. by rewrite H1.
  - simpl. by rewrite H1.
Qed.

Lemma rehydrateAll_pairs (l : list (value * value)) :
  Storage.rehydrateAll (map (λ p, VArr [p.1; p.2]) l)
  = Some (omap (λ p, Storage.rehydrate p.1 p.2) l).
Proof.
  induction l as [|[id doc] r IH]; simpl; [done|].
  rewrite IH. simpl. destruct (Storage.rehydrate id doc); done.
Qed.

(** Whatever the stored array holds, an entry that the loader keeps is a
    repaired valid record. *)
Lemma rehydrateAll_Forall entries valid :
  Storage.rehydrateAll entries = Some valid →
  Forall (λ e, ∃ id doc, Storage.rehydrate id doc = Some e) valid.
Proof.
  revert valid. induction entries as [|x r IH]; simpl; intros valid.
  - by intros [= <-].
  - destruct (destructure2 x) as [[id doc]|]; simpl; [|done].
    destruct (Storage.rehydrateAll r) as [valid'|]; simpl; [|done].
    specialize (IH _ eq_refl).
    destruct (Storage.rehydrate id doc) eqn:E; intros [= <-]; [|done].
    constructor; eauto.
Qed.

(** *** Loading what was saved *)

(** The substrate and the texts in it are not unfolded by [simpl]. *)
Arguments setItem : simpl never.
Arguments removeItem : simpl never.
Arguments getItem : simpl never.
Arguments Storage.saveSessions : simpl never.
Arguments Storage.saveDocuments : simpl never.
Arguments Storage.saveMessages : simpl never.
Arguments Storage.canonical : simpl never.
Arguments Storage.repair : simpl never.
Arguments Json.roundtrip : simpl never.
Arguments Json.element : simpl never.
Arguments Json.properties : simpl never.

Lemma canonicalDoc_truthy id doc :
  truthy (metadata doc) = true →
  Storage.canonicalDoc (id, doc) = Some (VArr [id; Storage.canonical doc]).
Proof.
  unfold Storage.canonicalDoc, Storage.canonical, prop.
  destruct (metadata doc); try done.
Qed.

Lemma mapM_canonicalDoc (m : list (value * Document)) :
  Forall (λ e, truthy (metadata e.2) = true) m →
  mapM Storage.canonicalDoc m = Some (map (λ e, VArr [e.1; Storage.canonical e.2]) m).
Proof.
  intros Hm. apply mapM_Some.
  induction Hm as [|[id doc] r Hd Hr IH]; constructor; [|done].
  by apply canonicalDoc_truthy.
Qed.

(** The properties of a document object read back from the substrate. *)
Lemma canonical_roundtrip_props doc :
  let obj := Json.roundtrip (Storage.canonical doc) in
  prop "docId" obj = Json.roundtrip (docId doc)
  ∧ prop "state" obj = Json.roundtrip (state doc)
  ∧ prop "metadata" obj
    = VObj (Json.properties [ ("name", prop "name" (metadata doc));
                              ("size", prop "size" (metadata doc));
                              ("type", prop "type" (metadata doc));
                              ("uploadedAt", prop "uploadedAt" (metadata doc)) ])
  ∧ prop "parsedArtifactId" obj = Json.roundtrip (parsedArtifactId doc)
  ∧ prop "parseError" obj = Json.roundtrip (parseError doc).
Proof.
  assert (Hnd : NoDup ["docId"; "state"; "metadata"; "parsedArtifactId"; "parseError"]).
  { compute_done. }
  unfold Storage.canonical. cbv zeta. rewrite roundtrip_VObj, !prop_VObj.
  rewrite !own_properties by exact Hnd. done.
Qed.

Lemma filterSessions_pairs (l : list (value * value)) :
  Storage.filterSessions (map (λ p, VArr [p.1; p.2]) l)
  = Some (List.filter (λ p, Storage.validSession p.1 p.2) l).
Proof.
  induction l as [|[id s] r IH]; simpl; [done|].
  rewrite IH. simpl. done.
Qed.

Lemma filterSessions_sub entries valid :
  Storage.filterSessions entries = Some valid →
  Forall (λ p, ∃ entry, entry ∈ entries ∧ destructure2 entry = Some p) valid.
Proof.
  revert valid. induction entries as [|x r IH]; simpl; intros valid.
  - by intros [= <-].
  - destruct (destructure2 x) as [p|] eqn:E; simpl; [|done].
    destruct (Storage.filterSessions r) as [valid'|]; simpl; [|done].
    specialize (IH _ eq_refl).
    assert (Forall (λ p, ∃ entry, entry ∈ x :: r ∧ destructure2 entry = Some p) valid').
    { eapply Forall_impl; [exact IH|]. intros p' (entry & Hin & Hd).
      exists entry. split; [by right|done]. }
    destruct (Storage.validSession p.1 p.2); intros [= <-]; [|done].
    constructor; [|done]. exists x. split; [left|done].
Qed.

Lemma omap_fmap_pairs {A B C} (f : B → option C) (h : A → B) (l : list A) :
  omap f (map h l) = omap (λ x, f (h x)) l.
Proof. induction l as [|x r IH]; csimpl; [done|]. by rewrite IH. Qed.

Lemma element_pair a props :
  Json.element (VArr [a; VObj props])
  = VArr [Json.element a; Json.roundtrip (VObj props)].
Proof. reflexivity. Qed.

Lemma saved_entries_pairs (m : list (value * Document)) :
  map Json.element (map (λ e, VArr [e.1; Storage.canonical e.2]) m)
  = map (λ p, VArr [p.1; p.2])
      (map (λ e, (Json.element e.1, Json.roundtrip (Storage.canonical e.2))) m).
Proof.
  rewrite !map_map. apply map_ext. intros e. apply element_pair.
Qed.

Section Codec_facts.
Context (coerced_lt : value → Z → option bool).

(** The loaders on a text of the shape that the savers write. *)
Lemma loadDocuments_written entries now ls :
  ls !! Storage.STORAGE_KEYS.documents
  = Some (Json.stringify
            (VObj [ ("version", VNum Storage.STORAGE_VERSION);
                    ("documents", VArr entries);
                    ("timestamp", VNum now) ])) →
  Storage.loadDocuments_try coerced_lt ls
  = (valid ← Storage.rehydrateAll (map Json.element entries);
     Some (Some {| Storage.saved_documents := valid;
                   Storage.documents_timestamp := VNum now |}, ls)).
Proof.
  intros H. unfold Storage.loadDocuments_try, getItem. rewrite H. reflexivity.
Qed.

Lemma loadSessions_written entries a now ls :
  ls !! Storage.STORAGE_KEYS.sessions
  = Some (Json.stringify
            (VObj [ ("version", VNum Storage.STORAGE_VERSION);
                    ("sessions", VArr entries);
                    ("activeSessionId", a);
                    ("timestamp", VNum now) ])) →
  Storage.loadSessions_try coerced_lt ls
  = (valid ← Storage.filterSessions (map Json.element entries);
     Some (Some {| Storage.saved_sessions := valid;
                   Storage.saved_activeSessionId := Json.roundtrip a;
                   Storage.sessions_timestamp := VNum now |}, ls)).
Proof.
  intros H. unfold Storage.loadSessions_try, getItem. rewrite H.
  destruct a; reflexivity.
Qed.

Lemma loadMessages_written items now ls :
  ls !! Storage.STORAGE_KEYS.messages
  = Some (Json.stringify
            (VObj [ ("version", VNum Storage.STORAGE_VERSION);
                    ("sessionMessages", VArr items);
                    ("timestamp", VNum now) ])) →
  Storage.loadMessages_try coerced_lt ls
  = Some (Some {| Storage.saved_sessionMessages := VArr (map Json.element items);
                  Storage.messages_timestamp := VNum now |}, ls).
Proof.
  intros H. unfold Storage.loadMessages_try, getItem. rewrite H. reflexivity.
Qed.

Lemma loadDocuments_saveDocuments m now ls :
  Forall (λ e, truthy (metadata e.2) = true) m →
  Storage.loadDocuments coerced_lt (Storage.saveDocuments m now ls)
  = (Some {| Storage.saved_documents :=
               omap (λ e, Storage.rehydrate (Json.element e.1)
                            (Json.roundtrip (Storage.canonical e.2))) m;
             Storage.documents_timestamp := VNum now |},
     Storage.saveDocuments m now ls).
Proof.
  intros Hm. unfold Storage.saveDocuments. rewrite mapM_canonicalDoc by done.
  unfold Storage.loadDocuments, setItem.
  match goal with |- context [<[?k := ?v]> ls] =>
    pose proof (lookup_insert_eq ls k v) as Hls; revert Hls;
    generalize (<[k := v]> ls)
  end.
  intros ls1 Hls. rewrite (loadDocuments_written _ _ _ Hls). clear Hls.
  rewrite saved_entries_pairs, rehydrateAll_pairs, omap_fmap_pairs. reflexivity.
Qed.

Lemma loadSessions_saveSessions m a now ls :
  Storage.loadSessions coerced_lt (Storage.saveSessions m a now ls)
  = (Some {| Storage.saved_sessions :=
               List.filter (λ p, Storage.validSession p.1 p.2)
                 (map (λ e, (Json.element e.1, reloaded_session e.2)) m);
             Storage.saved_activeSessionId := Json.roundtrip a;
             Storage.sessions_timestamp := VNum now |},
     Storage.saveSessions m a now ls).
Proof.
  unfold Storage.saveSessions, Storage.loadSessions, setItem.
  match goal with |- context [<[?k := ?v]> ls] =>
    pose proof (lookup_insert_eq ls k v) as Hls; revert Hls;
    generalize (<[k := v]> ls)
  end.
  intros ls1 Hls. rewrite (loadSessions_written _ _ _ _ Hls). clear Hls.
  rewrite map_map.
  rewrite (map_ext _ (λ e : value * Session,
             VArr [Json.element e.1; reloaded_session e.2]))
    by (by intros [id s]).
  rewrite <- (map_map (λ e : value * Session, (Json.element e.1, reloaded_session e.2))
              (λ p : value * value, VArr [p.1; p.2])).
  rewrite filterSessions_pairs. reflexivity.
Qed.

Lemma loadMessages_saveMessages items now ls :
  Storage.loadMessages coerced_lt (Storage.saveMessages (VArr items) now ls)
  = (Some {| Storage.saved_sessionMessages := VArr (map Json.element items);
             Storage.messages_timestamp := VNum now |},
     Storage.saveMessages (VArr items) now ls).
Proof.
  unfold Storage.saveMessages, Storage.loadMessages, setItem.
  match goal with |- context [<[?k := ?v]> ls] =>
    pose proof (lookup_insert_eq ls k v) as Hls; revert Hls;
    generalize (<[k := v]> ls)
  end.
  intros ls1 Hls. rewrite (loadMessages_written _ _ _ Hls). reflexivity.
Qed.
End Codec_facts.

(** ** The Document Store *)

Section Document_facts.
Import DocumentStore.
Context (coerced_lt : value → Z → option bool).
Implicit Types (w : world) (d : Document).

Lemma deref_lookup w l d : heap w !! l = Some d → deref w l = d.
Proof. intros H. unfold deref. by apply list_lookup_total_correct. Qed.

Lemma deref_dangling w l : heap w !! l = None → deref w l = inhabitant.
Proof.
  intros H. unfold deref. rewrite list_lookup_total_alt, H. done.
Qed.

Lemma deref_update w l f d :
  heap w !! l = Some d → deref (update l f w) l = f d.
Proof.
  intros H. apply deref_lookup. simpl. by rewrite list_lookup_alter_eq, H.
Qed.

Lemma deref_persist now w l : deref (persist now w) l = deref w l.
Proof. reflexivity. Qed.

(** *** What [parseDocument] does, case by case *)

Lemma parseDocument_unknown docId now w :
  Map_get (VStr docId) (documents w) = None →
  parseDocument docId now w = (Some false, w).
Proof. intros H. unfold parseDocument. by rewrite H. Qed.

Lemma parseDocument_without_file docId now w l :
  Map_get (VStr docId) (documents w) = Some l →
  file (deref w l) = None →
  parseDocument docId now w
  = (Some false,
     persist now (update l (set_state DocumentState.REQUIRES_REUPLOAD) w)).
Proof. intros Hget Hf. unfold parseDocument. by rewrite Hget, Hf. Qed.

Lemma parseDocument_guard docId now w l f :
  Map_get (VStr docId) (documents w) = Some l →
  file (deref w l) = Some f →
  is_str (state (deref w l)) DocumentState.UPLOADED = false →
  parseDocument docId now w = (Some false, w).
Proof. intros Hget Hf Hs. unfold parseDocument. by rewrite Hget, Hf, Hs. Qed.

(** *** The documents that [restore] builds *)

Lemma restored_unfold x :
  restored x =
    if is_str (prop "state" x) DocumentState.PARSED
       || is_str (prop "state" x) DocumentState.PARSING
    then set_state DocumentState.REQUIRES_REUPLOAD (Document_of x)
    else Document_of x.
Proof.
  unfold restored.
  assert (Hf : bool_decide (is_Some (file (Document_of x))) = false).
  { apply bool_decide_eq_false. simpl. by intros [? ?]. }
  rewrite Hf. change (state (Document_of x)) with (prop "state" x).
  destruct (is_str (prop "state" x) DocumentState.PARSED) eqn:E1.
  - reflexivity.
  - cbn [andb orb]. change (state (Document_of x)) with (prop "state" x).
    reflexivity.
Qed.

Lemma restored_file x : file (restored x) = None.
Proof. rewrite restored_unfold. by destruct (_ || _). Qed.

Lemma restored_state x :
  state (restored x) =
    if is_str (prop "state" x) DocumentState.PARSED
       || is_str (prop "state" x) DocumentState.PARSING
    then VStr DocumentState.REQUIRES_REUPLOAD else prop "state" x.
Proof. rewrite restored_unfold. by destruct (_ || _). Qed.

Lemma restored_not_PARSED x :
  is_str (state (restored x)) DocumentState.PARSED = false.
Proof.
  rewrite restored_state.
  destruct (is_str (prop "state" x) DocumentState.PARSED) eqn:E1; [done|].
  by destruct (is_str (prop "state" x) DocumentState.PARSING).
Qed.

Lemma restored_not_PARSING x :
  is_str (state (restored x)) DocumentState.PARSING = false.
Proof.
  rewrite restored_state.
  destruct (is_str (prop "state" x) DocumentState.PARSED) eqn:E1; [done|].
  by destruct (is_str (prop "state" x) DocumentState.PARSING) eqn:E2.
Qed.

Lemma restored_fields x :
  docId (restored x) = prop "docId" x
  ∧ metadata (restored x) = prop "metadata" x
  ∧ parsedArtifactId (restored x) = prop "parsedArtifactId" x
  ∧ parseError (restored x) = prop "parseError" x.
Proof. rewrite restored_unfold. by destruct (_ || _). Qed.

(** *** [restore] entry by entry *)

Lemma fold_restore_heap es w :
  heap (fold_left restore_entry es w) = heap w ++ map (λ e, restored e.2) es.
Proof.
  revert w. induction es as [|e r IH]; intros w; simpl.
  - by rewrite app_nil_r.
  - rewrite IH. simpl. by rewrite <- app_assoc.
Qed.

Lemma fold_restore_awaiting es w :
  awaiting (fold_left restore_entry es w) = awaiting w.
Proof. revert w. induction es as [|e r IH]; intros w; simpl; [done|]. by rewrite IH. Qed.

Lemma fold_restore_storage es w :
  storage (fold_left restore_entry es w) = storage w.
Proof. revert w. induction es as [|e r IH]; intros w; simpl; [done|]. by rewrite IH. Qed.

Lemma Map_set_entry {A} (k k' : value) (a a' : A) m :
  (k', a') ∈ Map_set k a m → (k' = k ∧ a' = a) ∨ (k', a') ∈ m.
Proof.
  induction m as [|[k0 a0] r IH]; simpl.
  - intros [[= -> ->]|[]%elem_of_nil]%elem_of_cons. by left.
  - destruct (same_value_zero k0 k) eqn:E.
    + apply same_value_zero_eq in E as ->.
      intros [[= -> ->]|?]%elem_of_cons; [by left|]. right. by right.
    + intros [[= -> ->]|?]%elem_of_cons; [right; left|].
      destruct IH as [?|?]; auto. right. by right.
Qed.

Lemma fold_restore_documents es w k l :
  (k, l) ∈ documents (fold_left restore_entry es w) →
  (k, l) ∈ documents w
  ∨ ∃ i x, es !! i = Some (k, x) ∧ l = (length (heap w) + i)%nat.
Proof.
  revert w. induction es as [|[k0 x0] r IH]; intros w; simpl; [auto|].
  intros [Hin|(i & x & Hi & ->)]%IH.
  - simpl in Hin. apply Map_set_entry in Hin as [[-> ->]|Hin]; [|auto].
    right. exists 0%nat, x0. split; [done|lia].
  - right. exists (S i), x. split; [done|]. simpl. rewrite length_app. simpl. lia.
Qed.

Lemma Map_get_set_mono {A} (k k' : value) (a : A) m :
  is_Some (Map_get k m) → is_Some (Map_get k (Map_set k' a m)).
Proof.
  intros Hs. destruct (same_value_zero k' k) eqn:E.
  - pose proof E as E'. apply same_value_zero_eq in E' as ->.
    rewrite Map_get_set_eq; [eauto|done].
  - by rewrite Map_get_set_ne.
Qed.

Lemma fold_restore_mono es w k :
  is_Some (Map_get k (documents w)) →
  is_Some (Map_get k (documents (fold_left restore_entry es w))).
Proof.
  revert w. induction es as [|e r IH]; intros w Hs; simpl; [done|].
  apply IH. simpl. by apply Map_get_set_mono.
Qed.

Lemma fold_restore_present es w k x :
  (k, x) ∈ es → same_value_zero k k = true →
  is_Some (Map_get k (documents (fold_left restore_entry es w))).
Proof.
  revert w. induction es as [|e r IH]; intros w Hin Hk; [by apply elem_of_nil in Hin|].
  apply elem_of_cons in Hin as [<-|Hin]; simpl.
  - apply fold_restore_mono. simpl. rewrite Map_get_set_eq; eauto.
  - by apply IH.
Qed.

(** *** What the loader hands to [restore] *)

Lemma loadDocuments_Some ls saved ls' :
  Storage.loadDocuments coerced_lt ls = (Some saved, ls') →
  ls' = ls
  ∧ Forall (λ e, ∃ id doc, Storage.rehydrate id doc = Some e)
      (Storage.saved_documents saved).
Proof.
  unfold Storage.loadDocuments, Storage.loadDocuments_try.
  destruct (getItem Storage.STORAGE_KEYS.documents ls) as [[| |data]|]; simpl;
    try by intros [= ]. 
  destruct (Storage.outdated coerced_lt data) as [[]|]; simpl; try by intros [=].
  destruct (negb (truthy (prop "documents" data))
            || negb (isArray (prop "documents" data))); try by intros [=].
  destruct (prop "documents" data) as [| | | | |items|]; try by intros [=].
  destruct (Storage.rehydrateAll items) as [valid|] eqn:E; simpl; try by intros [=].
  intros [= <- <-]. split; [done|]. simpl. by eapply rehydrateAll_Forall.
Qed.

Lemma restore_unfold w :
  ∃ es ls,
    restore coerced_lt w
    = fold_left restore_entry es
        {| documents := documents w; heap := heap w; awaiting := awaiting w;
           storage := ls |}
    ∧ Forall (λ e, ∃ id doc, Storage.rehydrate id doc = Some e) es.
Proof.
  unfold restore.
  destruct (Storage.loadDocuments coerced_lt (storage w)) as [[saved|] ls] eqn:E.
  - apply loadDocuments_Some in E as [-> Hall]. eauto.
  - exists [], ls. split; [done|constructor].
Qed.
End Document_facts.

(** *** Invariants of the runs of the Document Store *)

Section Document_invariants.
Import DocumentStore DocumentRun.
Context (coerced_lt : value → Z → option bool).
Implicit Types (w : world) (d : Document).

Lemma step_heap_Forall (P : Document → Prop) w o :
  op_preserves P w o → Forall P (heap w) → Forall P (heap (step coerced_lt w o)).
Proof.
  intros Hop Hall. destruct o as [f now|docId f now|docId now|l reply now| |]; simpl in *.
  - apply Forall_app. split; [done|]. by constructor.
  - unfold reuploadDocument. destruct (Map_get _ _) as [l|]; simpl; [|done].
    apply Forall_alter; auto.
  - destruct Hop as [Hnone Hstart].
    unfold parseDocument. destruct (Map_get _ _) as [l|]; simpl; [|done].
    destruct (file (deref w l)) as [f|] eqn:Hf; simpl.
    + destruct (is_str (state (deref w l)) DocumentState.UPLOADED) eqn:Hs; simpl; [|done].
      apply Forall_alter; [done|]. intros d Hl Hd.
      apply deref_lookup in Hl. subst d. apply Hstart; [done|by rewrite Hf|done].
    + apply Forall_alter; [done|]. intros d Hl Hd.
      apply deref_lookup in Hl. subst d. by apply Hnone.
  - case_bool_decide as Hin; [|done]. specialize (Hop Hin).
    unfold parseDocument_resume.
    destruct reply as [result|message]; simpl.
    + destruct (get_prop "documentId" result); simpl; apply Forall_alter; auto.
    + apply Forall_alter; auto.
  - destruct (restore_unfold coerced_lt w) as (es & ls & -> & Hes).
    rewrite fold_restore_heap. simpl. apply Forall_app. split; [done|].
    apply Forall_fmap. eapply Forall_impl; [exact Hes|].
    intros e (id & doc & He). simpl. by eapply Hop.
  - constructor.
Qed.

Lemma doc_ok_preserved w o : op_preserves doc_ok w o.
Proof.
  destruct o as [f now|docId f now|docId now|l reply now| |]; simpl; try done.
  - split; [apply truthy_toString|done].
  - intros d (?&?&?). done.
  - split; intros d (?&?&?); done.
  - intros _. destruct reply as [result|message];
      [destruct (get_prop "documentId" result)|]; intros d (?&?&?); done.
  - intros id doc e (-> & Hid & Hdoc & Hst & Hmeta)%rehydrate_Some. cbn [snd].
    destruct (truthy_prop_object _ _ Hdoc) as [props ->].
    unfold doc_ok.
    destruct (restored_fields (Storage.repair (VObj props))) as (-> & -> & _).
    rewrite restored_state.
    rewrite (repair_other "docId"), (repair_other "metadata") by done.
    split; [done|]. split; [|done].
    destruct (_ || _) eqn:E; [done|].
    unfold Storage.repair.
    destruct (is_str (prop "state" (VObj props)) "PARSED"
              && negb (truthy (prop "parsedArtifactId" (VObj props)))) eqn:E3.
    + own_simpl. simpl. own_simpl. done.
    + destruct (is_str (prop "state" (VObj props)) "PARSING") eqn:E4; [|done].
      own_simpl. done.
Qed.

Lemma map_ok_persist now w : map_ok w → map_ok (persist now w).
Proof. done. Qed.

Lemma map_ok_update l f w : map_ok w → map_ok (update l f w).
Proof.
  intros [Hm Hk]. split; [done|]. simpl. by rewrite length_alter.
Qed.

Lemma map_ok_alloc w k d aw ls :
  truthy k = true → map_ok w →
  map_ok {| documents := Map_set k (length (heap w)) (documents w);
            heap := heap w ++ [d]; awaiting := aw; storage := ls |}.
Proof.
  intros He [Hm Hk]. split; simpl.
  - by apply Map_ok_set.
  - apply Forall_forall. intros [k' l] Hin. simpl.
    rewrite length_app. simpl.
    apply Map_set_entry in Hin as [[-> ->]|Hin]; [split; [done|lia]|].
    rewrite Forall_forall in Hk. destruct (Hk _ Hin). simpl in *. split; [done|lia].
Qed.

Lemma map_ok_restore_entry w e :
  truthy e.1 = true → map_ok w → map_ok (restore_entry w e).
Proof. apply map_ok_alloc. Qed.

Lemma map_ok_fold_restore es w :
  Forall (λ e, truthy e.1 = true) es → map_ok w →
  map_ok (fold_left restore_entry es w).
Proof.
  intros Hes. revert w. induction Hes as [|e r He Hr IH]; intros w Hw; simpl; [done|].
  by apply IH, map_ok_restore_entry.
Qed.

Lemma map_ok_step w o : map_ok w → map_ok (step coerced_lt w o).
Proof.
  intros Hw. destruct o as [f now|docId f now|docId now|l reply now| |]; simpl.
  - apply map_ok_persist, map_ok_alloc; [apply truthy_toString|done].
  - unfold reuploadDocument. destruct (Map_get _ _); simpl; [|done].
    by apply map_ok_persist, map_ok_update.
  - unfold parseDocument. destruct (Map_get _ _) as [l|]; simpl; [|done].
    destruct (file (deref w l)); simpl.
    + destruct (is_str _ _); simpl; [|done].
      by apply (map_ok_persist now (update l _ w)), map_ok_update.
    + by apply map_ok_persist, map_ok_update.
  - case_bool_decide; [|done]. unfold parseDocument_resume.
    destruct reply as [result|message];
      [destruct (get_prop "documentId" result)|]; simpl;
      apply map_ok_persist, map_ok_update; done.
  - destruct (restore_unfold coerced_lt w) as (es & ls & -> & Hes).
    apply map_ok_fold_restore; [|done].
    eapply Forall_impl; [exact Hes|].
    by intros e (id & doc & (-> & ? & _)%rehydrate_Some).
  - split; constructor.
Qed.

Lemma run_app ops1 ops2 w :
  run coerced_lt (ops1 ++ ops2) w = run coerced_lt ops2 (run coerced_lt ops1 w).
Proof. apply fold_left_app. Qed.

(** An invariant of the steps holds after every run. *)
Lemma run_invariant (I : world → Prop) (ok : op → Prop) ops w :
  (∀ w o, ok o → I w → I (step coerced_lt w o)) →
  Forall ok ops → I w → I (run coerced_lt ops w).
Proof.
  intros Hstep Hops. revert w.
  induction Hops as [|o r Ho Hr IH]; intros w Hw; simpl; [done|].
  apply IH, Hstep; done.
Qed.

Lemma run_map_ok ops ls : map_ok (run coerced_lt ops (constructor ls)).
Proof.
  apply (run_invariant map_ok (λ _, True)).
  - intros w o _. apply map_ok_step.
  - by apply Forall_forall.
  - split; constructor.
Qed.

Lemma run_doc_ok ops ls : Forall doc_ok (heap (run coerced_lt ops (constructor ls))).
Proof.
  apply (run_invariant (λ w, Forall doc_ok (heap w)) (λ _, True)).
  - intros w o _. apply step_heap_Forall, doc_ok_preserved.
  - by apply Forall_forall.
  - constructor.
Qed.
End Document_invariants.

Section Document_claims.
Import DocumentStore DocumentRun.
Context (coerced_lt : value → Z → option bool).
Implicit Types (w : world) (d : Document).

Lemma error_middleware_status e : (Backend.error_middleware e).1 ≠ 200.
Proof.
  unfold Backend.error_middleware.
  destruct e as [code m|m]; cbn [Backend.message];
    repeat (match goal with |- context [if ?b then _ else _] => destruct b end);
    cbn [fst]; lia.
Qed.

Lemma backend_sends_documentId result :
  Backend.sends (Result result) →
  ∃ s, s ≠ EmptyString ∧ get_prop "documentId" result = Some (VStr s).
Proof.
  intros (extname & req & timestamp & Hparse). unfold Backend.parse in Hparse.
  destruct (Backend.has_file req && negb (Backend.fileFilter extname req)).
  { pose proof (error_middleware_status (Backend.Error "Unsupported file type")) as H.
    by rewrite Hparse in H. }
  destruct (Backend.has_file req && Backend.exceeds_fileSize req).
  { pose proof (error_middleware_status
                  (Backend.MulterError "LIMIT_FILE_SIZE" "File too large")) as H.
    by rewrite Hparse in H. }
  unfold Backend.parse_handler in Hparse.
  destruct (negb (Backend.has_file req)
            || String.eqb (Backend.documentId req) EmptyString) eqn:E; [done|].
  destruct (negb (Backend.supported req)); [done|].
  destruct (Backend.documentText req) as [text|]; [|done].
  destruct (String.eqb text EmptyString || _); [done|].
  injection Hparse as <-.
  apply orb_false_iff in E as [_ E]. apply String.eqb_neq in E.
  exists (Backend.documentId req). done.
Qed.

(** What the backend sends is a reply that carries an artifact id. *)
Lemma from_backend_carries_artifact o : from_backend o → carries_artifact o.
Proof.
  destruct o as [| | |l [result|message] now| |]; try done. cbn. intros Hb.
  destruct (backend_sends_documentId result Hb) as (s & _ & ->).
  by intros a [= <-].
Qed.

Lemma artifact_ok_preserved w o : carries_artifact o → op_preserves artifact_ok w o.
Proof.
  intros Hb. unfold artifact_ok.
  destruct o as [f now|docId f now|docId now|l reply now| |]; simpl.
  - done.
  - done.
  - split; done.
  - intros _. destruct reply as [result|message]; simpl in Hb.
    + destruct (get_prop "documentId" result) as [a|]; [|done].
      intros d _ _. simpl. by apply Hb.
    + done.
  - intros id doc e _ Hs. by rewrite restored_not_PARSED in Hs.
  - done.
Qed.

Lemma run_artifact_ok ops ls :
  Forall carries_artifact ops →
  Forall artifact_ok (heap (run coerced_lt ops (constructor ls))).
Proof.
  intros Hops.
  apply (run_invariant coerced_lt (λ w, Forall artifact_ok (heap w)) carries_artifact);
    [|done|constructor].
  intros w o Ho. by apply step_heap_Forall, artifact_ok_preserved.
Qed.

(** A property of every object of the heap that also holds of the object
    read through a dangling reference holds of whatever [deref] returns. *)
Lemma deref_Forall (P : Document → Prop) w l :
  Forall P (heap w) → P inhabitant → P (deref w l).
Proof.
  intros Hall Hdef. destruct (heap w !! l) as [d|] eqn:E.
  - rewrite (deref_lookup _ _ _ E). by eapply Forall_lookup_1.
  - by rewrite deref_dangling.
Qed.

Lemma isQueryable_false docId w :
  Forall (λ d, is_str (state d) DocumentState.PARSED = false) (heap w) →
  isQueryable docId w = false.
Proof.
  intros Hall. unfold isQueryable, getDocument.
  destruct (Map_get _ _) as [l|]; simpl; [|done].
  rewrite (deref_Forall (λ d, is_str (state d) DocumentState.PARSED = false)); done.
Qed.

(** *** Saving, loading the page again and restoring *)

Lemma entries_truthy w :
  map_ok w → Forall doc_ok (heap w) →
  Forall (λ e, truthy (metadata e.2) = true) (entries w).
Proof.
  intros [_ Hk] Hd. unfold entries. apply Forall_fmap.
  eapply Forall_impl; [exact Hk|]. intros [k l] [_ Hl]; simpl in *.
  apply lookup_lt_is_Some_2 in Hl as [d Hl].
  rewrite (deref_lookup _ _ _ Hl).
  by destruct (Forall_lookup_1 _ _ _ _ Hd Hl) as (_ & _ & ?).
Qed.

Lemma reload_lookup w now docId l :
  map_ok w → Forall doc_ok (heap w) →
  Map_get (VStr docId) (documents w) = Some l →
  let w' := restore coerced_lt (constructor (storage (persist now w))) in
  ∃ l', Map_get (VStr docId) (documents w') = Some l'
        ∧ heap w' !! l'
          = Some (restored (Storage.repair
                              (Json.roundtrip (Storage.canonical (deref w l))))).
Proof.
  intros Hmap Hdocs Hget w'.
  pose proof (entries_truthy w Hmap Hdocs) as Hmeta.
  destruct Hmap as [Hok Hkeys].
  set (g := λ e : value * Document,
         Storage.rehydrate (Json.element e.1) (Json.roundtrip (Storage.canonical e.2))).
  assert (Hw' : w' = fold_left restore_entry (omap g (entries w))
                       (constructor (storage (persist now w)))).
  { unfold w', restore.
    change (storage (constructor (storage (persist now w))))
      with (Storage.saveDocuments (entries w) now (storage w)).
    rewrite loadDocuments_saveDocuments by done. done. }
  pose proof (Map_get_Some_elem _ _ _ Hget) as Hin.
  (* the entry of the document is valid, hence kept by the loader *)
  assert (Hvalid : ∀ k l0, (k, l0) ∈ documents w →
             g (k, deref w l0)
             = Some (Json.element k,
                     Storage.repair (Json.roundtrip (Storage.canonical (deref w l0))))).
  { intros k l0 Hkl. rewrite Forall_forall in Hkeys.
    destruct (Hkeys _ Hkl) as [Hk Hl0]; simpl in *.
    apply lookup_lt_is_Some_2 in Hl0 as [d Hd].
    rewrite (deref_lookup _ _ _ Hd).
    destruct (Forall_lookup_1 _ _ _ _ Hdocs Hd) as (H1 & H2 & H3).
    unfold g. rewrite rehydrate_repair. simpl fst. simpl snd.
    destruct (canonical_roundtrip_props d) as (-> & -> & -> & _).
    rewrite truthy_element, !truthy_roundtrip, Hk, H1, H2. done. }
  assert (Hes : (VStr docId,
                 Storage.repair (Json.roundtrip (Storage.canonical (deref w l))))
                ∈ omap g (entries w)).
  { apply list_elem_of_omap. exists (VStr docId, deref w l). split.
    - unfold entries. apply list_elem_of_fmap. by exists (VStr docId, l).
    - by rewrite (Hvalid _ _ Hin). }
  destruct (fold_restore_present (omap g (entries w))
              (constructor (storage (persist now w))) _ _ Hes
              (same_value_zero_str docId)) as [l' Hl'].
  rewrite <- Hw' in Hl'. exists l'. split; [done|].
  pose proof (Map_get_Some_elem _ _ _ Hl') as Hin'.
  rewrite Hw' in Hin'. apply fold_restore_documents in Hin' as [Hin'|(i & x & Hi & ->)].
  { by apply elem_of_nil in Hin'. }
  rewrite Hw', fold_restore_heap. simpl.
  rewrite list_lookup_fmap, Hi. simpl. do 2 f_equal.
  apply list_elem_of_lookup_2, list_elem_of_omap in Hi as ([k d] & Hkd & Hg).
  unfold entries in Hkd. apply list_elem_of_fmap in Hkd as ([k0 l0] & [= -> ->] & Hkl).
  rewrite (Hvalid _ _ Hkl) in Hg. injection Hg as Hk <-.
  apply element_str_inv in Hk as ->.
  by rewrite (Map_ok_unique _ _ _ _ Hok Hkl Hin (same_value_zero_str docId)).
Qed.
End Document_claims.

(** *** Worked examples *)

Section Document_theorems.
Import DocumentStore DocumentRun.
Context (coerced_lt : value → Z → option bool).
Implicit Types (w : world) (d : Document).

(** C7, as amended.  For every document whose state is PARSED and whose
    file handle is present, [parseDocument] on its id returns failure and
    changes nothing: the state, the artifact id, the rest of the store and
    the substrate are as before. *)
Theorem parseDocument_PARSED_noop docId now w l :
  Map_get (VStr docId) (documents w) = Some l →
  state (deref w l) = VStr DocumentState.PARSED →
  is_Some (file (deref w l)) →
  parseDocument docId now w = (Some false, w).
Proof.
  intros Hget Hs [f Hf]. eapply parseDocument_guard; [done..|]. by rewrite Hs.
Qed.

(** C2, as amended.  Take any run of the Document Store from a new store,
    over whatever the substrate held, by [addDocument], [reuploadDocument],
    [parseDocument] and its completion, [restore] and page reloads, in which
    every result that completes a parse has a [documentId] that is neither
    [null] nor [undefined].  In the state it reaches, a document of the map
    whose state is PARSED has an artifact id that is neither [null] nor
    [undefined].  Every response of status 200 of the route [POST /parse]
    is such a result. *)
Theorem PARSED_has_artifact ops ls k l :
  Forall carries_artifact ops →
  let w := run coerced_lt ops (constructor ls) in
  ((k, l) ∈ documents w →
   state (deref w l) = VStr DocumentState.PARSED →
   parsedArtifactId (deref w l) ≠ VNull ∧ parsedArtifactId (deref w l) ≠ VUndef)
  ∧ (∀ l0 reply now, Backend.sends reply → carries_artifact (Resume l0 reply now)).
Proof.
  intros Hops w. split.
  - intros _ Hs.
    assert (Hok : artifact_ok (deref w l)).
    { apply deref_Forall; [by apply run_artifact_ok|done]. }
    apply Hok. by rewrite Hs.
  - intros l0 reply now Hb. by apply (from_backend_carries_artifact (Resume l0 reply now)).
Qed.

Lemma canonical_roundtrip_object d :
  ∃ props, Json.roundtrip (Storage.canonical d) = VObj props.
Proof. unfold Storage.canonical. rewrite roundtrip_VObj. eauto. Qed.

Lemma reloaded_PARSING d :
  state d = VStr DocumentState.PARSING →
  let d' := restored (Storage.repair (Json.roundtrip (Storage.canonical d))) in
  state d' = VStr DocumentState.PARSE_FAILED
  ∧ parseError d' = VStr "Parsing interrupted by page reload".
Proof.
  intros Hs d'. unfold d'.
  destruct (canonical_roundtrip_props d) as (_ & Hst & _).
  destruct (canonical_roundtrip_object d) as [props Hobj].
  rewrite Hobj in *. rewrite Hs in Hst.
  destruct (repair_PARSING props) as (H1 & H2 & _); [by rewrite Hst|].
  destruct (restored_fields (Storage.repair (VObj props))) as (_ & _ & _ & ->).
  rewrite restored_state, H1, H2. done.
Qed.

(** C3.  Take any state that the Document Store reaches and a document of
    its map in state PARSING.  After the map is saved, the page loaded
    again and the store restored, the document under the same id has state
    PARSE_FAILED and the parse error of the loader, which is not [null];
    and whatever the substrate holds, no document restored from it is in
    state PARSING. *)
Theorem PARSING_does_not_survive_restore ops ls now docId l :
  let w := run coerced_lt ops (constructor ls) in
  Map_get (VStr docId) (documents w) = Some l →
  state (deref w l) = VStr DocumentState.PARSING →
  let w' := restore coerced_lt (constructor (storage (persist now w))) in
  (∃ l' d', Map_get (VStr docId) (documents w') = Some l'
            ∧ heap w' !! l' = Some d'
            ∧ state d' = VStr DocumentState.PARSE_FAILED
            ∧ parseError d' = VStr "Parsing interrupted by page reload"
            ∧ parseError d' ≠ VNull)
  ∧ (∀ ls0 l0 d0,
       heap (restore coerced_lt (constructor ls0)) !! l0 = Some d0 →
       state d0 ≠ VStr DocumentState.PARSING).
Proof.
  intros w Hget Hs w'. split.
  - destruct (reload_lookup coerced_lt w now docId l) as (l' & Hl' & Hd');
      [apply run_map_ok|apply run_doc_ok|done|].
    destruct (reloaded_PARSING _ Hs) as [H1 H2].
    eexists l', _. repeat split; [done|exact Hd'|done|done|].
    by rewrite H2.
  - intros ls0 l0 d0 Hd0 Hst.
    destruct (restore_unfold coerced_lt (constructor ls0)) as (es & ls1 & Hr & _).
    rewrite Hr, fold_restore_heap in Hd0. simpl in Hd0.
    rewrite list_lookup_fmap in Hd0.
    destruct (es !! l0) as [e|]; [|done]. injection Hd0 as <-.
    pose proof (restored_not_PARSING e.2) as Hn. by rewrite Hst in Hn.
Qed.
End Document_theorems.

Section Document_restore.
Import DocumentStore DocumentRun.
Context (coerced_lt : value → Z → option bool).
Implicit Types (w : world) (d : Document).




Lemma restore_constructor_heap ls :
  ∃ es : list (value * value),
    heap (restore coerced_lt (constructor ls)) = map (λ e, restored e.2) es
        ∧ awaiting (restore coerced_lt (constructor ls)) = [].
Proof.
  destruct (restore_unfold coerced_lt (constructor ls)) as (es & ls1 & -> & _).
  exists es. by rewrite fold_restore_heap, fold_restore_awaiting.
Qed.



End Document_restore.

(** *** The Document Store on the worked examples *)

Lemma ops_parsed_from_backend : Forall DocumentRun.from_backend ops_parsed.
Proof.
  repeat constructor. simpl.
  exists extname_plain, req_report, "2024-01-01T00:00:00.000Z".
  reflexivity.
Qed.

(** C2, the claim as stated fails: a parse that completes with a result
    whose [documentId] is [null] leaves the document PARSED with the
    artifact id [null]; with a result that has no [documentId], PARSED with
    the artifact id [undefined], and queryable. *)
Lemma PARSED_without_artifact :
  let ops reply :=
    [ DocumentRun.AddDocument report_txt (clock 1000);
      DocumentRun.ParseDocument "1000" 1005;
      DocumentRun.Resume 0 (DocumentStore.Result reply) 1010 ] in
  let w1 := DocumentRun.run nan_lt (ops reply_null) (DocumentStore.constructor ∅) in
  let w2 := DocumentRun.run nan_lt (ops reply_bare) (DocumentStore.constructor ∅) in
  (VStr "1000", 0%nat) ∈ DocumentStore.documents w1
  ∧ state (DocumentStore.deref w1 0) = VStr DocumentState.PARSED
  ∧ parsedArtifactId (DocumentStore.deref w1 0) = VNull
  ∧ (VStr "1000", 0%nat) ∈ DocumentStore.documents w2
  ∧ state (DocumentStore.deref w2 0) = VStr DocumentState.PARSED
  ∧ parsedArtifactId (DocumentStore.deref w2 0) = VUndef
  ∧ DocumentStore.isQueryable "1000" w2 = true.
Proof. vm_compute. repeat split; constructor. Qed.

(** C1.  A document left in PARSE_FAILED by a failed parse still has its
    file, yet [parseDocument] on its id refuses: it returns failure and the
    store is as before, the document still PARSE_FAILED. *)
Theorem retry_from_PARSE_FAILED_is_refused :
  state (DocumentStore.deref w_failed 0) = VStr DocumentState.PARSE_FAILED
  ∧ is_Some (file (DocumentStore.deref w_failed 0))
  ∧ DocumentStore.parseDocument "1000" 1020 w_failed = (Some false, w_failed).
Proof.
  split; [by vm_compute|]. split; [vm_compute; eauto|].
  apply (parseDocument_guard "1000" 1020 w_failed 0 report_txt); by vm_compute.
Qed.

(** C7, the claim as stated fails: a PARSED document without its file is
    moved to REQUIRES_REUPLOAD by [parseDocument]. *)
Lemma parseDocument_PARSED_without_file_changes_state :
  state (DocumentStore.deref w_parsed_no_file 0) = VStr DocumentState.PARSED
  ∧ file (DocumentStore.deref w_parsed_no_file 0) = None
  ∧ state (DocumentStore.deref
             (DocumentStore.parseDocument "d1" 5 w_parsed_no_file).2 0)
    = VStr DocumentState.REQUIRES_REUPLOAD
  ∧ state (DocumentStore.deref
             (DocumentStore.parseDocument "d1" 5 w_parsed_no_file).2 0)
    ≠ state (DocumentStore.deref w_parsed_no_file 0).
Proof. vm_compute. repeat split. discriminate. Qed.

Lemma parseDocument_PARSED_noop_witness :
  state (DocumentStore.deref w_parsed 0) = VStr DocumentState.PARSED
  ∧ DocumentStore.parseDocument "1000" 1020 w_parsed = (Some false, w_parsed).
Proof.
  split; [by vm_compute|].
  apply (parseDocument_PARSED_noop "1000" 1020 w_parsed 0);
    [by vm_compute|by vm_compute|vm_compute; eauto].
Defined.


Lemma PARSED_has_artifact_witness :
  parsedArtifactId
    (DocumentStore.deref
       (DocumentRun.run nan_lt ops_parsed (DocumentStore.constructor ∅)) 0) ≠ VNull.
Proof.
  destruct (PARSED_has_artifact nan_lt ops_parsed ∅ (VStr "1000") 0) as [H _].
  - apply Forall_cons; split; [exact I|]. apply Forall_cons; split; [exact I|].
    apply Forall_cons; split; [|apply Forall_nil].
    intros a [= <-]. split; by vm_compute.
    exact I.
  - apply H; [vm_compute; constructor|by vm_compute].
Defined.

Lemma PARSING_does_not_survive_restore_witness :
  ∃ l' d',
    Map_get (VStr "1000")
      (DocumentStore.documents
         (DocumentStore.restore nan_lt
            (DocumentStore.constructor
               (DocumentStore.storage
                  (DocumentStore.persist 1006
                     (DocumentRun.run nan_lt ops_parsing
                        (DocumentStore.constructor ∅))))))) = Some l'
    ∧ DocumentStore.heap
        (DocumentStore.restore nan_lt
           (DocumentStore.constructor
              (DocumentStore.storage
                 (DocumentStore.persist 1006
                    (DocumentRun.run nan_lt ops_parsing
                       (DocumentStore.constructor ∅)))))) !! l' = Some d'
    ∧ state d' = VStr DocumentState.PARSE_FAILED.
Proof.
  destruct (PARSING_does_not_survive_restore nan_lt ops_parsing ∅ 1006 "1000" 0)
    as [(l' & d' & H1 & H2 & H3 & _) _]; [by vm_compute..|].
  exists l', d'. repeat split; assumption.
Defined.


(** ** The Session Store *)

Section Session_facts.
Import SessionStore SessionRun.
Context (coerced_lt : value → Z → option bool).
Implicit Types (w : world) (s : Session).

Lemma Forall_Map_set {A} (P : value * A → Prop) k a (m : list (value * A)) :
  Forall P m → (∀ k', P (k', a)) → Forall P (Map_set k a m).
Proof.
  intros Hm Ha. apply Forall_forall. intros [k' a'] Hin.
  apply Map_set_entry in Hin as [[-> ->]|Hin]; [done|].
  by eapply Forall_forall in Hm.
Qed.

Lemma loadSessions_nothing ls :
  ls !! Storage.STORAGE_KEYS.sessions = None →
  Storage.loadSessions coerced_lt ls = (None, ls).
Proof.
  intros H. unfold Storage.loadSessions, Storage.loadSessions_try, getItem.
  by rewrite H.
Qed.

Lemma reloaded_session_activeDocumentId s :
  activeDocumentId (Session_of (reloaded_session s)) = VUndef.
Proof.
  unfold Session_of, reloaded_session. cbn [activeDocumentId].
  rewrite prop_VObj. apply own_absent, properties_keys.
  cbn [fmap list_fmap fst]. intros Hin.
  repeat (apply elem_of_cons in Hin as [Hin|Hin]; [discriminate|]).
  by apply elem_of_nil in Hin.
Qed.

Lemma fold_Map_set_Forall (P : value * Session → Prop) (es : list (value * value)) m :
  Forall (λ e, ∀ k, P (k, Session_of e.2)) es → Forall P m →
  Forall P (fold_left (λ m entry, Map_set entry.1 (Session_of entry.2) m) es m).
Proof.
  intros Hes. revert m. induction Hes as [|e r He Hr IH]; intros m Hm; simpl; [done|].
  apply IH. by apply Forall_Map_set.
Qed.

Lemma restore_sessions_ok w :
  Forall (λ e, session_ok e.2) (sessions (store w)) →
  sessions_written (storage w) →
  Forall (λ e, session_ok e.2) (sessions (store (restore coerced_lt w)))
  ∧ sessions_written (storage (restore coerced_lt w)).
Proof.
  intros Hs [Hnone|(m & a & now & ls0 & Hw)]; unfold restore.
  - rewrite loadSessions_nothing by done. simpl. split; [done|by left].
  - rewrite Hw, loadSessions_saveSessions. cbn [store storage sessions].
    split; [|right; eauto].
    cbn [Storage.saved_sessions].
    apply fold_Map_set_Forall; [|done].
    apply Forall_forall. intros [id obj] Hin k.
    apply list_elem_of_In, filter_In in Hin as [Hin _].
    apply in_map_iff in Hin as ([k0 s] & [= _ <-] & _).
    right. left. apply reloaded_session_activeDocumentId.
Qed.

Lemma persist_written now w : sessions_written (storage (persist now w)).
Proof. right. unfold persist. simpl. eauto. Qed.

Lemma step_sessions_ok w o :
  Forall (λ e, session_ok e.2) (sessions (store w)) →
  sessions_written (storage w) →
  Forall (λ e, session_ok e.2) (sessions (store (step coerced_lt w o)))
  ∧ sessions_written (storage (step coerced_lt w o)).
Proof.
  intros Hs Hw.
  destruct o as [nm now|sessionId now|sessionId docId now|sessionId docId now| |];
    cbn [step].
  - unfold createSession. cbn [snd]. split; [|apply persist_written].
    cbn [persist store sessions].
    apply Forall_Map_set; [done|]. intros k'. by left.
  - unfold setActiveSession. destruct (Map_has _ _); [|done].
    split; [done|apply persist_written].
  - unfold addDocumentToSession.
    destruct (Map_get _ _) as [s|]; [|done].
    destruct (negb _); [|done].
    split; [|apply persist_written].
    cbn [persist store sessions].
    apply Forall_Map_set; [done|]. intros k'. right. right.
    cbn. apply in_or_app. right. by left.
  - unfold setActiveDocument.
    destruct (Map_get _ _) as [s|]; [|done].
    destruct (includes _ _) eqn:E; [|done].
    split; [|apply persist_written].
    cbn [persist store sessions].
    apply Forall_Map_set; [done|]. intros k'. right. right.
    cbn. by apply includes_In.
  - by apply restore_sessions_ok.
  - split; [constructor|done].
Qed.

Lemma setActiveDocument_not_member sessionId docId now w :
  (∀ session, Map_get (VStr sessionId) (sessions (store w)) = Some session →
              includes (activeDocumentIds session) (VStr docId) = false) →
  setActiveDocument sessionId docId now w = w.
Proof.
  intros H. unfold setActiveDocument.
  destruct (Map_get _ _) as [s|]; [|done]. by rewrite H.
Qed.

Lemma run_sessions_ok ops w :
  Forall (λ e, session_ok e.2) (sessions (store w)) →
  sessions_written (storage w) →
  Forall (λ e, session_ok e.2) (sessions (store (run coerced_lt ops w)))
  ∧ sessions_written (storage (run coerced_lt ops w)).
Proof.
  revert w. induction ops as [|o r IH]; intros w Hs Hw; [done|].
  simpl. destruct (step_sessions_ok w o Hs Hw). by apply IH.
Qed.

(** C6, as amended.  In every state that the Session Store reaches from a
    new store, over a substrate whose entry for the sessions is absent or
    was written by [saveSessions], by [createSession], [setActiveSession],
    [addDocumentToSession], [setActiveDocument], [restore] and page
    reloads, the active document of every session is [null] or [undefined]
    (none is selected) or one of the session's document ids; and
    [setActiveDocument] changes nothing when the session is unknown or
    the id is not among the session's document ids. *)
Theorem activeDocumentId_is_null_or_member ops ls :
  sessions_written ls →
  let w := run coerced_lt ops {| store := constructor; storage := ls |} in
  (∀ k s, (k, s) ∈ sessions (store w) →
     activeDocumentId s = VNull ∨ activeDocumentId s = VUndef
     ∨ In (activeDocumentId s) (activeDocumentIds s))
  ∧ (∀ w' sessionId docId now,
       (∀ session, Map_get (VStr sessionId) (sessions (store w')) = Some session →
                   ¬ In (VStr docId) (activeDocumentIds session)) →
       setActiveDocument sessionId docId now w' = w').
Proof.
  intros Hls w. split.
  2:{ intros w' sessionId docId now Hno. apply setActiveDocument_not_member.
      intros session Hget. apply not_true_is_false. intros Hin%includes_In.
      by apply (Hno session). }
  destruct (run_sessions_ok ops {| store := constructor; storage := ls |})
    as [Hall _]; [constructor|done|].
  intros k s Hin. fold w in Hall. rewrite Forall_forall in Hall.
  exact (Hall _ Hin).
Qed.
End Session_facts.

(** ** Round trips through the codec *)

Section Roundtrip.
Context (coerced_lt : value → Z → option bool).

Lemma properties_json props :
  forallb (λ p, Json.json p.2) props = true → Json.properties props = props.
Proof.
  intros H. pose proof (roundtrip_json (VObj props) H) as Hr.
  rewrite roundtrip_VObj in Hr. by injection Hr.
Qed.

Lemma filter_all {A} (f : A → bool) (l : list A) :
  Forall (λ x, f x = true) l → List.filter f l = l.
Proof. induction 1 as [|x r Hx Hr IH]; simpl; [done|]. by rewrite Hx, IH. Qed.

Lemma wf_session_reloaded e :
  wf_session e = true →
  reloaded_session e.2
  = VObj [ ("sessionId", sessionId e.2); ("name", name e.2);
           ("state", sessionState e.2);
           ("activeDocumentIds", VArr (activeDocumentIds e.2));
           ("createdAt", createdAt e.2) ].
Proof.
  unfold wf_session. rewrite !andb_true_iff.
  intros (((((((((_ & _) & _) & H1) & _) & H2) & _) & H3) & H4) & H5).
  unfold reloaded_session. rewrite properties_json; [done|].
  cbn [forallb snd Json.json]. by rewrite H1, H2, H3, H4, H5.
Qed.

Lemma session_roundtrip m a now ls :
  Forall (λ e, wf_session e = true) m → Json.json a = true →
  ∃ saved,
    Storage.loadSessions coerced_lt (Storage.saveSessions m a now ls)
    = (Some saved, Storage.saveSessions m a now ls)
    ∧ Storage.saved_activeSessionId saved = a
    ∧ Forall2 same_session m (Storage.saved_sessions saved).
Proof.
  intros Hm Ha. rewrite loadSessions_saveSessions. eexists. split; [done|].
  cbn [Storage.saved_activeSessionId Storage.saved_sessions].
  split; [by apply roundtrip_json|].
  rewrite filter_all.
  - apply Forall2_fmap_r, Forall_Forall2_diag.
    eapply Forall_impl; [exact Hm|]. intros e He. cbv beta in He.
    unfold same_session, compose. cbn [fst snd]. rewrite (wf_session_reloaded e He).
    unfold wf_session in He. rewrite !andb_true_iff in He.
    destruct He as (((((((((_ & Hj) & _) & _) & _) & _) & _) & _) & Hids) & _).
    split; [by apply element_json|].
    repeat split.
  - apply Forall_fmap. eapply Forall_impl; [exact Hm|]. intros e He. cbv beta in He.
    unfold compose. cbn [fst snd]. rewrite (wf_session_reloaded e He).
    unfold wf_session in He. rewrite !andb_true_iff in He.
    destruct He as (((((((((H0 & _) & H1) & _) & H2) & _) & H3) & _) & _) & _).
    unfold Storage.validSession. rewrite truthy_element, H0.
    cbn. by rewrite H1, H2, H3.
Qed.

Lemma is_metadata_inv v :
  is_metadata v = true →
  ∃ n sz ty up,
    v = VObj [("name", n); ("size", sz); ("type", ty); ("uploadedAt", up)]
    ∧ Json.json v = true.
Proof.
  destruct v as [| | | | | |props]; try done.
  destruct props as [|[k1 n] [|[k2 sz] [|[k3 ty] [|[k4 up] [|? ?]]]]]; try done.
  cbn [is_metadata]. rewrite !andb_true_iff, !String.eqb_eq.
  intros (((((((-> & ->) & ->) & ->) & H1) & H2) & H3) & H4).
  exists n, sz, ty, up. split; [done|]. cbn. by rewrite H1, H2, H3, H4.
Qed.

Lemma wf_document_canonical e :
  wf_document e = true →
  Json.roundtrip (Storage.canonical e.2) = plain_document e.2.
Proof.
  unfold wf_document. rewrite !andb_true_iff.
  intros (((((((((_ & _) & _) & H1) & _) & H2) & Hm) & H3) & H4) & _).
  destruct (is_metadata_inv _ Hm) as (n & sz & ty & up & Heq & Hj).
  assert (Hc : Storage.canonical e.2 = plain_document e.2).
  { unfold Storage.canonical, plain_document. rewrite Heq. reflexivity. }
  rewrite Hc. apply roundtrip_json.
  unfold plain_document. cbn [Json.json forallb snd].
  by rewrite H1, H2, H3, H4, Hj.
Qed.

Lemma wf_document_reloaded e :
  wf_document e = true →
  ∃ obj, Storage.rehydrate (Json.element e.1) (Json.roundtrip (Storage.canonical e.2))
         = Some (e.1, obj)
         ∧ same_document e (e.1, obj).
Proof.
  intros He. rewrite (wf_document_canonical e He).
  unfold wf_document in He. rewrite !andb_true_iff in He.
  destruct He as (((((((((H0 & Hj0) & H1) & _) & H2) & _) & Hm) & _) & _) & Hart).
  destruct (is_metadata_inv _ Hm) as (n & sz & ty & up & Heq & _).
  rewrite (element_json _ Hj0).
  exists (Storage.repair (plain_document e.2)). split.
  - rewrite rehydrate_repair. unfold plain_document at 1 2 3 4.
    cbn [truthy prop get_prop default from_option own String.eqb Ascii.eqb Bool.eqb
         negb orb id].
    rewrite H0, H1, H2, Heq. reflexivity.
  - unfold same_document, DocumentStore.Document_of. cbn [fst snd docId metadata
      parsedArtifactId file state parseError].
    split; [done|].
    rewrite (repair_other "docId"), (repair_other "metadata") by done.
    do 2 (split; [reflexivity|]).
    destruct (is_str (state e.2) DocumentState.PARSING) eqn:E.
    + destruct (repair_PARSING
                  [("docId", docId e.2); ("state", state e.2);
                   ("metadata", metadata e.2);
                   ("parsedArtifactId", parsedArtifactId e.2);
                   ("parseError", parseError e.2)]) as (R1 & R2 & R3); [exact E|].
      fold (plain_document e.2) in R1, R2, R3. rewrite R1, R2, R3. done.
    + rewrite repair_id; [done|exact E|].
      intros Hp. change (prop "state" (plain_document e.2)) with (state e.2) in Hp.
      change (prop "parsedArtifactId" (plain_document e.2))
        with (parsedArtifactId e.2).
      unfold DocumentState.PARSED in Hart. rewrite Hp in Hart. exact Hart.
Qed.

Lemma document_roundtrip m now ls :
  Forall (λ e, wf_document e = true) m →
  ∃ saved,
    Storage.loadDocuments coerced_lt (Storage.saveDocuments m now ls)
    = (Some saved, Storage.saveDocuments m now ls)
    ∧ Forall2 same_document m (Storage.saved_documents saved).
Proof.
  intros Hm. rewrite loadDocuments_saveDocuments.
  2:{ eapply Forall_impl; [exact Hm|]. intros e He. cbv beta in He.
      unfold wf_document in He. rewrite !andb_true_iff in He.
      destruct He as ((((_ & Hmeta) & _) & _) & _).
      by destruct (is_metadata_inv _ Hmeta) as (? & ? & ? & ? & -> & _). }
  eexists. split; [done|]. cbn [Storage.saved_documents].
  induction Hm as [|e r He Hr IH]; [constructor|].
  destruct (wf_document_reloaded e He) as (obj & Hre & Hsame).
  cbn [omap list_omap]. rewrite Hre. by constructor.
Qed.

Lemma message_roundtrip items now ls :
  forallb Json.json items = true →
  Storage.loadMessages coerced_lt (Storage.saveMessages (VArr items) now ls)
  = (Some {| Storage.saved_sessionMessages := VArr items;
             Storage.messages_timestamp := VNum now |},
     Storage.saveMessages (VArr items) now ls).
Proof.
  intros Hj. rewrite loadMessages_saveMessages. by rewrite map_element_json.
Qed.

(** C4, as amended.  For well-formed snapshots, what the codec loads after
    it saved is: for the sessions, the active session id and, for every
    session, its key, id, name, state, document ids and creation time; for
    the documents, for every document, its key, id, metadata and artifact
    id, with no file, and its state and parse error, except that a
    document saved in PARSING is loaded as PARSE_FAILED with the error of
    the loader; for the chat, the logs as they were saved. *)
Theorem save_then_load (now : Z) (ls : localStorage) :
  (∀ m a,
     Forall (λ e, wf_session e = true) m → Json.json a = true →
     ∃ saved,
       Storage.loadSessions coerced_lt (Storage.saveSessions m a now ls)
       = (Some saved, Storage.saveSessions m a now ls)
       ∧ Storage.saved_activeSessionId saved = a
       ∧ Forall2 same_session m (Storage.saved_sessions saved))
  ∧ (∀ m,
       Forall (λ e, wf_document e = true) m →
       ∃ saved,
         Storage.loadDocuments coerced_lt (Storage.saveDocuments m now ls)
         = (Some saved, Storage.saveDocuments m now ls)
         ∧ Forall2 same_document m (Storage.saved_documents saved))
  ∧ (∀ items,
       forallb Json.json items = true →
       ∃ saved,
         Storage.loadMessages coerced_lt (Storage.saveMessages (VArr items) now ls)
         = (Some saved, Storage.saveMessages (VArr items) now ls)
         ∧ Storage.saved_sessionMessages saved = VArr items).
Proof.
  split; [|split].
  - intros m a. apply session_roundtrip.
  - intros m. apply document_roundtrip.
  - intros items Hj. rewrite message_roundtrip by done. eauto.
Qed.
End Roundtrip.

(** ** The Chat Store *)

Section Chat_facts.
Import ChatStore ChatRun.
Implicit Types (w : ChatStore.world) (st : state) (h : list cell).

Lemma elements_alloc h elems : elements (h ++ [Arr elems]) (length h) = elems.
Proof. unfold elements. by rewrite list_lookup_middle. Qed.

Lemma elements_lookup h a elems : h !! a = Some (Arr elems) → elements h a = elems.
Proof. intros H. unfold elements. by rewrite H. Qed.

Lemma object_at_lookup h x v : h !! x = Some (Obj v) → object_at h x = v.
Proof. intros H. unfold object_at. by rewrite H. Qed.

Lemma items_lookup h a elems :
  h !! a = Some (Arr elems) → items h a = map (object_at h) elems.
Proof. intros H. unfold items. by rewrite (elements_lookup _ _ _ H). Qed.

Lemma map_object_at h h' elems :
  Forall (λ x, ∃ v, h !! x = Some (Obj v)) elems →
  (∀ x v, h !! x = Some (Obj v) → h' !! x = Some (Obj v)) →
  map (object_at h') elems = map (object_at h) elems
  ∧ Forall (λ x, ∃ v, h' !! x = Some (Obj v)) elems.
Proof.
  intros Hel Hh. split.
  - apply map_ext_Forall. eapply Forall_impl; [exact Hel|].
    intros x [v Hx]. cbv beta.
    by rewrite (object_at_lookup _ _ _ Hx), (object_at_lookup _ _ _ (Hh _ _ Hx)).
  - eapply Forall_impl; [exact Hel|]. intros x [v Hx]. eauto.
Qed.

Lemma frame_objects h h' held x v :
  frame h h' held → h !! x = Some (Obj v) → h' !! x = Some (Obj v).
Proof. intros Hf Hx. by destruct (Hf _ _ Hx) as [(_ & e & [=])|]. Qed.

Lemma array_ok_frame h h' held held' a :
  frame h h' held → array_ok h held a → a ∉ held' →
  array_ok h' held' a ∧ items h' a = items h a.
Proof.
  intros Hf (Hnh & elems & Ha & Hel) Hnh'.
  assert (Ha' : h' !! a = Some (Arr elems)).
  { by destruct (Hf _ _ Ha) as [[? _]|]. }
  destruct (map_object_at h h' elems Hel) as [Hmap Hel'].
  { intros x v. by apply (frame_objects h h' held). }
  split.
  - split; [done|]. eauto.
  - by rewrite (items_lookup _ _ _ Ha), (items_lookup _ _ _ Ha').
Qed.

Lemma value_at_array h a elems :
  h !! a = Some (Arr elems) → value_at h a = VArr (items h a).
Proof. intros H. unfold value_at. by rewrite H. Qed.

(** The logs of the store being arrays, [getMessages] copies the array of
    the session and [addMessage] appends to it. *)
Lemma getMessages_arrays st sessionId :
  chat_ok st →
  getMessages sessionId (world st)
  = Some (new_array
            (if truthy (VStr sessionId) then
               match Map_get (VStr sessionId) (sessionMessages (world st)) with
               | Some a => elements (heap (world st)) a
               | None => []
               end
             else []) (world st)).
Proof.
  intros [Harr _ _]. unfold getMessages.
  destruct (truthy (VStr sessionId)); cbn [negb]; [|done].
  destruct (Map_get _ _) as [a|] eqn:E; [|done].
  apply Map_get_Some_elem in E. destruct (Harr _ _ E) as (_ & elems & Ha & _).
  by rewrite Ha.
Qed.


(** A step of a caller: the store's map is as before and the heap is
    framed. *)
Lemma chat_ok_frame st st' :
  chat_ok st →
  sessionMessages (world st') = sessionMessages (world st) →
  frame (heap (world st)) (heap (world st')) (held st) →
  (∀ r, r ∈ held st' →
        ∃ elems, heap (world st') !! r = Some (Arr elems)) →
  (∀ a elems, heap (world st) !! a = Some (Arr elems) → a ∉ held st →
              a ∉ held st') →
  chat_ok st' ∧ ∀ sessionId, log (world st') sessionId = log (world st) sessionId.
Proof.
  intros [Harr Hdis Hheld] HsM Hf Hheld' Hnew.
  assert (Hall : ∀ k a, (k, a) ∈ sessionMessages (world st) →
            array_ok (heap (world st')) (held st') a
            ∧ items (heap (world st')) a = items (heap (world st)) a).
  { intros k a Hin. pose proof (Harr _ _ Hin) as Hok.
    apply (array_ok_frame _ _ (held st)); [done|done|].
    destruct Hok as (Hnh & elems & Ha & _). by eapply Hnew. }
  split.
  - split; rewrite ?HsM; [|done|done].
    intros k a Hin. by destruct (Hall _ _ Hin).
  - intros sessionId. unfold log. rewrite HsM.
    destruct (truthy _); [|done].
    destruct (Map_get _ _) as [a|] eqn:E; [|done].
    apply Map_get_Some_elem in E. by destruct (Hall _ _ E).
Qed.
End Chat_facts.

Section Chat_steps.
Import ChatStore ChatRun.
Implicit Types (w : ChatStore.world) (st : state) (h : list cell).

Lemma truthy_str_ne s1 s2 :
  s1 ≠ s2 → same_value_zero (VStr s1) (VStr s2) = false.
Proof. intros Hne. simpl. by apply String.eqb_neq. Qed.

(** [addMessage] on a session that has a log. *)
Lemma addMessage_existing st s role content evidence now a :
  chat_ok st → truthy (VStr s) = true →
  Map_get (VStr s) (sessionMessages (world st)) = Some a →
  let st' := step st (AddMessage s role content evidence now) in
  chat_ok st'
  ∧ ∀ sessionId,
      log (world st') sessionId
      = log (world st) sessionId
        ++ (if String.eqb s sessionId then [message role content evidence now] else []).
Proof.
  intros Hok Hs Hget st'.
  pose proof (Map_get_Some_elem _ _ _ Hget) as Hin.
  destruct Hok as [Harr Hdis Hheld].
  destruct (Harr _ _ Hin) as (Hnh & elems & Ha & Hel).
  set (h := heap (world st)) in *.
  set (msg := message role content evidence now).
  set (h1 := h ++ [Obj msg]).
  set (h2 := <[a := Arr (elems ++ [length h])]> h1).
  assert (Hlt : (a < length h)%nat) by (by eapply lookup_lt_Some).
  assert (Hst' : sessionMessages (world st') = sessionMessages (world st)
                 ∧ heap (world st') = h2 ∧ held st' = held st).
  { assert (Ha1 : h1 !! a = Some (Arr elems)).
    { unfold h1. by apply lookup_app_l_Some. }
    unfold st', step, addMessage. rewrite Hs, Hget. cbn [negb].
    change (heap (world st) ++ [Obj _]) with h1. rewrite Ha1.
    cbn [snd world held persist sessionMessages heap].
    split; [done|split; [|done]].
    change (<[a := Arr (elements h1 a ++ [length h])]> h1 = h2).
    by rewrite (elements_lookup _ _ _ Ha1). }
  destruct Hst' as (HsM & Hh & Hhd).
  assert (Hobj : ∀ x v, h !! x = Some (Obj v) → h2 !! x = Some (Obj v)).
  { intros x v Hx. unfold h2, h1.
    rewrite list_lookup_insert_ne by (intros ->; congruence).
    by apply lookup_app_l_Some. }
  assert (Hmsg : h2 !! length h = Some (Obj msg)).
  { unfold h2, h1. rewrite list_lookup_insert_ne by lia.
    by rewrite list_lookup_middle. }
  assert (Ha2 : h2 !! a = Some (Arr (elems ++ [length h]))).
  { unfold h2, h1. apply list_lookup_insert_eq. rewrite length_app. simpl. lia. }
  assert (Hother : ∀ a' elems', a' ≠ a → h !! a' = Some (Arr elems') →
                                h2 !! a' = Some (Arr elems')).
  { intros a' elems' Hne Ha'. unfold h2, h1.
    rewrite list_lookup_insert_ne by done. by apply lookup_app_l_Some. }
  assert (Hitems : items h2 a = items h a ++ [msg]).
  { rewrite (items_lookup _ _ _ Ha2), (items_lookup _ _ _ Ha), map_app.
    destruct (map_object_at h h2 elems Hel Hobj) as [-> _].
    simpl. by rewrite (object_at_lookup _ _ _ Hmsg). }
  split.
  - split; rewrite ?HsM, ?Hh, ?Hhd.
    + intros k a' Hin'. destruct (Harr _ _ Hin') as (Hnh' & elems' & Ha' & Hel').
      split; [done|].
      destruct (decide (a' = a)) as [->|Hne].
      * exists (elems ++ [length h]). split; [done|].
        apply Forall_app. split.
        -- by destruct (map_object_at h h2 elems Hel Hobj).
        -- repeat constructor. eauto.
      * exists elems'. split; [by apply Hother|].
        by destruct (map_object_at h h2 elems' Hel' Hobj).
    + done.
    + intros r Hr. destruct (Hheld _ Hr) as [e He].
      exists e. apply Hother; [|done]. intros ->. done.
  - intros sessionId. unfold log. rewrite HsM, Hh. fold h.
    destruct (truthy (VStr sessionId)) eqn:Ht.
    2:{ destruct (String.eqb_spec s sessionId) as [->|]; [congruence|done]. }
    destruct (String.eqb_spec s sessionId) as [<-|Hne].
    + by rewrite Hget.
    + destruct (Map_get (VStr sessionId) _) as [a'|] eqn:E; [|done].
      rewrite app_nil_r. apply Map_get_Some_elem in E.
      destruct (Harr _ _ E) as (_ & elems' & Ha' & Hel').
      assert (a' ≠ a).
      { intros ->. pose proof (Hdis _ _ _ E Hin) as [=]. congruence. }
      rewrite (items_lookup _ _ _ Ha'), (items_lookup _ _ _ (Hother _ _ H Ha')).
      by destruct (map_object_at h h2 elems' Hel' Hobj).
Qed.

(** [addMessage] on a session that has no log yet. *)
Lemma addMessage_new st s role content evidence now :
  chat_ok st → truthy (VStr s) = true →
  Map_get (VStr s) (sessionMessages (world st)) = None →
  let st' := step st (AddMessage s role content evidence now) in
  chat_ok st'
  ∧ ∀ sessionId,
      log (world st') sessionId
      = log (world st) sessionId
        ++ (if String.eqb s sessionId then [message role content evidence now] else []).
Proof.
  intros Hok Hs Hget st'.
  destruct Hok as [Harr Hdis Hheld].
  set (h := heap (world st)) in *.
  set (msg := message role content evidence now).
  set (h1 := h ++ [Obj msg]).
  set (a := length h1).
  set (h2 := h1 ++ [Arr []]).
  set (h3 := <[a := Arr [length h]]> h2).
  assert (Ha : a = S (length h)).
  { unfold a, h1. rewrite length_app. simpl. lia. }
  assert (Hst' : sessionMessages (world st')
                 = Map_set (VStr s) a (sessionMessages (world st))
                 ∧ heap (world st') = h3 ∧ held st' = held st).
  { assert (Ha2 : h2 !! a = Some (Arr [])).
    { unfold h2, a. by apply list_lookup_middle. }
    unfold st', step, addMessage. rewrite Hs, Hget. cbn [negb].
    change (heap (world st) ++ [Obj _]) with h1.
    change (h1 ++ [Arr []]) with h2. change (length h1) with a. rewrite Ha2.
    cbn [snd world held persist sessionMessages heap].
    split; [done|split; [|done]].
    change (<[a := Arr (elements h2 a ++ [length h])]> h2 = h3).
    unfold h2, a. by rewrite elements_alloc. }
  destruct Hst' as (HsM & Hh & Hhd).
  assert (Hkeep : ∀ x c, h !! x = Some c → h3 !! x = Some c).
  { intros x c Hx. pose proof (lookup_lt_Some _ _ _ Hx).
    unfold h3, h2, h1. rewrite list_lookup_insert_ne by lia.
    by apply lookup_app_l_Some, lookup_app_l_Some. }
  assert (Hmsg : h3 !! length h = Some (Obj msg)).
  { unfold h3, h2, h1. rewrite list_lookup_insert_ne by lia.
    apply lookup_app_l_Some. by rewrite list_lookup_middle. }
  assert (Ha3 : h3 !! a = Some (Arr [length h])).
  { unfold h3, h2. apply list_lookup_insert_eq. rewrite length_app. simpl.
    fold a. lia. }
  assert (Hold : ∀ k a', (k, a') ∈ sessionMessages (world st) →
             a' ≠ a ∧ array_ok h3 (held st) a' ∧ items h3 a' = items h a').
  { intros k a' Hin. destruct (Harr _ _ Hin) as (Hnh & elems & Ha' & Hel).
    pose proof (lookup_lt_Some _ _ _ Ha').
    destruct (map_object_at h h3 elems Hel) as [Hmap Hel'].
    { intros x v. apply Hkeep. }
    split; [lia|]. split.
    - split; [done|]. exists elems. split; [by apply Hkeep|done].
    - by rewrite (items_lookup _ _ _ Ha'), (items_lookup _ _ _ (Hkeep _ _ Ha')). }
  split.
  - split; rewrite ?HsM, ?Hh, ?Hhd.
    + intros k a' [[-> ->]|Hin]%Map_set_entry.
      * split.
        -- intros Hr. destruct (Hheld _ Hr) as [e He].
           apply lookup_lt_Some in He. fold h in He. lia.
        -- exists [length h]. split; [done|]. repeat constructor. eauto.
      * by destruct (Hold _ _ Hin) as (_ & ? & _).
    + intros k1 k2 a' [[-> ->]|Hin1]%Map_set_entry [[-> Heq]|Hin2]%Map_set_entry.
      * done.
      * by destruct (Hold _ _ Hin2).
      * by destruct (Hold _ _ Hin1).
      * by eapply Hdis.
    + intros r Hr. destruct (Hheld _ Hr) as [e He]. eauto.
  - intros sessionId. unfold log. rewrite HsM, Hh. fold h.
    destruct (truthy (VStr sessionId)) eqn:Ht.
    2:{ destruct (String.eqb_spec s sessionId) as [->|]; [congruence|done]. }
    destruct (String.eqb_spec s sessionId) as [<-|Hne].
    + rewrite Map_get_set_eq by apply same_value_zero_str.
      rewrite Hget. rewrite (items_lookup _ _ _ Ha3). simpl.
      by rewrite (object_at_lookup _ _ _ Hmsg).
    + rewrite Map_get_set_ne by (by apply truthy_str_ne).
      destruct (Map_get (VStr sessionId) _) as [a'|] eqn:E; [|done].
      rewrite app_nil_r. apply Map_get_Some_elem in E.
      by destruct (Hold _ _ E) as (_ & _ & ?).
Qed.

Lemma step_chat_ok st o :
  chat_ok st →
  chat_ok (step st o)
  ∧ ∀ sessionId,
      log (world (step st o)) sessionId
      = log (world st) sessionId ++ history [o] sessionId.
Proof.
  intros Hok.
  destruct o as [s role content evidence now|s|r elems|b].
  - cbn [history]. destruct (truthy (VStr s)) eqn:Hs.
    + cbn [andb].
      destruct (Map_get (VStr s) (sessionMessages (world st))) as [a|] eqn:E.
      * destruct (addMessage_existing st s role content evidence now a Hok Hs E)
          as [H1 H2].
        split; [done|]. intros sessionId. rewrite H2.
        by destruct (String.eqb s sessionId).
      * destruct (addMessage_new st s role content evidence now Hok Hs E)
          as [H1 H2].
        split; [done|]. intros sessionId. rewrite H2.
        by destruct (String.eqb s sessionId).
    + cbn [andb].
      assert (Hst : step st (AddMessage s role content evidence now) = st).
      { unfold step, addMessage. rewrite Hs. by destruct st. }
      rewrite Hst. split; [done|]. intros. by rewrite app_nil_r.
  - cbn [history]. setoid_rewrite app_nil_r.
    unfold step. rewrite (getMessages_arrays st s Hok). unfold new_array.
    apply chat_ok_frame; [done|done|..].
    + intros x c Hx. right. cbn. by apply lookup_app_l_Some.
    + cbn. intros r [->|Hr]%elem_of_cons.
      * rewrite list_lookup_middle by done. eauto.
      * destruct Hok as [_ _ Hheld]. destruct (Hheld _ Hr) as [e He].
        exists e. by apply lookup_app_l_Some.
    + cbn. intros a elems Ha Hnh [->|?]%elem_of_cons; [|done].
      apply lookup_lt_Some in Ha. lia.
  - cbn [history]. setoid_rewrite app_nil_r.
    unfold step. case_bool_decide as Hr; [|split; [done|done]].
    destruct Hok as [Harr Hdis Hheld]. destruct (Hheld _ Hr) as [e He].
    apply chat_ok_frame; [by split|done|..].
    + intros x c Hx. cbn. rewrite He.
      destruct (decide (x = r)) as [->|Hne].
      * left. split; [done|]. exists e. congruence.
      * right. by rewrite list_lookup_insert_ne.
    + cbn. rewrite He. intros r' Hr'.
      destruct (decide (r' = r)) as [->|Hne].
      * exists elems. apply list_lookup_insert_eq. by eapply lookup_lt_Some.
      * rewrite list_lookup_insert_ne by done. by apply Hheld.
    + cbn. done.
  - cbn [history]. setoid_rewrite app_nil_r.
    apply chat_ok_frame; [done|done|..].
    + intros x c Hx. by right.
    + destruct Hok as [_ _ Hheld]. exact Hheld.
    + done.
Qed.

Lemma history_app ops1 ops2 sessionId :
  history (ops1 ++ ops2) sessionId = history ops1 sessionId ++ history ops2 sessionId.
Proof.
  induction ops1 as [|o r IH]; [done|].
  destruct o; simpl; rewrite ?IH; try done.
  by destruct (_ && _).
Qed.

Lemma run_chat_ok ops st :
  chat_ok st →
  chat_ok (run ops st)
  ∧ ∀ sessionId,
      log (world (run ops st)) sessionId
      = log (world st) sessionId ++ history ops sessionId.
Proof.
  revert st. induction ops as [|o r IH]; intros st Hok.
  - split; [done|]. intros. by rewrite app_nil_r.
  - destruct (step_chat_ok st o Hok) as [Hok' Hlog].
    destruct (IH _ Hok') as [Hok'' Hlog'].
    split; [done|]. intros sessionId.
    change (run (o :: r) st) with (run r (step st o)).
    rewrite Hlog', Hlog, <- app_assoc.
    by rewrite (history_app [o] r).
Qed.

Lemma initial_chat_ok ls : chat_ok (initial ls).
Proof. split; cbn; intros *; by intros ?%elem_of_nil. Qed.

End Chat_steps.

(** ** The loaders on data they must reject *)

Section Loaders.
Context (coerced_lt : value → Z → option bool).

Lemma outdated_falsy data :
  data ≠ VNull → data ≠ VUndef → truthy (prop "version" data) = false →
  Storage.outdated coerced_lt data = Some true.
Proof.
  intros Hnull Hundef. unfold prop, Storage.outdated.
  destruct (get_prop "version" data) as [v|] eqn:E; [|by destruct data].
  cbn. by intros ->.
Qed.

Lemma outdated_older data n :
  prop "version" data = VNum n → n < Storage.STORAGE_VERSION →
  Storage.outdated coerced_lt data = Some true.
Proof.
  unfold prop, Storage.outdated.
  destruct (get_prop "version" data) as [v|]; [|done]. cbn. intros -> Hn. cbn.
  destruct (Z.eqb_spec n 0); cbn; [done|].
  f_equal. by apply Z.ltb_lt.
Qed.

(** C10, as amended.  Each of the three loaders returns [null] and leaves
    the substrate alone when nothing is stored under its key, when the
    stored string is empty, when it is not JSON and when it is the JSON
    text of [null]; returns [null] and removes the entry, leaving the
    others, when the stored value is not [null] and its version tag is
    absent or otherwise falsy, or a number below the current version; and
    returns [null], the substrate as it was, whenever its [try] block
    throws, so that no exception reaches the caller. *)
Theorem loaders_reject :
  rejects Storage.STORAGE_KEYS.sessions (Storage.loadSessions_try coerced_lt)
    (Storage.loadSessions coerced_lt)
  ∧ rejects Storage.STORAGE_KEYS.documents (Storage.loadDocuments_try coerced_lt)
      (Storage.loadDocuments coerced_lt)
  ∧ rejects Storage.STORAGE_KEYS.messages (Storage.loadMessages_try coerced_lt)
      (Storage.loadMessages coerced_lt).
Proof.
  unfold rejects, Storage.loadSessions, Storage.loadDocuments, Storage.loadMessages,
    Storage.loadSessions_try, Storage.loadDocuments_try, Storage.loadMessages_try,
    Storage.clearSessions, Storage.clearDocuments, Storage.clearMessages,
    getItem.
  repeat split.
  all: try (intros ls H; by rewrite H).
  all: try (intros ls data H Hnull Hundef Hv; rewrite H;
            cbn [Json.parse mbind option_bind];
            by rewrite (outdated_falsy data Hnull Hundef Hv)).
  all: try (intros ls data n H Hv Hn; rewrite H; cbn [Json.parse mbind option_bind];
            by rewrite (outdated_older data n Hv Hn)).
Qed.
End Loaders.

(** ** The codec and the other stores on worked examples *)

(** C4, the claim as stated fails: a session saved with an active document
    is loaded without it, and a document saved in PARSING is loaded as
    PARSE_FAILED with a parse error it did not have. *)
Lemma save_then_load_changes_fields :
  wf_session (VStr "s1", session_work) = true
  ∧ activeDocumentId session_work = VStr "d1"
  ∧ map (λ e, activeDocumentId (SessionStore.Session_of e.2))
      (loaded_sessions
         (Storage.saveSessions [(VStr "s1", session_work)] (VStr "s1") 2 ∅))
    = [VUndef]
  ∧ wf_document (VStr "d1", doc_parsing) = true
  ∧ (state doc_parsing, parseError doc_parsing) = (VStr "PARSING", VNull)
  ∧ map (λ e, (state (DocumentStore.Document_of e.2),
               parseError (DocumentStore.Document_of e.2)))
      (loaded_documents (Storage.saveDocuments [(VStr "d1", doc_parsing)] 2 ∅))
    = [(VStr "PARSE_FAILED", VStr "Parsing interrupted by page reload")].
Proof. vm_compute. repeat split. Qed.

Lemma save_then_load_witness :
  ∃ saved,
    Storage.loadSessions nan_lt
      (Storage.saveSessions [(VStr "s1", session_work)] (VStr "s1") 2 ∅)
    = (Some saved, Storage.saveSessions [(VStr "s1", session_work)] (VStr "s1") 2 ∅)
    ∧ Storage.saved_activeSessionId saved = VStr "s1"
    ∧ Forall2 same_session [(VStr "s1", session_work)] (Storage.saved_sessions saved).
Proof.
  apply (proj1 (save_then_load nan_lt 2 ∅)).
  - repeat constructor.
  - reflexivity.
Defined.

(** C6, the claim as stated fails.  Over a substrate that holds a session
    whose active document is none of its documents, [restore] puts that
    session in the map as it is; and a session that has selected one of its
    documents comes back from a reload with the selection [undefined]. *)
Lemma restore_selects_no_member :
  let w1 := SessionRun.run nan_lt [SessionRun.Restore]
              {| SessionStore.store := SessionStore.constructor;
                 SessionStore.storage := ls_stranger |} in
  let w2 := SessionRun.run nan_lt
              (ops_session ++ [SessionRun.Reload; SessionRun.Restore])
              SessionRun.initial in
  (∃ s, (VStr "s1", s) ∈ SessionStore.sessions (SessionStore.store w1)
        ∧ activeDocumentId s = VStr "zz" ∧ activeDocumentIds s = []
        ∧ activeDocumentId s ≠ VNull
        ∧ ¬ In (activeDocumentId s) (activeDocumentIds s))
  ∧ (∃ s, (VStr "1", s) ∈ SessionStore.sessions (SessionStore.store w2)
          ∧ activeDocumentId s = VUndef
          ∧ activeDocumentIds s = [VStr "d1"; VStr "d2"]
          ∧ activeDocumentId s ≠ VNull
          ∧ ¬ In (activeDocumentId s) (activeDocumentIds s)).
Proof.
  vm_compute. split.
  - eexists. split; [constructor|]. repeat split; try discriminate. by intros [].
  - eexists. split; [constructor|]. repeat split; try discriminate.
    intros [[=]|[[=]|[]]].
Qed.

(** The session of [w_session], in the store and after the page has been
    loaded again over the substrate that the store wrote. *)
Lemma activeDocumentId_is_null_or_member_witness :
  (activeDocumentId session_1 = VNull ∨ activeDocumentId session_1 = VUndef
   ∨ In (activeDocumentId session_1) (activeDocumentIds session_1))
  ∧ SessionStore.setActiveDocument "1" "unknown" 8 w_session = w_session
  ∧ (activeDocumentId (set_activeDocumentId VUndef session_1) = VNull
     ∨ activeDocumentId (set_activeDocumentId VUndef session_1) = VUndef
     ∨ In (activeDocumentId (set_activeDocumentId VUndef session_1))
          (activeDocumentIds (set_activeDocumentId VUndef session_1))).
Proof.
  destruct (activeDocumentId_is_null_or_member nan_lt ops_session ∅) as [H1 H2].
  { left. apply lookup_empty. }
  destruct (activeDocumentId_is_null_or_member nan_lt [SessionRun.Restore]
              (SessionStore.storage w_session)) as [H3 _].
  { apply (run_sessions_ok nan_lt ops_session SessionRun.initial);
      [constructor|left; apply lookup_empty]. }
  split; [|split].
  - apply (H1 (VStr "1")). vm_compute. constructor.
  - apply H2. intros session Hget. vm_compute in Hget.
    injection Hget as <-. intros Hin. cbn in Hin.
    destruct Hin as [[=]|[[=]|[]]].
  - apply (H3 (VStr "1")). vm_compute. constructor.
Defined.

(** C10, the claim as stated fails: the JSON text of [null] has no version
    tag; the loaders return [null] for it, but the entry stays in the
    substrate. *)
Lemma load_keeps_stored_null :
  let stored_null (key : string) : localStorage := {[ key := Json.Text VNull ]} in
  get_prop "version" VNull = None
  ∧ (Storage.loadSessions nan_lt (stored_null Storage.STORAGE_KEYS.sessions)).1 = None
  ∧ (Storage.loadSessions nan_lt (stored_null Storage.STORAGE_KEYS.sessions)).2
      !! Storage.STORAGE_KEYS.sessions = Some (Json.Text VNull)
  ∧ (Storage.loadDocuments nan_lt (stored_null Storage.STORAGE_KEYS.documents)).1 = None
  ∧ (Storage.loadDocuments nan_lt (stored_null Storage.STORAGE_KEYS.documents)).2
      !! Storage.STORAGE_KEYS.documents = Some (Json.Text VNull)
  ∧ (Storage.loadMessages nan_lt (stored_null Storage.STORAGE_KEYS.messages)).1 = None
  ∧ (Storage.loadMessages nan_lt (stored_null Storage.STORAGE_KEYS.messages)).2
      !! Storage.STORAGE_KEYS.messages = Some (Json.Text VNull).
Proof. cbv zeta. repeat (split; [by vm_compute|]). by vm_compute. Qed.

(** Documents written by an older version, and documents without a version
    tag: both entries are removed. *)
Lemma loaders_reject_witness :
  Storage.loadDocuments nan_lt ls_outdated
  = (None, removeItem Storage.STORAGE_KEYS.documents ls_outdated)
  ∧ Storage.loadDocuments nan_lt ls_untagged
    = (None, removeItem Storage.STORAGE_KEYS.documents ls_untagged).
Proof.
  destruct (loaders_reject nan_lt) as (_ & (_ & _ & _ & _ & Habsent & Hold & _) & _).
  split.
  - apply (Hold ls_outdated (VObj [ ("version", VNum 1); ("documents", VArr []) ]) 1).
    + apply lookup_singleton_eq.
    + reflexivity.
    + reflexivity.
  - apply (Habsent ls_untagged (VObj [ ("documents", VArr []) ])).
    + apply lookup_singleton_eq.
    + discriminate.
    + discriminate.
    + reflexivity.
Defined.



(** ** The codec: configuration, confinement to keys, what the loaders keep *)

Section Storage_facts.
Context (coerced_lt : value → Z → option bool).

Lemma loadSessions_cases ls :
  (∃ saved, Storage.loadSessions coerced_lt ls = (Some saved, ls))
  ∨ Storage.loadSessions coerced_lt ls = (None, ls)
  ∨ Storage.loadSessions coerced_lt ls
    = (None, removeItem Storage.STORAGE_KEYS.sessions ls).
Proof.
  unfold Storage.loadSessions, Storage.loadSessions_try, Storage.clearSessions, getItem.
  destruct (ls !! Storage.STORAGE_KEYS.sessions) as [[| |data]|]; cbn; auto.
  destruct (Storage.outdated coerced_lt data) as [[|]|]; cbn; auto.
  destruct (negb (truthy (prop "sessions" data)) || negb (isArray (prop "sessions" data)));
    auto.
  destruct (prop "sessions" data); auto.
  destruct (Storage.filterSessions items); cbn; eauto.
Qed.

Lemma loadDocuments_cases ls :
  (∃ saved, Storage.loadDocuments coerced_lt ls = (Some saved, ls))
  ∨ Storage.loadDocuments coerced_lt ls = (None, ls)
  ∨ Storage.loadDocuments coerced_lt ls
    = (None, removeItem Storage.STORAGE_KEYS.documents ls).
Proof.
  unfold Storage.loadDocuments, Storage.loadDocuments_try, Storage.clearDocuments, getItem.
  destruct (ls !! Storage.STORAGE_KEYS.documents) as [[| |data]|]; cbn; auto.
  destruct (Storage.outdated coerced_lt data) as [[|]|]; cbn; auto.
  destruct (negb (truthy (prop "documents" data)) || negb (isArray (prop "documents" data)));
    auto.
  destruct (prop "documents" data); auto.
  destruct (Storage.rehydrateAll items); cbn; eauto.
Qed.

Lemma loadMessages_cases ls :
  (∃ saved, Storage.loadMessages coerced_lt ls = (Some saved, ls))
  ∨ Storage.loadMessages coerced_lt ls = (None, ls)
  ∨ Storage.loadMessages coerced_lt ls
    = (None, removeItem Storage.STORAGE_KEYS.messages ls).
Proof.
  unfold Storage.loadMessages, Storage.loadMessages_try, Storage.clearMessages, getItem.
  destruct (ls !! Storage.STORAGE_KEYS.messages) as [[| |data]|]; cbn; auto.
  destruct (Storage.outdated coerced_lt data) as [[|]|]; cbn; auto.
  destruct (negb (truthy (prop "sessionMessages" data))
            || negb (isArray (prop "sessionMessages" data))); eauto.
Qed.

Lemma removeItem_other key k ls : k ≠ key → removeItem key ls !! k = ls !! k.
Proof. intros. unfold removeItem. by apply lookup_delete_ne. Qed.

Lemma removeItem_eq key ls : removeItem key ls !! key = None.
Proof. unfold removeItem. apply lookup_delete_eq. Qed.

Lemma setItem_other key k s ls : k ≠ key → setItem key s ls !! k = ls !! k.
Proof. intros. unfold setItem. by apply lookup_insert_ne. Qed.

Lemma setItem_eq key s ls : setItem key s ls !! key = Some s.
Proof. unfold setItem. apply lookup_insert_eq. Qed.

Lemma loadDocuments_absent ls :
  ls !! Storage.STORAGE_KEYS.documents = None →
  Storage.loadDocuments coerced_lt ls = (None, ls).
Proof.
  intros H. unfold Storage.loadDocuments, Storage.loadDocuments_try, getItem.
  by rewrite H.
Qed.

Lemma loadMessages_absent ls :
  ls !! Storage.STORAGE_KEYS.messages = None →
  Storage.loadMessages coerced_lt ls = (None, ls).
Proof.
  intros H. unfold Storage.loadMessages, Storage.loadMessages_try, getItem. by rewrite H.
Qed.

(** X1.  [loadConfig] after [saveConfig] returns the JSON round trip of the
    configuration, [null] when the configuration is [undefined]; for a
    configuration that JSON can express it returns the configuration
    itself. *)
Theorem loadConfig_saveConfig config ls :
  Storage.loadConfig (Storage.saveConfig config ls)
  = match config with VUndef => VNull | _ => Json.roundtrip config end
  ∧ (Json.json config = true →
     Storage.loadConfig (Storage.saveConfig config ls) = config).
Proof.
  assert (H : Storage.loadConfig (Storage.saveConfig config ls)
              = match config with VUndef => VNull | _ => Json.roundtrip config end).
  { unfold Storage.loadConfig, Storage.saveConfig, getItem. rewrite setItem_eq.
    by destruct config. }
  split; [done|]. intros Hj. rewrite H, (roundtrip_json _ Hj). by destruct config.
Qed.


(** X2.  Every save, every clear and every loader changes no entry of the
    substrate but the one under the key of its own family; [clearAllData]
    changes none but those under the four keys. *)
Theorem writes_are_confined m a docs v config now :
  confined Storage.STORAGE_KEYS.sessions (Storage.saveSessions m a now)
  ∧ confined Storage.STORAGE_KEYS.documents (Storage.saveDocuments docs now)
  ∧ confined Storage.STORAGE_KEYS.messages (Storage.saveMessages v now)
  ∧ confined Storage.STORAGE_KEYS.config (Storage.saveConfig config)
  ∧ confined Storage.STORAGE_KEYS.sessions Storage.clearSessions
  ∧ confined Storage.STORAGE_KEYS.documents Storage.clearDocuments
  ∧ confined Storage.STORAGE_KEYS.messages Storage.clearMessages
  ∧ confined Storage.STORAGE_KEYS.sessions (λ ls, (Storage.loadSessions coerced_lt ls).2)
  ∧ confined Storage.STORAGE_KEYS.documents
      (λ ls, (Storage.loadDocuments coerced_lt ls).2)
  ∧ confined Storage.STORAGE_KEYS.messages (λ ls, (Storage.loadMessages coerced_lt ls).2)
  ∧ (∀ ls k, k ≠ Storage.STORAGE_KEYS.sessions → k ≠ Storage.STORAGE_KEYS.documents →
             k ≠ Storage.STORAGE_KEYS.messages → k ≠ Storage.STORAGE_KEYS.config →
             Storage.clearAllData ls !! k = ls !! k).
Proof.
  unfold confined. repeat split; intros ls k Hk.
  - by apply setItem_other.
  - unfold Storage.saveDocuments. destruct (mapM _ _); [by apply setItem_other|done].
  - by apply setItem_other.
  - by apply setItem_other.
  - by apply removeItem_other.
  - by apply removeItem_other.
  - by apply removeItem_other.
  - destruct (loadSessions_cases ls) as [[s ->]|[->| ->]]; cbn [snd]; try done.
    by apply removeItem_other.
  - destruct (loadDocuments_cases ls) as [[s ->]|[->| ->]]; cbn [snd]; try done.
    by apply removeItem_other.
  - destruct (loadMessages_cases ls) as [[s ->]|[->| ->]]; cbn [snd]; try done.
    by apply removeItem_other.
  - intros Hd Hm Hc. unfold Storage.clearAllData, Storage.clearMessages,
      Storage.clearDocuments, Storage.clearSessions.
    by rewrite !removeItem_other.
Qed.

(** X3.  What a loader returns depends on nothing in the substrate but the
    entry under the key of its own family. *)
Theorem loaders_read_own_key ls ls' :
  (ls !! Storage.STORAGE_KEYS.sessions = ls' !! Storage.STORAGE_KEYS.sessions →
   (Storage.loadSessions coerced_lt ls).1 = (Storage.loadSessions coerced_lt ls').1)
  ∧ (ls !! Storage.STORAGE_KEYS.documents = ls' !! Storage.STORAGE_KEYS.documents →
     (Storage.loadDocuments coerced_lt ls).1 = (Storage.loadDocuments coerced_lt ls').1)
  ∧ (ls !! Storage.STORAGE_KEYS.messages = ls' !! Storage.STORAGE_KEYS.messages →
     (Storage.loadMessages coerced_lt ls).1 = (Storage.loadMessages coerced_lt ls').1)
  ∧ (ls !! Storage.STORAGE_KEYS.config = ls' !! Storage.STORAGE_KEYS.config →
     Storage.loadConfig ls = Storage.loadConfig ls').
Proof.
  repeat split; intros H.
  - unfold Storage.loadSessions, Storage.loadSessions_try, getItem. rewrite H.
    destruct (ls' !! Storage.STORAGE_KEYS.sessions) as [[| |data]|]; cbn; auto.
    destruct (Storage.outdated coerced_lt data) as [[|]|]; cbn; auto.
    destruct (negb (truthy (prop "sessions" data))
              || negb (isArray (prop "sessions" data))); auto.
    destruct (prop "sessions" data); auto.
    destruct (Storage.filterSessions items); cbn; eauto.
  - unfold Storage.loadDocuments, Storage.loadDocuments_try, getItem. rewrite H.
    destruct (ls' !! Storage.STORAGE_KEYS.documents) as [[| |data]|]; cbn; auto.
    destruct (Storage.outdated coerced_lt data) as [[|]|]; cbn; auto.
    destruct (negb (truthy (prop "documents" data))
              || negb (isArray (prop "documents" data))); auto.
    destruct (prop "documents" data); auto.
    destruct (Storage.rehydrateAll items); cbn; eauto.
  - unfold Storage.loadMessages, Storage.loadMessages_try, getItem. rewrite H.
    destruct (ls' !! Storage.STORAGE_KEYS.messages) as [[| |data]|]; cbn; auto.
    destruct (Storage.outdated coerced_lt data) as [[|]|]; cbn; auto.
    destruct (negb (truthy (prop "sessionMessages" data))
              || negb (isArray (prop "sessionMessages" data))); eauto.
  - unfold Storage.loadConfig, getItem. by rewrite H.
Qed.

(** X4.  After [clearAllData] the four loaders return [null] and leave the
    substrate as it is. *)
Theorem clearAllData_leaves_nothing ls :
  let ls' := Storage.clearAllData ls in
  Storage.loadSessions coerced_lt ls' = (None, ls')
  ∧ Storage.loadDocuments coerced_lt ls' = (None, ls')
  ∧ Storage.loadMessages coerced_lt ls' = (None, ls')
  ∧ Storage.loadConfig ls' = VNull.
Proof.
  intros ls'. subst ls'.
  unfold Storage.clearAllData, Storage.clearMessages, Storage.clearDocuments,
    Storage.clearSessions.
  repeat split.
  - apply loadSessions_nothing.
    rewrite !removeItem_other by done. apply removeItem_eq.
  - apply loadDocuments_absent.
    rewrite !removeItem_other by done. apply removeItem_eq.
  - apply loadMessages_absent.
    rewrite !removeItem_other by done. apply removeItem_eq.
  - unfold Storage.loadConfig, getItem. by rewrite removeItem_eq.
Qed.

(** X5.  Loading twice is loading once: a loader applied to the substrate
    that it left returns the same value and leaves the same substrate. *)
Theorem loaders_are_idempotent ls :
  Storage.loadSessions coerced_lt (Storage.loadSessions coerced_lt ls).2
  = Storage.loadSessions coerced_lt ls
  ∧ Storage.loadDocuments coerced_lt (Storage.loadDocuments coerced_lt ls).2
    = Storage.loadDocuments coerced_lt ls
  ∧ Storage.loadMessages coerced_lt (Storage.loadMessages coerced_lt ls).2
    = Storage.loadMessages coerced_lt ls.
Proof.
  repeat split.
  - destruct (loadSessions_cases ls) as [[s H]|[H|H]]; rewrite H; cbn [snd]; try done.
    apply loadSessions_nothing, removeItem_eq.
  - destruct (loadDocuments_cases ls) as [[s H]|[H|H]]; rewrite H; cbn [snd]; try done.
    apply loadDocuments_absent, removeItem_eq.
  - destruct (loadMessages_cases ls) as [[s H]|[H|H]]; rewrite H; cbn [snd]; try done.
    apply loadMessages_absent, removeItem_eq.
Qed.

Lemma filterSessions_filter entries valid :
  Storage.filterSessions entries = Some valid →
  ∃ pairs, mapM destructure2 entries = Some pairs
           ∧ valid = List.filter (λ p, Storage.validSession p.1 p.2) pairs.
Proof.
  revert valid. induction entries as [|e r IH]; intros valid H.
  - injection H as <-. by exists [].
  - cbn in H. destruct (destructure2 e) as [p|] eqn:Ep; [|done]. cbn in H.
    destruct (Storage.filterSessions r) as [v|]; [|done]. cbn in H.
    injection H as <-. destruct (IH v eq_refl) as (pairs & Hp & ->).
    exists (p :: pairs). split.
    + apply mapM_Some. constructor; [done|]. by apply mapM_Some.
    + cbn [List.filter]. by destruct (Storage.validSession p.1 p.2).
Qed.

Lemma validSession_fields id session :
  Storage.validSession id session = true →
  truthy id = true ∧ truthy (prop "sessionId" session) = true
  ∧ truthy (prop "name" session) = true ∧ truthy (prop "state" session) = true
  ∧ isArray (prop "activeDocumentIds" session) = true.
Proof.
  unfold Storage.validSession. rewrite !andb_true_iff. tauto.
Qed.

(** X6.  When [loadSessions] returns data, the substrate is unchanged, the
    stored version is not outdated, and the sessions returned are those
    stored entries, in their order, whose id, sessionId, name and state are
    truthy and whose activeDocumentIds is an array. *)
Theorem loadSessions_keeps_the_valid ls saved :
  (Storage.loadSessions coerced_lt ls).1 = Some saved →
  (Storage.loadSessions coerced_lt ls).2 = ls
  ∧ ∃ data entries pairs,
      ls !! Storage.STORAGE_KEYS.sessions = Some (Json.Text data)
      ∧ Storage.outdated coerced_lt data = Some false
      ∧ prop "sessions" data = VArr entries
      ∧ mapM destructure2 entries = Some pairs
      ∧ Storage.saved_sessions saved
        = List.filter (λ p, Storage.validSession p.1 p.2) pairs
      ∧ Forall (λ p, truthy p.1 = true ∧ truthy (prop "sessionId" p.2) = true
                     ∧ truthy (prop "name" p.2) = true
                     ∧ truthy (prop "state" p.2) = true
                     ∧ isArray (prop "activeDocumentIds" p.2) = true)
          (Storage.saved_sessions saved)
      ∧ Storage.saved_activeSessionId saved = prop "activeSessionId" data.
Proof.
  unfold Storage.loadSessions, Storage.loadSessions_try, getItem.
  destruct (ls !! Storage.STORAGE_KEYS.sessions) as [[| |data]|]; cbn; try done.
  destruct (Storage.outdated coerced_lt data) as [[|]|] eqn:Eo; cbn; try done.
  destruct (negb (truthy (prop "sessions" data))
            || negb (isArray (prop "sessions" data))); try done.
  destruct (prop "sessions" data) as [| | | | |entries|] eqn:Es; try done.
  destruct (Storage.filterSessions entries) as [valid|] eqn:Ef; cbn; [|done].
  intros [= <-]. split; [done|].
  destruct (filterSessions_filter _ _ Ef) as (pairs & Hp & ->).
  exists data, entries, pairs. cbn. split; [done|]. split; [done|].
  split; [done|]. split; [done|]. split; [done|]. split; [|done].
  apply List.Forall_forall. intros p [_ Hv]%filter_In. by apply validSession_fields.
Qed.

Lemma repair_truthy_state props :
  truthy (prop "state" (VObj props)) = true →
  truthy (prop "state" (Storage.repair (VObj props))) = true.
Proof.
  intros H. unfold Storage.repair.
  destruct (is_str (prop "state" (VObj props)) "PARSED"
            && negb (truthy (prop "parsedArtifactId" (VObj props)))).
  - own_simpl. change (is_str (VStr "UPLOADED") "PARSING") with false.
    cbn iota. by own_simpl.
  - destruct (is_str (prop "state" (VObj props)) "PARSING"); [|done].
    by own_simpl.
Qed.

(** X7.  Every document that [loadDocuments] returns, whatever the
    substrate holds, has a truthy id, docId, state and metadata, is not in
    PARSING, and has a truthy artifact id when it is PARSED. *)
Theorem loadDocuments_is_pessimistic ls saved :
  (Storage.loadDocuments coerced_lt ls).1 = Some saved →
  (Storage.loadDocuments coerced_lt ls).2 = ls
  ∧ Forall (λ e, truthy e.1 = true ∧ truthy (prop "docId" e.2) = true
                 ∧ truthy (prop "state" e.2) = true
                 ∧ truthy (prop "metadata" e.2) = true
                 ∧ is_str (prop "state" e.2) DocumentState.PARSING = false
                 ∧ (is_str (prop "state" e.2) DocumentState.PARSED = true →
                    truthy (prop "parsedArtifactId" e.2) = true))
      (Storage.saved_documents saved).
Proof.
  intros H.
  destruct (Storage.loadDocuments coerced_lt ls) as [r ls'] eqn:E. cbn in H. subst r.
  destruct (loadDocuments_Some coerced_lt _ _ _ E) as [-> Hall]. split; [done|].
  eapply Forall_impl; [exact Hall|]. cbn. intros e (id & doc & He).
  destruct (rehydrate_Some _ _ _ He) as (-> & Hid & Hd & Hs & Hm). cbn.
  destruct (truthy_prop_object _ _ Hd) as [props ->].
  split; [done|].
  rewrite (repair_other "docId"), (repair_other "metadata") by done.
  split; [done|]. split; [by apply repair_truthy_state|]. split; [done|].
  split; [apply repair_not_PARSING|apply repair_PARSED].
Qed.

End Storage_facts.

(** ** The Session Store, operation by operation *)

Section Session_operations.
Import SessionStore.
Implicit Types (w : world) (s : Session).

Lemma includes_str l docId :
  includes l (VStr docId) = true ↔ In (VStr docId) l.
Proof.
  split; [apply includes_In|]. intros H. unfold includes.
  apply existsb_exists. exists (VStr docId). split; [done|].
  apply same_value_zero_str.
Qed.

Lemma Map_has_get {A} k (m : list (value * A)) :
  Map_has k m = true ↔ is_Some (Map_get k m).
Proof. unfold Map_has. by rewrite bool_decide_eq_true. Qed.

(** X8.  [createSession] returns the decimal digits of the clock, and
    makes the session it creates the active one: [getActiveSession] returns
    it, named as asked (Untitled Session by default), ACTIVE, without
    documents; the sessions under other ids are as before, and the map and
    the new active id are saved: the substrate then holds, under the key of
    the sessions, the text of the version, the canonical sessions of the
    map, the new active id and the clock. *)
Theorem createSession_activates name now w :
  let r := createSession name now w in
  r.1 = toString (now 0%nat)
  ∧ getActiveSession (store r.2)
    = Some {| sessionId := VStr r.1;
              name := match name with VUndef => VStr "Untitled Session" | _ => name end;
              sessionState := VStr SessionState.ACTIVE;
              activeDocumentIds := [];
              activeDocumentId := VNull;
              createdAt := VNum (now 1%nat) |}
  ∧ (∀ other, other ≠ r.1 →
       Map_get (VStr other) (sessions (store r.2))
       = Map_get (VStr other) (sessions (store w)))
  ∧ storage r.2
    = Storage.saveSessions (sessions (store r.2)) (VStr r.1) (now 2%nat) (storage w)
  ∧ storage r.2 !! Storage.STORAGE_KEYS.sessions
    = Some (Json.stringify
              (VObj [ ("version", VNum Storage.STORAGE_VERSION);
                      ("sessions",
                       VArr (map Storage.canonicalSession (sessions (store r.2))));
                      ("activeSessionId", VStr r.1);
                      ("timestamp", VNum (now 2%nat)) ])).
Proof.
  cbn. split; [done|]. split.
  - unfold getActiveSession. cbn [store activeSessionId sessions].
    rewrite truthy_toString. apply Map_get_set_eq, same_value_zero_str.
  - split; [|split; [done|apply setItem_eq]]. intros other Hne. apply Map_get_set_ne.
    cbn. apply String.eqb_neq. congruence.
Qed.

(** X9.  [setActiveSession] on an id that the store does not know changes
    nothing, neither the store nor the substrate; on a known, non-empty id
    it makes that session the one [getActiveSession] returns, leaves the
    map alone and saves: the substrate then holds, under the key of the
    sessions, the text of the version, the canonical sessions, the new
    active id and the clock. *)
Theorem setActiveSession_switches sessionId now w :
  (Map_get (VStr sessionId) (sessions (store w)) = None →
   setActiveSession sessionId now w = w)
  ∧ (∀ s, Map_get (VStr sessionId) (sessions (store w)) = Some s →
          sessionId ≠ EmptyString →
          let w' := setActiveSession sessionId now w in
          getActiveSession (store w') = Some s
          ∧ sessions (store w') = sessions (store w)
          ∧ storage w'
            = Storage.saveSessions (sessions (store w)) (VStr sessionId) now (storage w)
          ∧ storage w' !! Storage.STORAGE_KEYS.sessions
            = Some (Json.stringify
                      (VObj [ ("version", VNum Storage.STORAGE_VERSION);
                              ("sessions",
                               VArr (map Storage.canonicalSession (sessions (store w))));
                              ("activeSessionId", VStr sessionId);
                              ("timestamp", VNum now) ]))).
Proof.
  unfold setActiveSession. split.
  - intros H. destruct (Map_has _ _) eqn:E; [|done].
    apply Map_has_get in E. rewrite H in E. by destruct E.
  - intros s H Hne. destruct (Map_has _ _) eqn:E.
    + cbn. split; [|split; [done|split; [done|apply setItem_eq]]].
      unfold getActiveSession. cbn.
      destruct (String.eqb_spec sessionId EmptyString); [done|]. done.
    + apply not_true_iff_false in E. destruct E. apply Map_has_get. by rewrite H.
Qed.

(** X10.  [addDocumentToSession] puts a document that the session does not
    have at the end of the session's list and selects it; for a document
    that the session has, or a session that the store does not know, it
    changes nothing.  So adding the same document again changes nothing. *)
Theorem addDocumentToSession_adds_once sessionId docId now now' w :
  let w' := addDocumentToSession sessionId docId now w in
  (∀ s, Map_get (VStr sessionId) (sessions (store w)) = Some s →
        ¬ In (VStr docId) (activeDocumentIds s) →
        Map_get (VStr sessionId) (sessions (store w'))
        = Some (set_activeDocumentId (VStr docId)
                  (set_activeDocumentIds (activeDocumentIds s ++ [VStr docId]) s)))
  ∧ (∀ s, Map_get (VStr sessionId) (sessions (store w)) = Some s →
          In (VStr docId) (activeDocumentIds s) → w' = w)
  ∧ (Map_get (VStr sessionId) (sessions (store w)) = None → w' = w)
  ∧ addDocumentToSession sessionId docId now' w' = w'.
Proof.
  cbn zeta.
  destruct (Map_get (VStr sessionId) (sessions (store w))) as [s|] eqn:Hget.
  - destruct (includes (activeDocumentIds s) (VStr docId)) eqn:Hin.
    + assert (Hw : addDocumentToSession sessionId docId now w = w).
      { unfold addDocumentToSession. by rewrite Hget, Hin. }
      rewrite Hw.
      assert (Hw' : addDocumentToSession sessionId docId now' w = w).
      { unfold addDocumentToSession. by rewrite Hget, Hin. }
      apply includes_str in Hin.
      split; [intros s' [= <-] Hn; contradiction|]. by repeat split.
    + assert (Hn : ¬ In (VStr docId) (activeDocumentIds s)).
      { intros H%includes_str. congruence. }
      assert (Hw : addDocumentToSession sessionId docId now w
                   = persist now
                       {| store :=
                            {| sessions :=
                                 Map_set (VStr sessionId)
                                   (set_activeDocumentId (VStr docId)
                                      (set_activeDocumentIds
                                         (activeDocumentIds s ++ [VStr docId]) s))
                                   (sessions (store w));
                               activeSessionId := activeSessionId (store w) |};
                          storage := storage w |}).
      { unfold addDocumentToSession. by rewrite Hget, Hin. }
      rewrite Hw.
      split.
      { intros s' [= <-] _. cbn. apply Map_get_set_eq, same_value_zero_str. }
      split; [intros s' [= <-] H; contradiction|]. split; [done|].
      unfold addDocumentToSession. cbn [store sessions persist].
      rewrite Map_get_set_eq by apply same_value_zero_str.
      cbn [activeDocumentIds set_activeDocumentId set_activeDocumentIds].
      assert (includes (activeDocumentIds s ++ [VStr docId]) (VStr docId) = true)
        as ->; [|done].
      apply includes_str, in_app_iff. right. by left.
  - assert (Hw : addDocumentToSession sessionId docId now w = w).
    { unfold addDocumentToSession. by rewrite Hget. }
    rewrite Hw. repeat split; try done.
    unfold addDocumentToSession. by rewrite Hget.
Qed.

End Session_operations.

(** ** The Document Store, operation by operation *)

Section Document_operations.
Import DocumentStore.
Implicit Types (w : world) (d : Document).

Lemma isQueryable_lookup docId w l d :
  Map_get (VStr docId) (documents w) = Some l → heap w !! l = Some d →
  isQueryable docId w
  = is_str (state d) DocumentState.PARSED
    && negb (match parsedArtifactId d with VNull => true | _ => false end).
Proof.
  intros Hget Hl. unfold isQueryable, getDocument. rewrite Hget. cbn.
  by rewrite (deref_lookup _ _ _ Hl).
Qed.

Lemma heap_update_eq w l f d :
  heap w !! l = Some d → heap (update l f w) !! l = Some (f d).
Proof. intros H. cbn. by rewrite list_lookup_alter_eq, H. Qed.

(** What [persist] leaves under the key of the documents when no entry
    makes [saveDocuments] throw. *)
Lemma persist_lookup now w docs :
  mapM Storage.canonicalDoc (entries w) = Some docs →
  storage (persist now w) !! Storage.STORAGE_KEYS.documents
  = Some (Json.stringify
            (VObj [ ("version", VNum Storage.STORAGE_VERSION);
                    ("documents", VArr docs);
                    ("timestamp", VNum now) ])).
Proof.
  intros H. cbn [persist storage]. unfold Storage.saveDocuments. rewrite H.
  apply setItem_eq.
Qed.

(** X11.  [addDocument] returns the decimal digits of the clock and
    registers under that id a document in state UPLOADED that holds the
    file, describes it in its metadata, has neither artifact nor error and
    is not queryable; the documents under other ids and the objects
    already there are untouched, and the map is saved: when no document of
    the map makes [saveDocuments] throw, the substrate then holds, under
    the key of the documents, the text of the version, the canonical
    documents and the clock. *)
Theorem addDocument_uploads f now w :
  let r := addDocument f now w in
  r.1 = toString (now 0%nat)
  ∧ getDocument r.1 r.2 = Some (fresh_document f now)
  ∧ isQueryable r.1 r.2 = false
  ∧ (∀ other, other ≠ r.1 →
       Map_get (VStr other) (documents r.2) = Map_get (VStr other) (documents w))
  ∧ (∀ l d, heap w !! l = Some d → heap r.2 !! l = Some d)
  ∧ storage r.2 = Storage.saveDocuments (entries r.2) (now 2%nat) (storage w)
  ∧ (∀ docs, mapM Storage.canonicalDoc (entries r.2) = Some docs →
       storage r.2 !! Storage.STORAGE_KEYS.documents
       = Some (Json.stringify
                 (VObj [ ("version", VNum Storage.STORAGE_VERSION);
                         ("documents", VArr docs);
                         ("timestamp", VNum (now 2%nat)) ]))).
Proof.
  cbn zeta. unfold addDocument. cbn [fst snd].
  set (doc := {| docId := VStr (toString (now 0%nat)) |}).
  assert (Hget : Map_get (VStr (toString (now 0%nat)))
                   (Map_set (VStr (toString (now 0%nat))) (length (heap w)) (documents w))
                 = Some (length (heap w))).
  { apply Map_get_set_eq, same_value_zero_str. }
  assert (Hl : (heap w ++ [doc]) !! length (heap w) = Some doc).
  { apply list_lookup_middle. done. }
  split; [done|]. split.
  { unfold getDocument. cbn [persist documents]. rewrite Hget. cbn.
    f_equal. by apply deref_lookup. }
  split.
  { erewrite isQueryable_lookup; [|exact Hget|exact Hl]. done. }
  split.
  { intros other Hne. cbn [persist documents]. apply Map_get_set_ne.
    cbn. apply String.eqb_neq. congruence. }
  split.
  { intros l d H. cbn [persist heap]. by apply lookup_app_l_Some. }
  split; [done|]. intros docs Hdocs. apply persist_lookup. exact Hdocs.
Qed.

(** X12.  [reuploadDocument] on an unknown id returns [false] and changes
    nothing.  On a known id it returns [true] and leaves the document in
    state UPLOADED with the new file and no parse error, whatever its state
    was; its docId, its metadata (which keep describing the first file) and
    its artifact id are as before; the document is not queryable, and
    [parseDocument] on it then starts a parse. *)
Theorem reuploadDocument_resets docid f now now' w :
  (Map_get (VStr docid) (documents w) = None →
   reuploadDocument docid f now w = (false, w))
  ∧ (∀ l d, Map_get (VStr docid) (documents w) = Some l → heap w !! l = Some d →
       let r := reuploadDocument docid f now w in
       r.1 = true
       ∧ getDocument docid r.2
         = Some {| docId := docId d; state := VStr DocumentState.UPLOADED;
                   metadata := metadata d; file := Some f;
                   parsedArtifactId := parsedArtifactId d; parseError := VNull;
                   requiresReupload := false |}
       ∧ isQueryable docid r.2 = false
       ∧ (parseDocument docid now' r.2).1 = None).
Proof.
  split.
  - intros H. unfold reuploadDocument. by rewrite H.
  - intros l d Hget Hl. cbn zeta. unfold reuploadDocument. rewrite Hget. cbn [fst snd].
    set (g := λ doc, set_requiresReupload false
                       (set_parseError VNull
                          (set_state DocumentState.UPLOADED (set_file (Some f) doc)))).
    pose proof (heap_update_eq w l g d Hl) as Hl'.
    assert (Hd : deref (persist now (update l g w)) l = g d).
    { apply deref_lookup. exact Hl'. }
    split; [done|]. split.
    { unfold getDocument. cbn [persist documents update]. rewrite Hget. cbn.
      by rewrite Hd. }
    split.
    { erewrite isQueryable_lookup; [|exact Hget|exact Hl']. done. }
    unfold parseDocument. cbn [persist documents update]. rewrite Hget.
    cbv zeta. rewrite Hd. done.
Qed.

Lemma parseDocument_start docId now w l d f0 :
  Map_get (VStr docId) (documents w) = Some l → heap w !! l = Some d →
  file d = Some f0 → is_str (state d) DocumentState.UPLOADED = true →
  let g := λ doc, set_parseError VNull (set_state DocumentState.PARSING doc) in
  parseDocument docId now w
  = (None, {| documents := documents w; heap := alter g l (heap w);
              awaiting := l :: awaiting w;
              storage := Storage.saveDocuments (entries (update l g w)) now
                           (storage w) |}).
Proof.
  intros Hget Hl Hf Hs. cbn zeta.
  unfold parseDocument. rewrite Hget. cbv zeta.
  rewrite (deref_lookup _ _ _ Hl), Hf, Hs.
  rewrite bool_decide_eq_true_2 by eauto. done.
Qed.

Lemma resume_success l result a now w :
  get_prop "documentId" result = Some a →
  parseDocument_resume l (Result result) now w
  = (true,
     persist now
       (update l (λ doc, set_state DocumentState.PARSED (set_parsedArtifactId a doc))
          {| documents := documents w; heap := heap w;
             awaiting := remove_first l (awaiting w); storage := storage w |})).
Proof. intros H. unfold parseDocument_resume. by rewrite H. Qed.

Lemma resume_failure l message now w :
  parseDocument_resume l (Thrown message) now w
  = (false,
     persist now
       (update l (λ doc, set_parseError (VStr message)
                           (set_state DocumentState.PARSE_FAILED doc))
          {| documents := documents w; heap := heap w;
             awaiting := remove_first l (awaiting w); storage := storage w |})).
Proof. done. Qed.

(** X13.  For a known document that holds its file, [parseDocument]
    starts a parse exactly when the state is UPLOADED: the document goes to
    PARSING with no parse error, the map is saved (when no document of the
    map makes [saveDocuments] throw, the substrate then holds, under the
    key of the documents, the text of the version, the canonical documents
    and the clock), the call is suspended on the document and the document
    is not queryable.  In every other state the call returns [false] and
    changes nothing. *)
Theorem parseDocument_starts_only_from_UPLOADED docId now w l d :
  Map_get (VStr docId) (documents w) = Some l → heap w !! l = Some d →
  is_Some (file d) →
  let r := parseDocument docId now w in
  if is_str (state d) DocumentState.UPLOADED
  then r.1 = None
       ∧ heap r.2 !! l = Some (set_parseError VNull (set_state DocumentState.PARSING d))
       ∧ documents r.2 = documents w
       ∧ awaiting r.2 = l :: awaiting w
       ∧ storage r.2 = Storage.saveDocuments (entries r.2) now (storage w)
       ∧ isQueryable docId r.2 = false
       ∧ (∀ docs, mapM Storage.canonicalDoc (entries r.2) = Some docs →
            storage r.2 !! Storage.STORAGE_KEYS.documents
            = Some (Json.stringify
                      (VObj [ ("version", VNum Storage.STORAGE_VERSION);
                              ("documents", VArr docs);
                              ("timestamp", VNum now) ])))
  else r = (Some false, w).
Proof.
  intros Hget Hl [f0 Hf]. cbn zeta.
  destruct (is_str (state d) DocumentState.UPLOADED) eqn:Hs.
  - rewrite (parseDocument_start docId now w l d f0 Hget Hl Hf Hs). cbn [fst snd].
    set (g := λ doc, set_parseError VNull (set_state DocumentState.PARSING doc)).
    pose proof (heap_update_eq w l g d Hl) as Hl'.
    split; [done|]. split; [exact Hl'|]. split; [done|]. split; [done|].
    split; [done|]. split.
    { erewrite isQueryable_lookup; [|exact Hget|exact Hl']. done. }
    intros docs Hdocs. exact (persist_lookup now (update l g w) docs Hdocs).
  - eapply parseDocument_guard; [done| |]; by rewrite (deref_lookup _ _ _ Hl).
Qed.

(** X14.  From any state of a known document: [reuploadDocument] with a
    file, then [parseDocument], then a reply of the backend whose
    [documentId] is not [null], leave the document PARSED with that
    artifact id and with the file, and queryable. *)
Theorem reupload_then_parse_recovers docid f now1 now2 now3 w l d result a :
  Map_get (VStr docid) (documents w) = Some l → heap w !! l = Some d →
  get_prop "documentId" result = Some a → a ≠ VNull →
  let w1 := (reuploadDocument docid f now1 w).2 in
  let p := parseDocument docid now2 w1 in
  let r := parseDocument_resume l (Result result) now3 p.2 in
  p.1 = None ∧ l ∈ awaiting p.2
  ∧ r.1 = true
  ∧ getDocument docid r.2
    = Some {| docId := docId d; state := VStr DocumentState.PARSED;
              metadata := metadata d; file := Some f;
              parsedArtifactId := a; parseError := VNull;
              requiresReupload := false |}
  ∧ isQueryable docid r.2 = true.
Proof.
  intros Hget Hl Ha Hnull. cbn zeta.
  unfold reuploadDocument. rewrite Hget. cbn [snd].
  set (g := λ doc, set_requiresReupload false
                     (set_parseError VNull
                        (set_state DocumentState.UPLOADED (set_file (Some f) doc)))).
  set (w1 := persist now1 (update l g w)).
  assert (Hl1 : heap w1 !! l = Some (g d)) by exact (heap_update_eq w l g d Hl).
  assert (Hget1 : Map_get (VStr docid) (documents w1) = Some l) by exact Hget.
  rewrite (parseDocument_start docid now2 w1 l (g d) f Hget1 Hl1 eq_refl eq_refl).
  cbn [fst snd awaiting].
  split; [done|]. split; [by left|].
  rewrite (resume_success l result a now3 _ Ha). cbn [fst snd].
  set (g2 := λ doc, set_parseError VNull (set_state DocumentState.PARSING doc)).
  set (g3 := λ doc, set_state DocumentState.PARSED (set_parsedArtifactId a doc)).
  set (w3 := persist now3 _).
  assert (Hl3 : heap w3 !! l = Some (g3 (g2 (g d)))).
  { subst w3. cbn [persist update heap]. rewrite list_lookup_alter_eq.
    change (alter g2 l (heap w1) !! l) with (heap (update l g2 w1) !! l).
    by rewrite (heap_update_eq w1 l g2 (g d) Hl1). }
  assert (Hget3 : Map_get (VStr docid) (documents w3) = Some l) by exact Hget.
  split; [done|]. split.
  { unfold getDocument. rewrite Hget3. cbn. by rewrite (deref_lookup _ _ _ Hl3). }
  rewrite (isQueryable_lookup _ _ _ _ Hget3 Hl3). cbn. by destruct a.
Qed.

Ltac fail_case failed msg :=
  let d' := fresh "d'" in
  destruct (failed msg) as (d' & ? & ? & ? & ? & ? & ?); [done|];
  exists d'; split; [done|]; split; [done|];
  split; [exists msg; by repeat split|done].

Lemma heap_resume w l g now d :
  heap w !! l = Some d →
  heap (persist now
          (update l g
             {| documents := documents w; heap := heap w;
                awaiting := remove_first l (awaiting w); storage := storage w |})) !! l
  = Some (g d).
Proof. intros H. cbn. by rewrite list_lookup_alter_eq, H. Qed.

(** X15.  A parse against the backend.  Take a known document in state
    UPLOADED that holds its file, and let the route [POST /parse] of the
    backend answer the request that carries the file, under its name, and
    the document's id.  The call is suspended first.  If the route answers
    200, which it does only for a file that the filter of the upload
    accepts by its extension, within the size limit, supported and with at
    least ten characters of text, the call returns [true] and the document
    is PARSED, queryable, with its own id as artifact id and no parse
    error.  If not, the call returns [false] and the document is
    PARSE_FAILED, not queryable, its parse error the text of the [error] of
    the response; it still holds the file.  When the filter refuses the
    file, whatever its type, that text is the one of the error
    middleware. *)
Theorem parse_against_backend extname docid now now' w l d f0 req timestamp :
  Map_get (VStr docid) (documents w) = Some l → heap w !! l = Some d →
  file d = Some f0 → is_str (state d) DocumentState.UPLOADED = true →
  Backend.has_file req = true →
  Backend.originalname req = file_name f0 →
  Backend.documentId req = to_string (docId d) →
  let p := parseDocument docid now w in
  let response := Backend.parse extname req timestamp in
  let r := parseDocument_resume l (response_reply response.1 response.2) now' p.2 in
  p.1 = None
  ∧ ∃ d', getDocument docid r.2 = Some d' ∧ file d' = Some f0
    ∧ (if response.1 =? 200
       then (existsb (String.eqb (Upload.toLowerCase (extname (file_name f0))))
               Backend.allowedExtensions = true
             ∧ Backend.exceeds_fileSize req = false
             ∧ Backend.supported req = true
             ∧ ∃ text, Backend.documentText req = Some text
                       ∧ (10 ≤ String.length text)%nat)
            ∧ r.1 = true
            ∧ state d' = VStr DocumentState.PARSED
            ∧ parsedArtifactId d' = VStr (to_string (docId d))
            ∧ parseError d' = VNull
            ∧ isQueryable docid r.2 = true
       else ∃ message, prop "error" response.2 = VStr message
                       ∧ message ≠ EmptyString
                       ∧ r.1 = false
                       ∧ state d' = VStr DocumentState.PARSE_FAILED
                       ∧ parseError d' = VStr message
                       ∧ isQueryable docid r.2 = false)
    ∧ (existsb (String.eqb (Upload.toLowerCase (extname (file_name f0))))
         Backend.allowedExtensions = false →
       parseError d' = VStr "Only PDF, DOCX, and TXT files are supported").
Proof.
  intros Hget Hl Hf Hs Hfile Hname Hid. cbn zeta.
  rewrite (parseDocument_start docid now w l d f0 Hget Hl Hf Hs). cbn [fst snd].
  split; [done|].
  set (g := λ doc, set_parseError VNull (set_state DocumentState.PARSING doc)).
  set (w1 := {| documents := documents w; heap := alter g l (heap w) |}).
  assert (Hl1 : heap w1 !! l = Some (g d)) by exact (heap_update_eq w l g d Hl).
  assert (failed : ∀ message,
            message ≠ EmptyString →
            let r := parseDocument_resume l (Thrown message) now' w1 in
            ∃ d', getDocument docid r.2 = Some d' ∧ file d' = Some f0
                  ∧ r.1 = false ∧ state d' = VStr DocumentState.PARSE_FAILED
                  ∧ parseError d' = VStr message ∧ isQueryable docid r.2 = false).
  { intros message _. cbn zeta. rewrite resume_failure. cbn [fst snd].
    set (g' := λ doc, set_parseError (VStr message)
                        (set_state DocumentState.PARSE_FAILED doc)).
    pose proof (heap_resume w1 l g' now' (g d) Hl1) as Hl2.
    exists (g' (g d)). split.
    { unfold getDocument. cbn [persist update documents w1]. rewrite Hget. cbn.
      f_equal. by apply deref_lookup. }
    split; [done|]. split; [done|]. split; [done|]. split; [done|].
    erewrite isQueryable_lookup; [|exact Hget|exact Hl2]. done. }
  unfold Backend.parse, Backend.fileFilter. rewrite Hfile, Hname. cbn [andb].
  destruct (existsb _ Backend.allowedExtensions) eqn:Hfilter; cbn [negb].
  2:{ change (Backend.error_middleware (Backend.Error "Unsupported file type"))
        with (400, VObj [("error", VStr "Only PDF, DOCX, and TXT files are supported")]).
      fail_case failed "Only PDF, DOCX, and TXT files are supported". }
  destruct (Backend.exceeds_fileSize req) eqn:Hbig.
  { change (Backend.error_middleware
              (Backend.MulterError "LIMIT_FILE_SIZE" "File too large"))
      with (413, VObj [("error", VStr "File too large (max 10MB)")]).
    fail_case failed "File too large (max 10MB)". }
  unfold Backend.parse_handler. rewrite Hfile. cbn [negb orb].
  destruct (String.eqb_spec (Backend.documentId req) EmptyString) as [He|Hne].
  { fail_case failed "Document file and documentId required". }
  destruct (Backend.supported req) eqn:Hsup; cbn [negb].
  2:{ fail_case failed "Unsupported file type". }
  destruct (Backend.documentText req) as [text|] eqn:Htext.
  2:{ fail_case failed "Document parsing failed". }
  destruct (String.eqb text EmptyString || (Z.of_nat (String.length text) <? 10))
    eqn:Hshort.
  { fail_case failed "Document contains insufficient text". }
  apply orb_false_iff in Hshort as [_ Hlen%Z.ltb_ge].
  cbn [fst snd]. change (200 =? 200) with true. cbv iota.
  unfold response_reply. change ((200 <=? 200) && (200 <=? 299)) with true. cbv iota.
  erewrite (resume_success l _ (VStr (Backend.documentId req)) now' w1);
    [|reflexivity].
  cbn [fst snd].
  set (g' := λ doc, set_state DocumentState.PARSED
                      (set_parsedArtifactId (VStr (Backend.documentId req)) doc)).
  pose proof (heap_resume w1 l g' now' (g d) Hl1) as Hl2.
  exists (g' (g d)). split.
  { unfold getDocument. cbn [persist update documents w1]. rewrite Hget. cbn.
    f_equal. by apply deref_lookup. }
  split; [done|]. split; [|done]. split.
  { split; [done|]. split; [done|]. split; [done|].
    exists text. split; [done|lia]. }
  split; [done|]. split; [done|]. split; [by rewrite <- Hid|]. split; [done|].
  erewrite isQueryable_lookup; [|exact Hget|exact Hl2]. done.
Qed.

End Document_operations.

(** ** Documents across a reload *)

Section Document_reload.
Import DocumentStore DocumentRun.
Context (coerced_lt : value → Z → option bool).
Implicit Types (w : world) (d : Document).

Lemma repair_PARSED_missing props :
  is_str (prop "state" (VObj props)) "PARSED" = true →
  truthy (prop "parsedArtifactId" (VObj props)) = false →
  prop "state" (Storage.repair (VObj props)) = VStr "UPLOADED"
  ∧ prop "parsedArtifactId" (Storage.repair (VObj props)) = VNull
  ∧ prop "parseError" (Storage.repair (VObj props)) = prop "parseError" (VObj props).
Proof.
  intros Hs Ha. unfold Storage.repair. rewrite Hs, Ha. cbn [negb andb].
  own_simpl. change (is_str (VStr "UPLOADED") "PARSING") with false. cbv iota.
  own_simpl. done.
Qed.

Lemma reloaded_fields d :
  let d' := restored (Storage.repair (Json.roundtrip (Storage.canonical d))) in
  state d' = state_after_reload d
  ∧ docId d' = Json.roundtrip (docId d)
  ∧ file d' = None
  ∧ parsedArtifactId d'
    = (if is_str (state d) DocumentState.PARSED && negb (truthy (parsedArtifactId d))
       then VNull else Json.roundtrip (parsedArtifactId d))
  ∧ parseError d'
    = (if is_str (state d) DocumentState.PARSING
       then VStr "Parsing interrupted by page reload"
       else Json.roundtrip (parseError d)).
Proof.
  cbn zeta.
  destruct (canonical_roundtrip_props d) as (Hid & Hst & _ & Hart & Herr).
  destruct (canonical_roundtrip_object d) as [props Hobj].
  rewrite Hobj in *.
  destruct (restored_fields (Storage.repair (VObj props))) as (-> & _ & -> & ->).
  rewrite restored_state, restored_file.
  rewrite (repair_other "docId") by done. rewrite Hid.
  unfold state_after_reload.
  pose proof (is_str_roundtrip (state d) DocumentState.PARSING) as HsP.
  pose proof (is_str_roundtrip (state d) DocumentState.PARSED) as HsD.
  rewrite <- Hst in HsP, HsD.
  destruct (is_str (state d) DocumentState.PARSING) eqn:E1.
  - destruct (repair_PARSING props HsP) as (-> & -> & ->).
    assert (is_str (state d) DocumentState.PARSED = false) as ->.
    { destruct (state d) as [| | | |s| |]; try done. cbn in E1 |- *.
      apply String.eqb_eq in E1 as ->. done. }
    rewrite Hart. done.
  - destruct (is_str (state d) DocumentState.PARSED) eqn:E2.
    + destruct (truthy (parsedArtifactId d)) eqn:E3.
      * rewrite repair_id; [|done|by rewrite Hart, truthy_roundtrip].
        rewrite Hst, Hart, Herr.
        rewrite is_str_roundtrip, E2. done.
      * destruct (repair_PARSED_missing props HsD) as (-> & -> & ->).
        { by rewrite Hart, truthy_roundtrip. }
        rewrite Herr. done.
    + rewrite repair_id; [|done|unfold DocumentState.PARSED in HsD; congruence].
      rewrite Hst, Hart, Herr. rewrite !is_str_roundtrip, E1, E2. done.
Qed.

(** X16.  What a reload does to a document.  Take any state that the
    Document Store reaches and a document of its map; save, load the page
    again and restore.  The document is there under its id, without file.
    A document in PARSING comes back PARSE_FAILED with the error of the
    loader; a PARSED one comes back REQUIRES_REUPLOAD, or UPLOADED with a
    [null] artifact id when its artifact id was falsy; in every other state
    it comes back in its state.  Its docId, and apart from the cases named
    its artifact id and its parse error, come back as JSON gives them
    back. *)
Theorem documents_survive_reload ops ls now docid l d :
  let w := run coerced_lt ops (constructor ls) in
  Map_get (VStr docid) (documents w) = Some l → heap w !! l = Some d →
  let w' := restore coerced_lt (constructor (storage (persist now w))) in
  ∃ l' d', Map_get (VStr docid) (documents w') = Some l'
    ∧ heap w' !! l' = Some d'
    ∧ state d' = state_after_reload d
    ∧ docId d' = Json.roundtrip (docId d)
    ∧ file d' = None
    ∧ parsedArtifactId d'
      = (if is_str (state d) DocumentState.PARSED && negb (truthy (parsedArtifactId d))
         then VNull else Json.roundtrip (parsedArtifactId d))
    ∧ parseError d'
      = (if is_str (state d) DocumentState.PARSING
         then VStr "Parsing interrupted by page reload"
         else Json.roundtrip (parseError d)).
Proof.
  intros w Hget Hl w'.
  destruct (reload_lookup coerced_lt w now docid l) as (l' & Hget' & Hl');
    [apply run_map_ok|apply run_doc_ok|done|].
  rewrite (deref_lookup _ _ _ Hl) in Hl'.
  exists l', (restored (Storage.repair (Json.roundtrip (Storage.canonical d)))).
  split; [done|]. split; [done|]. apply reloaded_fields.
Qed.

End Document_reload.

Section Document_without_file.
Import DocumentStore DocumentRun.
Context (coerced_lt : value → Z → option bool).
Implicit Types (w : world) (d : Document).

(** What [saveDocuments] leaves under its key for a map whose documents
    have their metadata. *)
Lemma saveDocuments_lookup m now ls :
  Forall (λ e, truthy (metadata e.2) = true) m →
  Storage.saveDocuments m now ls !! Storage.STORAGE_KEYS.documents
  = Some (Json.stringify
            (VObj [ ("version", VNum Storage.STORAGE_VERSION);
                    ("documents", VArr (map (λ e, VArr [e.1; Storage.canonical e.2]) m));
                    ("timestamp", VNum now) ])).
Proof.
  intros Hm. unfold Storage.saveDocuments. rewrite mapM_canonicalDoc by done.
  apply setItem_eq.
Qed.

Lemma doc_ok_alter_state s l (h : list Document) :
  s ≠ EmptyString → Forall doc_ok h → Forall doc_ok (alter (set_state s) l h).
Proof.
  intros Hs Hh. apply Forall_alter; [done|].
  intros d _ (H1 & _ & H3). split; [done|]. split; [|done].
  cbn. by destruct (String.eqb_spec s EmptyString).
Qed.

(** C8.  For every known document whose file handle is absent,
    [parseDocument] on its id, whatever the state, returns failure, sets
    the state to REQUIRES_REUPLOAD and leaves the document not queryable;
    and it persists: in every state that the store reaches, the substrate
    then holds under the key of the documents the map as it is after the
    call, this document in REQUIRES_REUPLOAD among its entries, so that a
    new store restored from the substrate has the document under the same
    id in state REQUIRES_REUPLOAD, without file and not queryable. *)
Theorem parseDocument_without_file_requires_reupload docId now w l d :
  Map_get (VStr docId) (documents w) = Some l →
  heap w !! l = Some d →
  file d = None →
  let result := parseDocument docId now w in
  let d1 := set_state DocumentState.REQUIRES_REUPLOAD d in
  result.1 = Some false
  ∧ Map_get (VStr docId) (documents result.2) = Some l
  ∧ heap result.2 !! l = Some d1
  ∧ state d1 = VStr DocumentState.REQUIRES_REUPLOAD
  ∧ isQueryable docId result.2 = false
  ∧ storage result.2 = Storage.saveDocuments (entries result.2) now (storage w)
  ∧ ∀ ops ls, w = run coerced_lt ops (constructor ls) →
      (VStr docId, d1) ∈ entries result.2
      ∧ storage result.2 !! Storage.STORAGE_KEYS.documents
        = Some (Json.stringify
                  (VObj [ ("version", VNum Storage.STORAGE_VERSION);
                          ("documents",
                           VArr (map (λ e, VArr [e.1; Storage.canonical e.2])
                                   (entries result.2)));
                          ("timestamp", VNum now) ]))
      ∧ let w' := restore coerced_lt (constructor (storage result.2)) in
        ∃ l' d', Map_get (VStr docId) (documents w') = Some l'
                 ∧ heap w' !! l' = Some d'
                 ∧ state d' = VStr DocumentState.REQUIRES_REUPLOAD
                 ∧ file d' = None
                 ∧ isQueryable docId w' = false.
Proof.
  intros Hget Hl Hf result d1.
  set (w1 := update l (set_state DocumentState.REQUIRES_REUPLOAD) w).
  assert (Hr : result = (Some false, persist now w1)).
  { apply parseDocument_without_file; [done|]. by rewrite (deref_lookup _ _ _ Hl). }
  rewrite Hr. cbn [fst snd].
  assert (Hl1 : heap w1 !! l = Some d1) by exact (heap_update_eq w l _ d Hl).
  assert (Hget1 : Map_get (VStr docId) (documents w1) = Some l) by exact Hget.
  split; [done|]. split; [exact Hget1|]. split; [exact Hl1|]. split; [done|].
  split.
  { erewrite isQueryable_lookup; [|exact Hget1|exact Hl1]. done. }
  split; [done|].
  intros ops ls Hw.
  assert (Hmap : map_ok w1).
  { apply map_ok_update. rewrite Hw. apply run_map_ok. }
  assert (Hdocs : Forall doc_ok (heap w1)).
  { apply doc_ok_alter_state; [done|]. rewrite Hw. apply run_doc_ok. }
  split.
  { unfold entries. apply list_elem_of_fmap. exists (VStr docId, l). split.
    - cbv beta. cbn [fst snd]. by rewrite (deref_lookup (persist now w1) l d1 Hl1).
    - by apply Map_get_Some_elem. }
  split.
  { apply saveDocuments_lookup. by apply entries_truthy. }
  cbn zeta.
  destruct (reload_lookup coerced_lt w1 now docId l Hmap Hdocs Hget1) as (l' & Hl' & Hd').
  rewrite (deref_lookup _ _ _ Hl1) in Hd'.
  destruct (reloaded_fields d1) as (Hst & _ & Hfile & _).
  eexists l', _. split; [exact Hl'|]. split; [exact Hd'|].
  split; [by rewrite Hst|]. split; [exact Hfile|].
  erewrite isQueryable_lookup; [|exact Hl'|exact Hd']. by rewrite Hst.
Qed.
End Document_without_file.

(** The document of [w_reloaded] came back from the substrate without its
    file, in state UPLOADED. *)
Lemma parseDocument_without_file_witness :
  let r := DocumentStore.parseDocument "1000" 1005 w_reloaded in
  r.1 = Some false
  ∧ DocumentStore.heap r.2 !! 0%nat
    = Some (DocumentStore.set_state DocumentState.REQUIRES_REUPLOAD
              (DocumentStore.deref w_reloaded 0))
  ∧ DocumentStore.isQueryable "1000" r.2 = false
  ∧ DocumentStore.storage r.2 !! Storage.STORAGE_KEYS.documents
    = Some (Json.stringify
              (VObj [ ("version", VNum 2);
                      ("documents",
                       VArr [ VArr [ VStr "1000";
                                     VObj [ ("docId", VStr "1000");
                                            ("state", VStr "REQUIRES_REUPLOAD");
                                            ("metadata",
                                             VObj [ ("name", VStr "report.txt");
                                                    ("size", VNum 2048);
                                                    ("type", VStr "text/plain");
                                                    ("uploadedAt", VNum 1001) ]);
                                            ("parsedArtifactId", VNull);
                                            ("parseError", VNull) ] ] ]);
                      ("timestamp", VNum 1005) ]))
  ∧ ∃ l' d',
      Map_get (VStr "1000")
        (DocumentStore.documents
           (DocumentStore.restore nan_lt
              (DocumentStore.constructor (DocumentStore.storage r.2)))) = Some l'
      ∧ DocumentStore.heap
          (DocumentStore.restore nan_lt
             (DocumentStore.constructor (DocumentStore.storage r.2))) !! l' = Some d'
      ∧ state d' = VStr DocumentState.REQUIRES_REUPLOAD.
Proof.
  destruct (parseDocument_without_file_requires_reupload nan_lt "1000" 1005 w_reloaded 0
              (DocumentStore.deref w_reloaded 0))
    as (H1 & _ & H3 & _ & H5 & _ & Hrun); [by vm_compute..|].
  destruct (Hrun ops_reloaded ∅ eq_refl)
    as (_ & Hsaved & l' & d' & Hl' & Hd' & Hs & _).
  cbv zeta. split; [exact H1|]. split; [exact H3|]. split; [exact H5|].
  split; [rewrite Hsaved; reflexivity|].
  exists l', d'. split; [exact Hl'|]. split; [exact Hd'|exact Hs].
Defined.


(** ** Sessions across a reload *)

Section Session_reload.
Import SessionStore.
Context (coerced_lt : value → Z → option bool).
Implicit Types (w : world) (s : Session).

Lemma Map_get_cons {A} k k' (a : A) m :
  Map_get k ((k', a) :: m) = if same_value_zero k' k then Some a else Map_get k m.
Proof. done. Qed.

Lemma Map_get_set {A} k k' (a : A) m :
  Map_get k (Map_set k' a m) = if same_value_zero k' k then Some a else Map_get k m.
Proof.
  destruct (same_value_zero k' k) eqn:E.
  - pose proof (same_value_zero_eq _ _ E) as ->.
    by apply Map_get_set_eq.
  - by apply Map_get_set_ne.
Qed.

(** Filling a map entry by entry: the last entry for a key wins. *)
Lemma Map_get_fold_set {A B} (f : B → A) k (l : list (value * B)) m0 :
  Map_get k (fold_left (λ m e, Map_set e.1 (f e.2) m) l m0)
  = match Map_get k (rev l) with
    | Some x => Some (f x)
    | None => Map_get k m0
    end.
Proof.
  revert m0. induction l as [|[k' b] l IH] using rev_ind; intros m0; [done|].
  rewrite fold_left_app, rev_unit. cbn [fold_left fst snd].
  rewrite Map_get_set, Map_get_cons.
  destruct (same_value_zero k' k); [done|apply IH].
Qed.

Lemma Map_get_refl {A} k (m : list (value * A)) a :
  Map_get k m = Some a → same_value_zero k k = true.
Proof.
  induction m as [|[k' a'] m IH]; [done|]. cbn.
  destruct (same_value_zero k' k) eqn:E; [|done].
  intros _. by rewrite <- (same_value_zero_eq _ _ E) at 1.
Qed.

Lemma Map_get_None_elem {A} k (m : list (value * A)) :
  (∀ a, (k, a) ∉ m) → Map_get k m = None.
Proof.
  intros H. destruct (Map_get k m) as [a|] eqn:E; [|done].
  destruct (H a). by apply Map_get_Some_elem.
Qed.

Lemma storable_reloaded e :
  storable_session e = true →
  Json.element e.1 = e.1
  ∧ reloaded_session e.2
    = VObj [ ("sessionId", sessionId e.2); ("name", name e.2);
             ("state", sessionState e.2);
             ("activeDocumentIds", VArr (activeDocumentIds e.2));
             ("createdAt", createdAt e.2) ]
  ∧ Storage.validSession (Json.element e.1) (reloaded_session e.2) = truthy (name e.2)
  ∧ Session_of (reloaded_session e.2) = set_activeDocumentId VUndef e.2.
Proof.
  unfold storable_session. rewrite !andb_true_iff.
  intros ((((((((Hk & Hkj) & Hid) & Hidj) & Hn) & Hs) & Hsj) & Hids) & Hc).
  assert (Hr : reloaded_session e.2
               = VObj [ ("sessionId", sessionId e.2); ("name", name e.2);
                        ("state", sessionState e.2);
                        ("activeDocumentIds", VArr (activeDocumentIds e.2));
                        ("createdAt", createdAt e.2) ]).
  { unfold reloaded_session. rewrite properties_json; [done|].
    cbn. by rewrite Hidj, Hn, Hsj, Hids, Hc. }
  rewrite Hr, (element_json _ Hkj). split; [done|]. split; [done|]. split.
  - unfold Storage.validSession. rewrite !prop_VObj.
    cbn [own String.eqb Ascii.eqb Bool.eqb]. rewrite Hk, Hid, Hs. cbn.
    by destruct (truthy (name e.2)).
  - done.
Qed.

Lemma filter_valid_storable (m : list (value * Session)) :
  Forall (λ e, storable_session e = true) m →
  List.filter (λ p, Storage.validSession p.1 p.2)
    (map (λ e, (Json.element e.1, reloaded_session e.2)) m)
  = map (λ e, (e.1, reloaded_session e.2))
      (List.filter (λ e, truthy (name e.2)) m).
Proof.
  induction 1 as [|e m He _ IH]; [done|]. cbn [map List.filter fst snd].
  destruct (storable_reloaded e He) as (Hk & _ & Hv & _).
  rewrite Hv, IH. destruct (truthy (name e.2)); [|done].
  cbn [map]. by rewrite Hk.
Qed.

(** X17.  What a reload does to the sessions.  Take a Session Store whose
    sessions the codec can write and read back, save it, load the page
    again and restore.  The active session id is as before, and under each
    id the session comes back as it was, but without its active document,
    if its name is truthy; a session whose name is falsy does not come
    back. *)
Theorem sessions_survive_reload now w :
  Map_ok (sessions (store w)) →
  Forall (λ e, storable_session e = true) (sessions (store w)) →
  Json.json (activeSessionId (store w)) = true →
  let w' := restore coerced_lt
              {| store := constructor; storage := storage (persist now w) |} in
  activeSessionId (store w') = activeSessionId (store w)
  ∧ storage w' = storage (persist now w)
  ∧ ∀ k s, Map_get k (sessions (store w)) = Some s →
      Map_get k (sessions (store w'))
      = if truthy (name s) then Some (set_activeDocumentId VUndef s) else None.
Proof.
  intros Hok Hall Ha. cbn zeta.
  unfold restore. cbn [storage store persist].
  rewrite loadSessions_saveSessions. cbn [Storage.saved_sessions
    Storage.saved_activeSessionId store activeSessionId sessions storage constructor].
  rewrite (roundtrip_json _ Ha). split; [done|]. split; [done|].
  intros k s Hget. rewrite Map_get_fold_set. cbn [Map_get].
  rewrite (filter_valid_storable _ Hall).
  set (m := sessions (store w)) in *.
  pose proof (Map_get_refl _ _ _ Hget) as Hk.
  pose proof (Map_get_Some_elem _ _ _ Hget) as Hin.
  assert (Hentries : ∀ x,
            (k, x) ∈ rev (map (λ e, (e.1, reloaded_session e.2))
                            (List.filter (λ e, truthy (name e.2)) m))
            ↔ x = reloaded_session s ∧ truthy (name s) = true).
  { intros x. rewrite list_elem_of_In, <- in_rev, <- list_elem_of_In, list_elem_of_fmap.
    split.
    - intros ([k0 s0] & [= -> ->] & Hf).
      apply list_elem_of_In, filter_In in Hf as [Hf%list_elem_of_In Hn].
      cbn in Hn |- *.
      by rewrite (Map_ok_unique _ _ _ _ Hok Hf Hin Hk) in *.
    - intros [-> Hn]. exists (k, s). split; [done|].
      apply list_elem_of_In, filter_In. split; [by apply list_elem_of_In|done]. }
  destruct (truthy (name s)) eqn:Hn.
  - assert (His : is_Some (Map_get k
                     (rev (map (λ e, (e.1, reloaded_session e.2))
                             (List.filter (λ e, truthy (name e.2)) m))))).
    { apply (Map_get_elem_Some _ (reloaded_session s)); [|done].
      by apply Hentries. }
    destruct His as [x Hx]. rewrite Hx.
    apply Map_get_Some_elem, Hentries in Hx as [-> _].
    f_equal. rewrite Forall_forall in Hall.
    by destruct (storable_reloaded _ (Hall _ Hin)) as (_ & _ & _ & ?).
  - rewrite Map_get_None_elem; [done|].
    intros x [_ ?]%Hentries. done.
Qed.

End Session_reload.

(** ** [simpleHash] and [parseFile] *)

Section Hash.
Import DocumentStore.

Lemma to_int32_range z : - 2 ^ 31 ≤ to_int32 z < 2 ^ 31.
Proof.
  unfold to_int32.
  pose proof (Z.mod_pos_bound (z + 2 ^ 31) (2 ^ 32) eq_refl). lia.
Qed.

Lemma to_int32_add z k : to_int32 (z + k * 2 ^ 32) = to_int32 z.
Proof.
  unfold to_int32.
  replace (z + k * 2 ^ 32 + 2 ^ 31) with (z + 2 ^ 31 + k * 2 ^ 32) by lia.
  by rewrite Z_mod_plus_full.
Qed.

Lemma to_int32_spec z : ∃ k, to_int32 z = z + k * 2 ^ 32.
Proof.
  exists (- ((z + 2 ^ 31) / 2 ^ 32)). unfold to_int32.
  pose proof (Z.div_mod (z + 2 ^ 31) (2 ^ 32)). lia.
Qed.

Lemma to_int32_id z : - 2 ^ 31 ≤ z < 2 ^ 31 → to_int32 z = z.
Proof. intros H. unfold to_int32. rewrite Z.mod_small; lia. Qed.

Lemma simpleHash_round_spec h c :
  simpleHash_round (to_int32 h) c = to_int32 (31 * h + c).
Proof.
  unfold simpleHash_round. rewrite Z.land_diag.
  rewrite (to_int32_id (to_int32 h)) by apply to_int32_range.
  rewrite Z.shiftl_mul_pow2 by done.
  destruct (to_int32_spec h) as [k ->].
  destruct (to_int32_spec ((h + k * 2 ^ 32) * 2 ^ 5)) as [k' ->].
  replace ((h + k * 2 ^ 32) * 2 ^ 5 + k' * 2 ^ 32 - (h + k * 2 ^ 32) + c)
    with (31 * h + c + (31 * k + k') * 2 ^ 32) by lia.
  apply to_int32_add.
Qed.

Lemma fold_left_step {A B} (f : A → B → A) b l a :
  fold_left f (b :: l) a = fold_left f l (f a b).
Proof. done. Qed.

Lemma fold_simpleHash_round codes h :
  fold_left simpleHash_round codes (to_int32 h)
  = to_int32 (fold_left (λ h c, 31 * h + c) codes h).
Proof.
  revert h. induction codes as [|c codes IH]; intros h; [done|].
  rewrite !fold_left_step, simpleHash_round_spec. exact (IH _).
Qed.

(** X18.  The number that [simpleHash] prints is the polynomial in 31 of
    the code units of the string, reduced modulo 2^32 to the signed 32-bit
    range; for the empty string it is 0. *)
Theorem simpleHash_is_polynomial str :
  simpleHash_value str = to_int32 (horner (charCodes str))
  ∧ - 2 ^ 31 ≤ simpleHash_value str < 2 ^ 31
  ∧ simpleHash EmptyString = "0".
Proof.
  assert (H : simpleHash_value str = to_int32 (horner (charCodes str))).
  { unfold simpleHash_value, horner.
    change 0 with (to_int32 0) at 1. apply fold_simpleHash_round. }
  split; [done|]. split; [rewrite H; apply to_int32_range|]. by vm_compute.
Qed.

Lemma ceil_div_spec n k : 0 < k → k * (ceil_div n k - 1) < n ≤ k * ceil_div n k.
Proof.
  intros Hk. unfold ceil_div.
  pose proof (Z.div_mod (- n) k). pose proof (Z.mod_pos_bound (- n) k Hk). lia.
Qed.

(** X19.  The artifact that [parseFile] computes carries the clock as its
    id and has at least one page.  For a file of type text/plain, with [n]
    the number of lines of the text that are not blank: the chunks are the
    least number of tens that cover [n], none for a text without such a
    line; the pages are the least number of fifties that cover [n], but at
    least one; and the checksum is the hash of the text.  For any other
    file there is one page and one chunk, and the checksum is the hash of
    the file name alone. *)
Theorem parseFile_counts f text now :
  let r := parseFile f text now in
  let n := Z.of_nat (length (List.filter (existsb (λ c, negb (is_white c)))
                                (split_lines (charCodes text)))) in
  prop "artifactId" r = VStr (toString (now 0%nat))
  ∧ ∃ pages chunks,
      prop "pages" r = VNum pages ∧ prop "chunks" r = VNum chunks
      ∧ 1 ≤ pages ∧ 0 ≤ chunks ≤ 5 * pages ∧ pages ≤ Z.max 1 chunks
      ∧ if String.eqb (file_type f) "text/plain"
        then 10 * (chunks - 1) < n ≤ 10 * chunks
             ∧ 50 * (pages - 1) < Z.max 1 n ≤ 50 * pages
             ∧ prop "checksum" r = VStr (simpleHash text)
        else pages = 1 ∧ chunks = 1
             ∧ prop "checksum" r = VStr (simpleHash (file_name f)).
Proof.
  cbn zeta. unfold parseFile.
  set (n := Z.of_nat (length _)).
  destruct (String.eqb (file_type f) "text/plain").
  - split; [done|]. exists (Z.max 1 (ceil_div n 50)), (ceil_div n 10).
    split; [done|]. split; [done|].
    assert (0 ≤ n) by (unfold n; lia).
    pose proof (ceil_div_spec n 10 eq_refl). pose proof (ceil_div_spec n 50 eq_refl).
    repeat split; try lia.
  - split; [done|]. exists 1, 1. repeat split; try lia; done.
Qed.

End Hash.

(** ** The chat logs across a reload *)

Section Chat_reload.
Import ChatStore ChatRun.
Context (coerced_lt : value → Z → option bool).
Implicit Types (w : ChatStore.world) (st : state) (h : list cell).

Lemma Map_get_rev_map {A B} (g : A → B) (m : list (value * A)) k :
  Map_ok m →
  Map_get k (rev (map (λ e, (e.1, g e.2)) m)) = g <$> Map_get k m.
Proof.
  intros Hok.
  assert (Hentries : ∀ a x, Map_get k m = Some a →
            (k, x) ∈ rev (map (λ e, (e.1, g e.2)) m) → x = g a).
  { intros a x Hget.
    rewrite list_elem_of_In, <- in_rev, <- list_elem_of_In, list_elem_of_fmap.
    intros ([k0 a0] & [= -> ->] & Hin). cbn. f_equal.
    apply (Map_ok_unique k0 a0 a m Hok Hin); [by apply Map_get_Some_elem|].
    by eapply Map_get_refl. }
  destruct (Map_get k m) as [a|] eqn:Hget; cbn.
  - assert (His : is_Some (Map_get k (rev (map (λ e, (e.1, g e.2)) m)))).
    { apply (Map_get_elem_Some _ (g a)); [|by eapply Map_get_refl].
      rewrite list_elem_of_In, <- in_rev, <- list_elem_of_In, list_elem_of_fmap.
      exists (k, a). split; [done|]. by apply Map_get_Some_elem. }
    destruct His as [x Hx]. rewrite Hx. f_equal.
    apply (Hentries a x eq_refl). by apply Map_get_Some_elem.
  - destruct (Map_get k (rev (map (λ e, (e.1, g e.2)) m))) as [x|] eqn:E; [|done].
    pose proof (Map_get_refl _ _ _ E) as Hk.
    apply Map_get_Some_elem in E.
    rewrite list_elem_of_In, <- in_rev, <- list_elem_of_In, list_elem_of_fmap in E.
    destruct E as ([k0 a0] & [= -> ->] & Hin).
    destruct (Map_get_elem_Some _ _ _ Hin Hk) as [? ?]. congruence.
Qed.

Lemma array_holds_app h ext a msgs :
  array_holds h a msgs → array_holds (h ++ ext) a msgs.
Proof.
  intros (elems & Ha & Hel). exists elems. split; [by apply lookup_app_l_Some|].
  eapply Forall2_impl; [exact Hel|]. intros x v Hx. by apply lookup_app_l_Some.
Qed.

Lemma alloc_array msgs h :
  array_holds (alloc (VArr msgs) h).2 (alloc (VArr msgs) h).1 msgs
  ∧ (alloc (VArr msgs) h).2
    = h ++ (map Obj msgs ++ [Arr (seq (length h) (length msgs))]).
Proof.
  cbn [alloc fst snd]. split; [|done].
  exists (seq (length h) (length msgs)). split.
  - rewrite app_assoc. by apply list_lookup_middle.
  - apply Forall2_lookup. intros i.
    destruct (decide (i < length msgs)%nat) as [Hi|Hi].
    + rewrite lookup_seq_lt by done.
      destruct (lookup_lt_is_Some_2 msgs i Hi) as [v Hv]. rewrite Hv.
      constructor. rewrite lookup_app_r by lia.
      replace (length h + i - length h)%nat with i by lia.
      apply lookup_app_l_Some. by rewrite list_lookup_fmap, Hv.
    + rewrite lookup_seq_ge by lia. rewrite lookup_ge_None_2 by lia. constructor.
Qed.

(** Filling the map from stored entries whose values are arrays. *)
Lemma fold_restore_entry_spec (es : list (value * list value)) acc :
  let r := fold_left restore_entry (map (λ e, (e.1, VArr e.2)) es) acc in
  (∃ ext, r.2 = acc.2 ++ ext)
  ∧ ∀ k, match Map_get k (rev es) with
         | Some msgs => ∃ a, Map_get k r.1 = Some a ∧ array_holds r.2 a msgs
         | None => Map_get k r.1 = Map_get k acc.1
         end.
Proof.
  induction es as [|[k' msgs] es IH] using rev_ind; cbn zeta.
  - split; [exists []; by rewrite app_nil_r|done].
  - rewrite map_app, fold_left_app, rev_unit. cbn [map fold_left fst snd].
    set (r := fold_left restore_entry (map (λ e, (e.1, VArr e.2)) es) acc) in *.
    destruct IH as [[ext Hext] IH].
    destruct (alloc_array msgs r.2) as [Hholds Hheap].
    unfold restore_entry. cbn [fst snd].
    split.
    { rewrite Hheap, Hext, <- app_assoc. eauto. }
    intros k. rewrite Map_get_cons, Map_get_set.
    destruct (same_value_zero k' k); [eauto|].
    specialize (IH k). destruct (Map_get k (rev es)) as [msgs0|]; [|done].
    destruct IH as (a & Ha & Hh). exists a. split; [done|].
    rewrite Hheap. by apply array_holds_app.
Qed.

Lemma observe_holds w s a msgs :
  truthy (VStr s) = true →
  Map_get (VStr s) (sessionMessages w) = Some a →
  array_holds (heap w) a msgs →
  observe s w = Some msgs.
Proof.
  intros Hs Hget (elems & Ha & Hel).
  unfold observe, getMessages. rewrite Hs, Hget, Ha.
  cbn [negb mbind option_bind new_array fst snd heap]. f_equal. unfold items.
  rewrite elements_alloc, (elements_lookup _ _ _ Ha).
  generalize [Arr elems]. intros ext.
  clear Ha. induction Hel as [|x v elems msgs Hx _ IH]; [done|].
  cbn [map]. f_equal; [|done].
  apply object_at_lookup. by apply lookup_app_l_Some.
Qed.

Lemma observe_nothing w s :
  truthy (VStr s) = false ∨ Map_get (VStr s) (sessionMessages w) = None →
  observe s w = Some [].
Proof.
  intros H.
  assert (Hget : getMessages s w = Some (new_array [] w)).
  { unfold getMessages. destruct H as [-> | H]; [done|].
    rewrite H. by destruct (truthy (VStr s)). }
  unfold observe. rewrite Hget. cbn [mbind option_bind new_array fst snd heap].
  unfold items. by rewrite elements_alloc.
Qed.

Lemma log_holds st s a :
  chat_ok st → truthy (VStr s) = true →
  Map_get (VStr s) (sessionMessages (world st)) = Some a →
  array_holds (heap (world st)) a (log (world st) s).
Proof.
  intros [Harr _ _] Hs Hget. unfold log. rewrite Hs, Hget.
  destruct (Harr _ _ (Map_get_Some_elem _ _ _ Hget)) as (_ & elems & Ha & Hel).
  exists elems. split; [done|]. rewrite (items_lookup _ _ _ Ha).
  clear Ha. induction Hel as [|x elems [v Hv] _ IH]; constructor; [|done].
  by rewrite (object_at_lookup _ _ _ Hv).
Qed.

(** The logs of the store being arrays, the entries of the map are pairs
    of a key and an array of messages. *)
Lemma entries_arrays st :
  chat_ok st →
  entries (world st)
  = VArr (map (λ e, VArr [e.1; VArr (items (heap (world st)) e.2)])
            (sessionMessages (world st))).
Proof.
  intros [Harr _ _]. unfold entries. f_equal.
  apply map_ext_in. intros [k a] Hin%list_elem_of_In. cbn [fst snd].
  destruct (Harr _ _ Hin) as (_ & elems & Ha & _).
  by rewrite (value_at_array _ _ _ Ha).
Qed.

Lemma entries_frame st h' :
  chat_ok st → frame (heap (world st)) h' (held st) →
  map (λ e, VArr [e.1; value_at h' e.2]) (sessionMessages (world st))
  = map (λ e, VArr [e.1; value_at (heap (world st)) e.2])
      (sessionMessages (world st)).
Proof.
  intros [Harr _ _] Hframe. apply map_ext_in. intros [k a] Hin%list_elem_of_In.
  cbn [fst snd].
  destruct (array_ok_frame _ _ _ [] a Hframe (Harr _ _ Hin))
    as [(_ & elems' & Ha' & _) Hitems]; [apply not_elem_of_nil|].
  destruct (Harr _ _ Hin) as (_ & elems & Ha & _).
  by rewrite (value_at_array _ _ _ Ha), (value_at_array _ _ _ Ha'), Hitems.
Qed.

Lemma step_frame st o :
  chat_ok st →
  (∀ s role content evidence now, o ≠ AddMessage s role content evidence now) →
  sessionMessages (world (step st o)) = sessionMessages (world st)
  ∧ storage (world (step st o)) = storage (world st)
  ∧ frame (heap (world st)) (heap (world (step st o))) (held st).
Proof.
  intros Hok Hno.
  destruct o as [s role content evidence now|s|r elems|b].
  - by destruct (Hno s role content evidence now).
  - unfold step. rewrite (getMessages_arrays st s Hok). unfold new_array.
    cbn. split; [done|]. split; [done|].
    intros x c Hx. right. by apply lookup_app_l_Some.
  - unfold step. case_bool_decide as Hr.
    + destruct Hok as [_ _ Hheld]. destruct (Hheld _ Hr) as [e He].
      cbn. split; [done|]. split; [done|]. rewrite He.
      intros x c Hx. destruct (decide (x = r)) as [->|Hne].
      * left. split; [done|]. exists e. congruence.
      * right. by rewrite list_lookup_insert_ne.
    + split; [done|]. split; [done|]. intros x c Hx. by right.
  - cbn. split; [done|]. split; [done|]. intros x c Hx. by right.
Qed.

Lemma addMessage_storage s role content evidence now w returned :
  truthy (VStr s) = true →
  addMessage s role content evidence now w = Some returned →
  storage returned.2
  = Storage.saveMessages (entries returned.2) (now 2%nat) (storage w).
Proof.
  intros Hs. unfold addMessage. rewrite Hs. cbn [negb].
  destruct (Map_get (VStr s) (sessionMessages w)); cbv zeta beta iota.
  all: destruct (_ !! _) as [[|]|]; [|done..]; by intros [= <-].
Qed.

Lemma Forall_keys_Map_set {A} (Q : value → Prop) k (a : A) m :
  Forall (λ e, Q e.1) m → Q k → Forall (λ e, Q e.1) (Map_set k a m).
Proof.
  intros Hm Hk. induction Hm as [|[k' a'] m H Hm IH]; cbn.
  - by constructor.
  - destruct (same_value_zero k' k); constructor; done.
Qed.

Lemma addMessage_keys s role content evidence now w returned :
  chat_keys w → addMessage s role content evidence now w = Some returned →
  chat_keys returned.2.
Proof.
  intros [Hok Hkeys]. unfold addMessage.
  destruct (truthy (VStr s)) eqn:Hs; cbn [negb]; [|by intros [= <-]].
  destruct (Map_get (VStr s) (sessionMessages w)); cbv zeta beta iota.
  all: destruct (_ !! _) as [[|]|]; [|done..]; intros [= <-].
  all: unfold chat_keys; cbn.
  - done.
  - split; [by apply Map_ok_set|].
    apply (Forall_keys_Map_set (λ k, ∃ s, k = VStr s ∧ truthy (VStr s) = true));
      [done|]. eauto.
Qed.

Lemma getMessages_map s w returned :
  getMessages s w = Some returned →
  sessionMessages returned.2 = sessionMessages w.
Proof.
  unfold getMessages, new_array_of, new_array. intros H.
  repeat (match type of H with
          | context [match ?x with _ => _ end] => destruct x
          end); try discriminate; by injection H as <-.
Qed.

Lemma step_keys st o : chat_keys (world st) → chat_keys (world (step st o)).
Proof.
  intros H. destruct o as [s role content evidence now|s|r elems|b]; cbn [step].
  - destruct (addMessage s role content evidence now (world st)) as [returned|] eqn:E;
      [|done].
    by apply (addMessage_keys s role content evidence now (world st)).
  - destruct (getMessages s (world st)) as [[r w1]|] eqn:E; [|done].
    pose proof (getMessages_map s (world st) (r, w1) E) as Hm. cbn [snd] in Hm.
    unfold chat_keys. cbn [world]. by rewrite Hm.
  - by case_bool_decide.
  - done.
Qed.

Lemma step_synced st o :
  chat_ok st → chat_synced (world st) → chat_synced (world (step st o)).
Proof.
  intros Hok Hsync.
  destruct o as [s role content evidence now|s|r elems|b].
  { destruct (truthy (VStr s)) eqn:Hs.
    - cbn [step].
      destruct (addMessage s role content evidence now (world st)) as [returned|] eqn:E;
        [|done].
      right. exists (now 2%nat). cbn [world].
      rewrite (addMessage_storage s role content evidence now _ _ Hs E).
      unfold Storage.saveMessages. apply setItem_eq.
    - assert (Hst : step st (AddMessage s role content evidence now) = st).
      { unfold step, addMessage. rewrite Hs. by destruct st. }
      by rewrite Hst. }
  1: destruct (step_frame st (GetMessages s) Hok) as (Hm & Hls & Hframe); [done|].
  2: destruct (step_frame st (MutateArray r elems) Hok) as (Hm & Hls & Hframe);
       [done|].
  3: destruct (step_frame st (SetSending b) Hok) as (Hm & Hls & Hframe); [done|].
  all: pose proof (entries_frame st _ Hok Hframe) as He.
  all: destruct Hsync as [[Hnil Hnone]|[now Hsome]];
         [left; by rewrite Hm, Hls|right; exists now].
  all: rewrite Hls, Hsome; unfold entries; by rewrite Hm, He.
Qed.

Lemma run_synced ops st :
  chat_ok st → chat_keys (world st) → chat_synced (world st) →
  chat_keys (world (run ops st)) ∧ chat_synced (world (run ops st)).
Proof.
  revert st. induction ops as [|o ops IH]; intros st Hok Hkeys Hsync; [done|].
  cbn [run fold_left]. apply IH.
  - by destruct (step_chat_ok st o Hok).
  - by apply step_keys.
  - by apply step_synced.
Qed.

Lemma history_json ops s :
  Forall (λ o, storable_message o = true) ops →
  forallb Json.json (history ops s) = true.
Proof.
  induction 1 as [|o ops Ho _ IH]; [done|].
  destruct o as [s' role content evidence now| | |]; cbn [history]; try done.
  destruct (truthy (VStr s') && String.eqb s' s); [|done].
  cbn [forallb]. rewrite IH, andb_true_r.
  unfold storable_message in Ho. rewrite !andb_true_iff in Ho.
  destruct Ho as [[Hr Hc] He].
  unfold message. cbn. rewrite Hr, Hc. cbn.
  destruct evidence; cbn in He |- *; by rewrite ?He.
Qed.

Lemma mapM_map_Some {A B C} (f : B → option C) (g : A → B) (g' : A → C) (l : list A) :
  (∀ x, f (g x) = Some (g' x)) → mapM f (map g l) = Some (map g' l).
Proof.
  intros H. apply mapM_Some. induction l; constructor; [apply H|done].
Qed.

Lemma log_lookup w s a :
  truthy (VStr s) = true → Map_get (VStr s) (sessionMessages w) = Some a →
  log w s = items (heap w) a.
Proof. intros Hs Hget. unfold log. by rewrite Hs, Hget. Qed.

(** X20.  The chat logs survive a reload.  After any run of the Chat
    Store in a browser that held no messages, with messages that JSON
    expresses, a new store over the same substrate restores without
    throwing, leaves the substrate as it is, and [getMessages] returns for
    every session id the messages that were added to that session, in
    their order. *)
Theorem chat_survives_reload ops ls :
  ls !! Storage.STORAGE_KEYS.messages = None →
  Forall (λ o, storable_message o = true) ops →
  let w := world (run ops (initial ls)) in
  ∃ w', restore coerced_lt (constructor [] (storage w)) = Some w'
        ∧ storage w' = storage w
        ∧ ∀ sessionId, observe sessionId w' = Some (history ops sessionId).
Proof.
  intros Hls Hops. cbn zeta.
  destruct (run_chat_ok ops (initial ls) (initial_chat_ok ls)) as [Hok Hlog].
  assert (Hhist : ∀ s, log (world (run ops (initial ls))) s = history ops s).
  { intros s. rewrite Hlog. unfold log. cbn [initial world sessionMessages constructor Map_get].
    by destruct (truthy (VStr s)). }
  destruct (run_synced ops (initial ls) (initial_chat_ok ls)) as [[Hmap Hkeys] Hsync].
  { split; [constructor|by constructor]. }
  { left. by split. }
  set (st := run ops (initial ls)) in *. set (w := world st) in *.
  destruct Hsync as [[Hnil Hnone]|[now Hsome]].
  - exists (constructor [] (storage w)). split.
    { unfold restore. cbn [storage constructor].
      by rewrite (loadMessages_absent coerced_lt _ Hnone). }
    split; [done|]. intros s. rewrite <- Hhist, observe_nothing; [|by right].
    unfold log. rewrite Hnil. by destruct (truthy (VStr s)).
  - pose proof (entries_arrays st Hok) as Hent. fold w in Hent.
    rewrite Hent in Hsome. clear Hent.
    set (m := sessionMessages w) in *. set (h := heap w) in *.
    set (L := map (λ e, VArr [e.1; VArr (items h e.2)]) m).
    assert (HL : forallb Json.json L = true).
    { apply forallb_forall. intros x Hx%in_map_iff. destruct Hx as ([k a] & <- & Hin).
      apply list_elem_of_In in Hin. cbn [fst snd].
      rewrite Forall_forall in Hkeys. destruct (Hkeys _ Hin) as (s & Hk & Hs).
      cbn in Hk. subst k.
      destruct (Map_get_elem_Some _ _ _ Hin (same_value_zero_str s)) as [a' Ha'].
      pose proof (Map_ok_unique _ _ _ _ Hmap (Map_get_Some_elem _ _ _ Ha') Hin
                    (same_value_zero_str s)) as ->.
      change (Json.json (VArr [VStr s; VArr (items h a)]))
        with (true && (forallb Json.json (items h a) && true)).
      pose proof (log_lookup w s a Hs Ha') as Hl. fold h in Hl.
      rewrite <- Hl, Hhist, history_json; done. }
    assert (Hload : Storage.loadMessages coerced_lt (storage w)
                    = (Some {| Storage.saved_sessionMessages := VArr L;
                               Storage.messages_timestamp := VNum now |},
                       storage w)).
    { unfold Storage.loadMessages.
      rewrite (loadMessages_written coerced_lt L now (storage w) Hsome).
      by rewrite (map_element_json _ HL). }
    set (es := map (λ e, (e.1, items h e.2)) m).
    destruct (fold_restore_entry_spec es ([], [])) as [_ Hspec].
    assert (Hes : map (λ e : value * list value, (e.1, VArr e.2)) es
                  = map (λ e, (e.1, VArr (items h e.2))) m).
    { unfold es. rewrite map_map. done. }
    rewrite Hes in Hspec.
    set (acc := fold_left restore_entry (map (λ e, (e.1, VArr (items h e.2))) m)
                  ([], [])) in *.
    exists {| sessionMessages := acc.1; isSending := false; heap := acc.2;
              storage := storage w |}.
    split.
    { unfold restore. cbn [storage constructor heap isSending]. rewrite Hload.
      cbn [Storage.saved_sessionMessages truthy].
      unfold L. erewrite mapM_map_Some; [done|]. done. }
    split; [done|]. intros s. rewrite <- Hhist.
    destruct (truthy (VStr s)) eqn:Hs.
    2:{ rewrite observe_nothing by (by left). unfold log. by rewrite Hs. }
    specialize (Hspec (VStr s)). unfold es in Hspec.
    rewrite (Map_get_rev_map (items h) m (VStr s) Hmap) in Hspec.
    destruct (Map_get (VStr s) m) as [a|] eqn:Hget; cbn [fmap option_fmap option_map] in Hspec.
    + destruct Hspec as (a' & Ha' & Hholds).
      rewrite (observe_holds {| sessionMessages := acc.1; isSending := false;
                                heap := acc.2; storage := storage w |}
                 s a' (items h a) Hs Ha' Hholds).
      f_equal. symmetry. by apply log_lookup.
    + rewrite observe_nothing by (by right).
      unfold log. fold m. by rewrite Hs, Hget.
Qed.

Lemma mapM_entry_of_None items :
  mapM entry_of items = None ↔ Exists (λ x, isObject x = false) items.
Proof.
  rewrite eq_None_not_Some, mapM_is_Some. split.
  - intros H. induction items as [|x items IH]; [destruct H; constructor|].
    destruct (isObject x) eqn:Hx; [|by left]. right. apply IH. intros Hall.
    apply H. constructor; [|done]. destruct x; try done; cbn; eauto.
  - intros Hex Hall. induction Hex as [x items Hx|x items _ IH].
    + apply Forall_cons_1 in Hall as [[? Hs] _]. cbn in Hs. by destruct x.
    + apply Forall_cons_1 in Hall as [_ ?]. by apply IH.
Qed.

(** X21.  [restore] of the Chat Store throws exactly when the stored data
    are of the current version and their [sessionMessages] is an array
    with an element that is not an object; in every other case it returns. *)
Theorem chat_restore_throws w :
  restore coerced_lt w = None
  ↔ ∃ data items,
      storage w !! Storage.STORAGE_KEYS.messages = Some (Json.Text data)
      ∧ Storage.outdated coerced_lt data = Some false
      ∧ prop "sessionMessages" data = VArr items
      ∧ Exists (λ x, isObject x = false) items.
Proof.
  unfold restore, Storage.loadMessages, Storage.loadMessages_try, getItem.
  destruct (storage w !! Storage.STORAGE_KEYS.messages) as [[| |data]|] eqn:Hls;
    cbn [Json.parse mbind option_bind].
  1,2,4: split; [done|]; intros (d & its & Hd & _); discriminate.
  destruct (Storage.outdated coerced_lt data) as [[|]|] eqn:Ho;
    cbn [mbind option_bind].
  1,3: split; [done|]; intros (d & its & Hd & Hq & _); congruence.
  destruct (prop "sessionMessages" data) as [| |b|n|s|items|props] eqn:Hp;
    cbn [truthy isArray negb orb].
  1,2: split; [done|]; intros (d & its & Hd & _ & Hq & _); congruence.
  4: { cbn [Storage.saved_sessionMessages truthy].
       destruct (mapM entry_of items) as [es|] eqn:Hm.
       - cbn [mbind option_bind]. split; [done|].
         intros (d & its & Hd & _ & Hq & Hex). injection Hd as <-.
         rewrite Hp in Hq. injection Hq as <-.
         apply mapM_entry_of_None in Hex. congruence.
       - cbn [mbind option_bind]. split; [|done]. intros _.
         exists data, items. repeat split; try done.
         by apply mapM_entry_of_None. }
  all: rewrite ?orb_true_r.
  all: split; [done|]; intros (d & its & Hd & _ & Hq & _); congruence.
Qed.

Lemma holds_log_app h ext a v : holds_log h a v → holds_log (h ++ ext) a v.
Proof.
  destruct v; cbn [holds_log]; try (by apply lookup_app_l_Some).
  apply array_holds_app.
Qed.

Lemma alloc_holds v h :
  holds_log (alloc v h).2 (alloc v h).1 v ∧ ∃ ext, (alloc v h).2 = h ++ ext.
Proof.
  destruct v as [| |b|n|s|items|props].
  6: { destruct (alloc_array items h) as [H1 H2]. split; [exact H1|].
       rewrite H2. eauto. }
  all: cbn [alloc holds_log fst snd]; split; [by apply list_lookup_middle|eauto].
Qed.

(** Filling the map from any stored entries: the last entry for a key
    wins. *)
Lemma fold_restore_entry_last (es : list (value * value)) acc :
  let r := fold_left restore_entry es acc in
  (∃ ext, r.2 = acc.2 ++ ext)
  ∧ ∀ k, match Map_get k (rev es) with
         | Some v => ∃ a, Map_get k r.1 = Some a ∧ holds_log r.2 a v
         | None => Map_get k r.1 = Map_get k acc.1
         end.
Proof.
  induction es as [|[k' v] es IH] using rev_ind; cbn zeta.
  - split; [exists []; by rewrite app_nil_r|done].
  - rewrite fold_left_app, rev_unit. cbn [fold_left].
    set (r := fold_left restore_entry es acc) in *.
    destruct IH as [[ext Hext] IH].
    destruct (alloc_holds v r.2) as [Hholds [ext' Hheap]].
    unfold restore_entry. cbn [fst snd].
    split.
    { rewrite Hheap, Hext, <- app_assoc. eauto. }
    intros k. rewrite Map_get_cons, Map_get_set.
    destruct (same_value_zero k' k); [eauto|].
    specialize (IH k). destruct (Map_get k (rev es)) as [v0|]; [|done].
    destruct IH as (a & Ha & Hh). exists a. split; [done|].
    rewrite Hheap. by apply holds_log_app.
Qed.

Lemma items_new_array_of vs w :
  items (heap (new_array_of vs w).2) (new_array_of vs w).1 = vs.
Proof.
  unfold new_array_of, new_array. cbn [fst snd heap]. unfold items.
  rewrite elements_alloc.
  apply list_eq. intros i. rewrite list_lookup_fmap.
  destruct (decide (i < length vs)%nat) as [Hi|Hi].
  - rewrite lookup_seq_lt by done. cbn [fmap option_fmap option_map].
    destruct (lookup_lt_is_Some_2 vs i Hi) as [v Hv]. rewrite Hv. f_equal.
    apply object_at_lookup. apply lookup_app_l_Some.
    rewrite lookup_app_r by lia.
    replace (length (heap w) + i - length (heap w))%nat with i by lia.
    by rewrite list_lookup_fmap, Hv.
  - rewrite lookup_seq_ge by lia. cbn [fmap option_fmap option_map].
    symmetry. apply lookup_ge_None_2. lia.
Qed.

(** X27.  A stored log that is not an array.  When the stored messages are
    of the current version and the last entry of their [sessionMessages]
    for a session id has a log that is not an array, [restore] returns with
    that log in the map.  From then on [addMessage] for the session throws;
    [getMessages] returns an empty array when the log is falsy and the
    characters of the log when it is a text, and throws when it is another
    number, [true] or an object. *)
Theorem log_that_is_no_array w data stored es sessionId v :
  storage w !! Storage.STORAGE_KEYS.messages = Some (Json.Text data) →
  Storage.outdated coerced_lt data = Some false →
  prop "sessionMessages" data = VArr stored →
  mapM entry_of stored = Some es →
  Map_get (VStr sessionId) (rev es) = Some v →
  truthy (VStr sessionId) = true →
  (∀ msgs, v ≠ VArr msgs) →
  ∃ w', restore coerced_lt w = Some w'
    ∧ (∀ role content evidence now,
         addMessage sessionId role content evidence now w' = None)
    ∧ observe sessionId w'
      = (if truthy v
         then match v with VStr s => Some (characters s) | _ => None end
         else Some []).
Proof.
  intros Hls Ho Hp Hm Hget Hs Hv.
  destruct (fold_restore_entry_last es ([], heap w)) as [_ Hspec].
  specialize (Hspec (VStr sessionId)). rewrite Hget in Hspec.
  destruct Hspec as (a & Ha & Hh).
  set (acc := fold_left restore_entry es ([], heap w)) in *.
  assert (Hcell : acc.2 !! a = Some (Obj v)).
  { destruct v as [| |b|n|s|msgs|props]; try exact Hh. by destruct (Hv msgs). }
  exists {| sessionMessages := acc.1; isSending := isSending w; heap := acc.2;
            storage := storage w |}.
  split.
  { unfold restore, Storage.loadMessages, Storage.loadMessages_try, getItem.
    rewrite Hls. cbn [Json.parse mbind option_bind]. rewrite Ho.
    cbn [mbind option_bind]. rewrite Hp.
    cbn [truthy isArray negb orb Storage.saved_sessionMessages].
    rewrite Hm. done. }
  split.
  { intros role content evidence now. unfold addMessage. rewrite Hs.
    cbn [negb sessionMessages heap]. rewrite Ha. cbv zeta beta iota.
    by rewrite (lookup_app_l_Some _ _ _ _ Hcell). }
  unfold observe, getMessages. rewrite Hs. cbn [negb sessionMessages heap].
  rewrite Ha, Hcell.
  destruct (truthy v) eqn:Ht.
  - destruct v as [| |b|n|s|msgs|props]; try done.
    + cbn [mbind option_bind]. f_equal. apply items_new_array_of.
    + by destruct (Hv msgs).
  - cbn [mbind option_bind new_array fst snd heap]. unfold items.
    by rewrite elements_alloc.
Qed.

End Chat_reload.

(** ** The validation of a chosen file *)

Section Upload_facts.
Import Upload.

Lemma lower_dot c : Ascii.eqb (lower c) "."%char = Ascii.eqb c "."%char.
Proof. destruct c as [[] [] [] [] [] [] [] []]; by vm_compute. Qed.

Lemma lastIndexOf_dot_lower s : lastIndexOf_dot (toLowerCase s) = lastIndexOf_dot s.
Proof.
  induction s as [|c s IH]; [done|]. cbn [toLowerCase lastIndexOf_dot].
  by rewrite IH, lower_dot.
Qed.

Lemma substring_lastIndexOf stem rest :
  lastIndexOf_dot rest = -1 →
  lastIndexOf_dot (stem +:+ String "." rest) = Z.of_nat (String.length stem)
  ∧ substring (Z.of_nat (String.length stem)) (stem +:+ String "." rest)
    = String "." rest.
Proof.
  intros Hrest. induction stem as [|c stem [IH1 IH2]].
  - change (EmptyString +:+ String "." rest) with (String "." rest).
    cbn [lastIndexOf_dot String.length]. rewrite Hrest. done.
  - change (String c stem +:+ String "." rest)
      with (String c (stem +:+ String "." rest)).
    cbn [lastIndexOf_dot String.length]. rewrite IH1. split.
    + destruct (0 <=? Z.of_nat (String.length stem)) eqn:E; [lia|].
      apply Z.leb_gt in E. lia.
    + unfold substring in *. rewrite Nat2Z.id in *. done.
Qed.

Lemma drop_chars_suffix n s : ∃ stem, s = stem +:+ drop_chars n s.
Proof.
  revert s. induction n as [|n IH]; intros s; [by exists EmptyString|].
  destruct s as [|c s]; [by exists EmptyString|].
  destruct (IH s) as [stem Hs]. exists (String c stem).
  change (String c stem +:+ drop_chars (S n) (String c s))
    with (String c (stem +:+ drop_chars n s)). by rewrite <- Hs.
Qed.

(** The extension is one of the three exactly when the name, in lower
    case, ends with it. *)
Lemma getFileExtension_allowed filename ext :
  In ext allowedExtensions →
  getFileExtension filename = ext ↔ ∃ stem, toLowerCase filename = stem +:+ ext.
Proof.
  intros Hext. unfold getFileExtension. split.
  - intros <-. apply drop_chars_suffix.
  - intros [stem Hs]. rewrite <- lastIndexOf_dot_lower, Hs.
    assert (∃ rest, ext = String "." rest ∧ lastIndexOf_dot rest = -1)
      as (rest & -> & Hrest).
    { destruct Hext as [<-|[<-|[<-|[]]]]; eexists; split; try reflexivity; done. }
    destruct (substring_lastIndexOf stem rest Hrest) as [-> ->]. done.
Qed.


Lemma existsb_eqb x l : existsb (String.eqb x) l = true ↔ In x l.
Proof.
  rewrite existsb_exists. split.
  - intros (y & Hy & ->%String.eqb_eq). done.
  - intros H. exists x. split; [done|apply String.eqb_refl].
Qed.

(** X22.  For a file whose name has no code unit above 255, as the strings
    of this embedding are: [handleFileUpload] accepts the file, and hands
    back that file, exactly when its type is one of the three document
    types or its name, in lower case, ends with .pdf, .docx or .txt, and
    its size is neither zero nor above ten megabytes.  A file of the wrong
    kind is refused as such whatever its size; of the files of the right
    kind, those above ten megabytes are refused as too large and those of
    size zero as empty. *)
Theorem handleFileUpload_accepts file :
  let kind :=
    In (file_type file) allowedTypes
    ∨ ∃ stem ext, In ext allowedExtensions
                  ∧ toLowerCase (file_name file) = stem +:+ ext in
  (∀ f, handleFileUpload file = Success f → f = file)
  ∧ (handleFileUpload file = Success file
     ↔ kind ∧ file_size file ≤ 10485760 ∧ file_size file ≠ 0)
  ∧ (handleFileUpload file = Failure "Upload a PDF, DOCX, or TXT" ↔ ¬ kind)
  ∧ (handleFileUpload file = Failure "File too large. Use files under 10MB"
     ↔ kind ∧ 10485760 < file_size file)
  ∧ (handleFileUpload file = Failure "File is empty. Choose another file"
     ↔ kind ∧ file_size file = 0).
Proof.
  cbn zeta.
  set (kind := In (file_type file) allowedTypes
               ∨ ∃ stem ext, In ext allowedExtensions
                             ∧ toLowerCase (file_name file) = stem +:+ ext).
  assert (Hkind : negb (existsb (String.eqb (file_type file)) allowedTypes)
                  && negb (existsb (String.eqb (getFileExtension (file_name file)))
                             allowedExtensions) = false ↔ kind).
  { rewrite andb_false_iff, !negb_false_iff, !existsb_eqb. unfold kind. split.
    - intros [H|H]; [by left|right].
      destruct (proj1 (getFileExtension_allowed (file_name file) _ H) eq_refl)
        as [stem Hstem]. eauto.
    - intros [H|(stem & ext & Hext & Hs)]; [by left|right].
      assert (getFileExtension (file_name file) = ext) as ->; [|done].
      apply getFileExtension_allowed; eauto. }
  unfold handleFileUpload, maxSize. change (10 * 1024 * 1024) with 10485760.
  destruct (negb (existsb (String.eqb (file_type file)) allowedTypes)
            && negb (existsb (String.eqb (getFileExtension (file_name file)))
                       allowedExtensions)) eqn:E.
  - assert (¬ kind) as Hno. { intros H%Hkind. done. }
    repeat split; try done; try tauto.
  - assert (kind) as Hyes by by apply Hkind.
    destruct (10485760 <? file_size file) eqn:E1.
    + apply Z.ltb_lt in E1. repeat split; try done; try tauto; try lia.
    + apply Z.ltb_ge in E1. destruct (file_size file =? 0) eqn:E2.
      * apply Z.eqb_eq in E2. repeat split; try done; try tauto; try lia.
      * apply Z.eqb_neq in E2. repeat split; try done; try tauto; try lia.
        by intros f [= <-].
Qed.

End Upload_facts.

(** ** The application: the stores together *)

Section App_facts.
Context (coerced_lt : value → Z → option bool).

Lemma isQueryable_at_false k w :
  Forall (λ d, is_str (state d) DocumentState.PARSED = false) (DocumentStore.heap w) →
  DocumentStore.isQueryable_at k w = false.
Proof.
  intros Hall. unfold DocumentStore.isQueryable_at.
  destruct (Map_get k (DocumentStore.documents w)) as [l|]; cbn; [|done].
  assert (H : is_str (state (DocumentStore.deref w l)) DocumentState.PARSED = false).
  { by apply (deref_Forall (λ d, is_str (state d) DocumentState.PARSED = false)). }
  by rewrite H.
Qed.

Lemma restore_activeDocumentId ls k s :
  sessions_written ls →
  (k, s) ∈ SessionStore.sessions
             (SessionStore.store
                (SessionStore.restore coerced_lt
                   {| SessionStore.store := SessionStore.constructor;
                      SessionStore.storage := ls |})) →
  activeDocumentId s = VUndef.
Proof.
  intros Hw Hin. unfold SessionStore.restore in Hin. cbn [SessionStore.storage] in Hin.
  destruct Hw as [Hnone|(m & a & now & ls0 & ->)].
  - rewrite (loadSessions_nothing coerced_lt _ Hnone) in Hin.
    by apply elem_of_nil in Hin.
  - rewrite loadSessions_saveSessions in Hin.
    cbn [SessionStore.store SessionStore.sessions Storage.saved_sessions
         SessionStore.constructor] in Hin.
    assert (Hall : Forall (λ e : value * Session, activeDocumentId e.2 = VUndef)
              (fold_left (λ m0 entry, Map_set entry.1 (SessionStore.Session_of entry.2) m0)
                 (List.filter (λ p, Storage.validSession p.1 p.2)
                    (map (λ e, (Json.element e.1, reloaded_session e.2)) m)) [])).
    { apply fold_Map_set_Forall; [|done].
      apply Forall_forall. intros e He%list_elem_of_In%filter_In k0.
      destruct He as [He _]. apply in_map_iff in He as (e0 & He0 & _).
      subst e. cbn. apply reloaded_session_activeDocumentId. }
    rewrite Forall_forall in Hall. exact (Hall _ Hin).
Qed.

(** X23.  After [init] on the stores of a new page, whatever the
    substrate holds: no document is queryable and no question can be
    asked; and when the sessions of the substrate were written by the
    codec, or there are none, no document is selected. *)
Theorem nothing_to_ask_after_init ls a :
  App.init coerced_lt (App.start ls) = Some a →
  App.canAskQuestions a = false
  ∧ (∀ docId, DocumentStore.isQueryable docId (App.documents_of a) = false)
  ∧ (sessions_written ls → App.getActiveDocument a = None).
Proof.
  unfold App.init. cbn zeta.
  set (sw := SessionStore.restore coerced_lt (App.sessions_of (App.start ls))).
  set (dw := DocumentStore.restore coerced_lt _).
  destruct (ChatStore.restore coerced_lt _) as [c|]; [|done].
  cbn [mbind option_bind]. intros [= <-].
  assert (Hdw : dw = DocumentStore.restore coerced_lt
                       (DocumentStore.constructor (SessionStore.storage sw))) by done.
  assert (Hheap : Forall (λ d, is_str (state d) DocumentState.PARSED = false)
                    (DocumentStore.heap dw)).
  { rewrite Hdw.
    destruct (restore_constructor_heap coerced_lt (SessionStore.storage sw))
      as (es & -> & _).
    apply Forall_forall. intros d (e & -> & _)%list_elem_of_fmap.
    apply restored_not_PARSED. }
  split.
  { unfold App.canAskQuestions. destruct (App.getActiveDocument _); [|done].
    by apply isQueryable_at_false. }
  split.
  { intros docId. by apply isQueryable_false. }
  intros Hw. unfold App.getActiveDocument, App.getActiveSession,
    SessionStore.getActiveSession.
  cbn [App.put_chat App.put_documents App.put_sessions App.sessionStore].
  destruct (truthy _); [|done].
  destruct (Map_get _ _) as [s|] eqn:Hget; [|done].
  apply Map_get_Some_elem in Hget.
  by rewrite (restore_activeDocumentId ls _ s Hw Hget).
Qed.

Lemma includes_false l docId :
  ¬ In (VStr docId) l → includes l (VStr docId) = false.
Proof.
  intros H. destruct (includes l (VStr docId)) eqn:E; [|done].
  by apply includes_In in E.
Qed.

(** A new document for the active session. *)
Lemma upload_new file clock a s :
  App.getActiveSession a = Some s →
  sessionId s = SessionStore.activeSessionId (App.sessionStore a) →
  ¬ In (VStr (toString (clock 0%nat))) (activeDocumentIds s) →
  let r := DocumentStore.addDocument file clock (App.documents_of a) in
  let a1 := App.put_documents r.2 a in
  let a' := App.put_sessions
              (SessionStore.addDocumentToSession_at (sessionId s) r.1 (clock 3%nat)
                 (App.sessions_of a1)) a1 in
  ∃ s' l,
    App.getActiveSession a' = Some s'
    ∧ activeDocumentId s' = VStr (toString (clock 0%nat))
    ∧ activeDocumentIds s' = activeDocumentIds s ++ [VStr (toString (clock 0%nat))]
    ∧ App.getActiveDocument a' = Some l
    ∧ App.heap a' !! l = Some (fresh_document file clock)
    ∧ App.canAskQuestions a' = false.
Proof.
  intros Hs Hid Hfresh. cbn zeta.
  unfold App.getActiveSession, SessionStore.getActiveSession in Hs.
  destruct (truthy (SessionStore.activeSessionId (App.sessionStore a))) eqn:Ht;
    [|done].
  rewrite <- Hid in Hs.
  set (docid := toString (clock 0%nat)) in *.
  set (s' := set_activeDocumentId (VStr docid)
               (set_activeDocumentIds (activeDocumentIds s ++ [VStr docid]) s)).
  set (l := length (App.heap a)).
  assert (Ha' : ∃ ls,
    App.put_sessions
      (SessionStore.addDocumentToSession_at (sessionId s)
         (DocumentStore.addDocument file clock (App.documents_of a)).1 (clock 3%nat)
         (App.sessions_of
            (App.put_documents
               (DocumentStore.addDocument file clock (App.documents_of a)).2 a)))
      (App.put_documents (DocumentStore.addDocument file clock (App.documents_of a)).2 a)
    = {| App.sessionStore :=
           {| SessionStore.sessions :=
                Map_set (sessionId s) s' (SessionStore.sessions (App.sessionStore a));
              SessionStore.activeSessionId :=
                SessionStore.activeSessionId (App.sessionStore a) |};
         App.documents := Map_set (VStr docid) l (App.documents a);
         App.heap := App.heap a ++ [fresh_document file clock];
         App.awaiting := App.awaiting a;
         App.sessionMessages := App.sessionMessages a;
         App.isSending := App.isSending a;
         App.cells := App.cells a;
         App.pendingReuploadDocId := App.pendingReuploadDocId a;
         App.storage := ls |}).
  { eexists. unfold SessionStore.addDocumentToSession_at, DocumentStore.addDocument.
    cbn [fst snd App.sessions_of App.put_documents App.sessionStore
         SessionStore.store SessionStore.sessions DocumentStore.persist
         DocumentStore.documents DocumentStore.heap DocumentStore.awaiting
         DocumentStore.storage App.documents_of].
    rewrite Hs. fold docid. rewrite (includes_false _ _ Hfresh). cbn [negb].
    reflexivity. }
  destruct Ha' as [ls ->].
  assert (Hl : (App.heap a ++ [fresh_document file clock]) !! l
               = Some (fresh_document file clock)) by by apply list_lookup_middle.
  assert (Hget : Map_get (VStr docid) (Map_set (VStr docid) l (App.documents a))
                 = Some l) by apply Map_get_set_eq, same_value_zero_str.
  exists s', l. split.
  { unfold App.getActiveSession, SessionStore.getActiveSession.
    cbn [App.sessionStore SessionStore.activeSessionId SessionStore.sessions].
    rewrite Ht, <- Hid. apply Map_get_set_eq. by eapply Map_get_refl. }
  split; [done|]. split; [done|].
  assert (Hdoc : App.getActiveDocument
                   {| App.sessionStore :=
                        {| SessionStore.sessions :=
                             Map_set (sessionId s) s'
                               (SessionStore.sessions (App.sessionStore a));
                           SessionStore.activeSessionId :=
                             SessionStore.activeSessionId (App.sessionStore a) |};
                      App.documents := Map_set (VStr docid) l (App.documents a);
                      App.heap := App.heap a ++ [fresh_document file clock];
                      App.awaiting := App.awaiting a;
                      App.sessionMessages := App.sessionMessages a;
                      App.isSending := App.isSending a;
                      App.cells := App.cells a;
                      App.pendingReuploadDocId := App.pendingReuploadDocId a;
                      App.storage := ls |} = Some l).
  { unfold App.getActiveDocument, App.getActiveSession, SessionStore.getActiveSession.
    cbn [App.sessionStore SessionStore.activeSessionId SessionStore.sessions
         App.documents].
    rewrite Ht, <- Hid, Map_get_set_eq by (by eapply Map_get_refl).
    cbn [activeDocumentId s' set_activeDocumentId]. subst docid.
    by rewrite truthy_toString. }
  split; [done|]. split; [done|].
  unfold App.canAskQuestions. rewrite Hdoc.
  set (dw := App.documents_of _).
  assert (Hl' : DocumentStore.heap dw !! l = Some (fresh_document file clock))
    by exact Hl.
  assert (Hget' : Map_get (VStr docid) (DocumentStore.documents dw) = Some l)
    by exact Hget.
  rewrite (deref_lookup dw l _ Hl'). unfold DocumentStore.isQueryable_at.
  cbn [docId fresh_document]. fold docid. rewrite Hget'.
  cbn [fmap option_fmap option_map]. by rewrite (deref_lookup dw l _ Hl').
Qed.

(** X24.  A new document, from the file input to the stores.  Let the
    chosen file pass the validation, with no re-upload pending, the active
    session (if there is one) stored under its own id, and the clock not
    giving the id of a document that the session has.  Then
    [handleFileSelection] returns; there is an active session, created now
    when there was none; the new document is the last of its documents and
    the selected one; [getActiveDocument] returns it, in state UPLOADED
    with the file; and no question can be asked yet. *)
Theorem upload_selects_the_document file now a :
  Upload.handleFileUpload file = Upload.Success file →
  App.pendingReuploadDocId a = None →
  let created := match App.getActiveSession a with Some _ => 0%nat | None => 3%nat end in
  let clock := λ i, now (created + i)%nat in
  (∀ s, App.getActiveSession a = Some s →
        sessionId s = SessionStore.activeSessionId (App.sessionStore a)
        ∧ ¬ In (VStr (toString (clock 0%nat))) (activeDocumentIds s)) →
  ∃ a' s' l ids,
    App.handleFileSelection (Some file) now a = Some a'
    ∧ App.getActiveSession a' = Some s'
    ∧ activeDocumentId s' = VStr (toString (clock 0%nat))
    ∧ activeDocumentIds s' = ids ++ [VStr (toString (clock 0%nat))]
    ∧ App.getActiveDocument a' = Some l
    ∧ App.heap a' !! l = Some (fresh_document file clock)
    ∧ App.canAskQuestions a' = false.
Proof.
  intros Hfile Hpending. cbn zeta. intros Hactive.
  unfold App.handleFileSelection. rewrite Hfile.
  destruct (App.getActiveSession a) as [s|] eqn:Hs.
  - destruct (Hactive s eq_refl) as [Hid Hfresh].
    rewrite Hs. cbn [mbind option_bind]. rewrite Hpending.
    destruct (upload_new file (λ i, now (0 + i)%nat) a s Hs Hid Hfresh)
      as (s' & l & H1 & H2 & H3 & H4 & H5 & H6).
    destruct (DocumentStore.addDocument file (λ i, now (0 + i)%nat)
                (App.documents_of a)) as [docId w].
    eexists _, s', l, _. split; [reflexivity|]. eauto 10.
  - clear Hactive.
    set (a0 := App.createSession now a).
    set (s0 := {| sessionId := VStr (toString (now 0%nat));
                  name := VStr "Untitled Session";
                  sessionState := VStr SessionState.ACTIVE;
                  activeDocumentIds := []; activeDocumentId := VNull;
                  createdAt := VNum (now 1%nat) |}).
    assert (Hs0 : App.getActiveSession a0 = Some s0).
    { unfold App.getActiveSession, SessionStore.getActiveSession.
      cbn [a0 App.createSession App.put_sessions App.sessionStore
           SessionStore.createSession snd SessionStore.persist SessionStore.store
           SessionStore.activeSessionId SessionStore.sessions].
      rewrite truthy_toString. apply Map_get_set_eq, same_value_zero_str. }
    rewrite Hs0. cbn [mbind option_bind].
    change (App.pendingReuploadDocId a0) with (App.pendingReuploadDocId a).
    rewrite Hpending.
    destruct (upload_new file (λ i, now (3 + i)%nat) a0 s0 Hs0 eq_refl)
      as (s' & l & H1 & H2 & H3 & H4 & H5 & H6); [by intros []|].
    destruct (DocumentStore.addDocument file (λ i, now (3 + i)%nat)
                (App.documents_of a0)) as [docId w].
    eexists _, s', l, _. split; [reflexivity|]. eauto 10.
Qed.

Lemma app_documents_lookup a l d :
  App.heap a !! l = Some d → DocumentStore.heap (App.documents_of a) !! l = Some d.
Proof. done. Qed.

Lemma canAskQuestions_lookup a s docid l d :
  App.getActiveSession a = Some s →
  activeDocumentId s = VStr docid → docid ≠ EmptyString →
  Map_get (VStr docid) (App.documents a) = Some l →
  App.heap a !! l = Some d →
  docId d = VStr docid →
  App.canAskQuestions a
  = is_str (state d) DocumentState.PARSED
    && negb (match parsedArtifactId d with VNull => true | _ => false end).
Proof.
  intros Hs Hsel Hne Hget Hl Hid.
  unfold App.canAskQuestions, App.getActiveDocument. rewrite Hs, Hsel.
  assert (truthy (VStr docid) = true) as ->.
  { cbn. by destruct (String.eqb_spec docid EmptyString). }
  rewrite Hget.
  pose proof (app_documents_lookup a l d Hl) as Hl'.
  rewrite (deref_lookup _ _ _ Hl'), Hid. unfold DocumentStore.isQueryable_at.
  change (DocumentStore.documents (App.documents_of a)) with (App.documents a).
  rewrite Hget. cbn [fmap option_fmap option_map].
  by rewrite (deref_lookup _ _ _ Hl').
Qed.

(** X25.  From the selected document to the questions.  Let the selected
    document of the active session be known to the Document Store under
    its own id, in state UPLOADED with its file.  No question can be asked
    before the parse nor while it is under way; after a reply of the
    backend whose [documentId] is not [null], questions can be asked;
    after a failure they cannot. *)
Theorem questions_after_parse a s docid l d f now now' result artifact :
  App.getActiveSession a = Some s →
  activeDocumentId s = VStr docid → docid ≠ EmptyString →
  Map_get (VStr docid) (App.documents a) = Some l →
  App.heap a !! l = Some d →
  docId d = VStr docid →
  file d = Some f →
  is_str (state d) DocumentState.UPLOADED = true →
  get_prop "documentId" result = Some artifact → artifact ≠ VNull →
  let a1 := App.parseDocument docid now a in
  App.canAskQuestions a = false
  ∧ App.canAskQuestions a1 = false
  ∧ App.canAskQuestions
      (App.parseDocument_resume l (DocumentStore.Result result) now' a1) = true
  ∧ ∀ message,
      App.canAskQuestions
        (App.parseDocument_resume l (DocumentStore.Thrown message) now' a1) = false.
Proof.
  intros Hs Hsel Hne Hget Hl Hid Hf Hst Hart Hnull. cbn zeta.
  assert (Hup : state d = VStr DocumentState.UPLOADED).
  { destruct (state d); try done. cbn in Hst. by apply String.eqb_eq in Hst as ->. }
  split.
  { rewrite (canAskQuestions_lookup a s docid l d) by done. by rewrite Hup. }
  unfold App.parseDocument.
  rewrite (parseDocument_start docid now (App.documents_of a) l d f Hget
             (app_documents_lookup a l d Hl) Hf Hst). cbn [snd].
  set (g := λ doc, DocumentStore.set_parseError VNull
                     (DocumentStore.set_state DocumentState.PARSING doc)).
  set (a1 := App.put_documents _ a).
  assert (Hl1 : App.heap a1 !! l = Some (g d)).
  { cbn. by rewrite list_lookup_alter_eq, Hl. }
  assert (Hs1 : App.getActiveSession a1 = Some s) by exact Hs.
  assert (Hget1 : Map_get (VStr docid) (App.documents a1) = Some l) by exact Hget.
  split.
  { by rewrite (canAskQuestions_lookup a1 s docid l (g d)). }
  split.
  - unfold App.parseDocument_resume.
    rewrite (resume_success l result artifact now' _ Hart). cbn [snd].
    set (g' := λ doc, DocumentStore.set_state DocumentState.PARSED
                        (DocumentStore.set_parsedArtifactId artifact doc)).
    set (a2 := App.put_documents _ a1).
    assert (Hl2 : App.heap a2 !! l = Some (g' (g d))).
    { cbn. rewrite list_lookup_alter_eq.
      change (alter g l (App.heap a) !! l) with (App.heap a1 !! l). by rewrite Hl1. }
    rewrite (canAskQuestions_lookup a2 s docid l (g' (g d))) by done.
    cbn. by destruct artifact.
  - intros message. unfold App.parseDocument_resume.
    rewrite resume_failure. cbn [snd].
    set (g' := λ doc, DocumentStore.set_parseError (VStr message)
                        (DocumentStore.set_state DocumentState.PARSE_FAILED doc)).
    set (a2 := App.put_documents _ a1).
    assert (Hl2 : App.heap a2 !! l = Some (g' (g d))).
    { cbn. rewrite list_lookup_alter_eq.
      change (alter g l (App.heap a) !! l) with (App.heap a1 !! l). by rewrite Hl1. }
    by rewrite (canAskQuestions_lookup a2 s docid l (g' (g d))).
Qed.

(** X26.  A re-upload, from the file input to the stores.  Let a
    re-upload be pending for a document that the Document Store knows under
    its own id and that the active session has, the session stored under
    its own id, and let the chosen file pass the validation.  Then
    [handleFileSelection] returns; nothing is pending any more; the
    document is the selected one, in state UPLOADED with the new file and
    no parse error, its metadata and artifact id as before; and no
    question can be asked yet. *)
Theorem reupload_selects_the_document file now a pending s l d :
  Upload.handleFileUpload file = Upload.Success file →
  App.pendingReuploadDocId a = Some pending → pending ≠ EmptyString →
  App.getActiveSession a = Some s →
  sessionId s = SessionStore.activeSessionId (App.sessionStore a) →
  In (VStr pending) (activeDocumentIds s) →
  Map_get (VStr pending) (App.documents a) = Some l →
  App.heap a !! l = Some d →
  docId d = VStr pending →
  ∃ a', App.handleFileSelection (Some file) now a = Some a'
    ∧ App.pendingReuploadDocId a' = None
    ∧ App.getActiveDocument a' = Some l
    ∧ App.heap a' !! l
      = Some {| docId := docId d; state := VStr DocumentState.UPLOADED;
                metadata := metadata d; file := Some file;
                parsedArtifactId := parsedArtifactId d; parseError := VNull;
                requiresReupload := false |}
    ∧ App.canAskQuestions a' = false.
Proof.
  intros Hfile Hpending Hne Hs Hid Hin Hget Hl Hdoc.
  assert (Ht : truthy (VStr pending) = true).
  { cbn. by destruct (String.eqb_spec pending EmptyString). }
  pose proof Hs as Hs'.
  unfold App.getActiveSession, SessionStore.getActiveSession in Hs'.
  destruct (truthy (SessionStore.activeSessionId (App.sessionStore a))) eqn:Hta;
    [|done].
  rewrite <- Hid in Hs'.
  unfold App.handleFileSelection. rewrite Hfile, Hs. cbv beta iota zeta.
  rewrite Hs. cbn [mbind option_bind]. rewrite Hpending, Ht.
  unfold DocumentStore.reuploadDocument.
  change (DocumentStore.documents (App.documents_of a)) with (App.documents a).
  rewrite Hget. cbv beta iota zeta.
  set (g := λ doc, DocumentStore.set_requiresReupload false
                     (DocumentStore.set_parseError VNull
                        (DocumentStore.set_state DocumentState.UPLOADED
                           (DocumentStore.set_file (Some file) doc)))).
  set (a1 := App.put_documents _ a).
  unfold SessionStore.setActiveDocument_at.
  change (SessionStore.sessions (SessionStore.store (App.sessions_of a1)))
    with (SessionStore.sessions (App.sessionStore a)).
  rewrite Hs', (proj2 (includes_str _ _) Hin).
  set (s' := set_activeDocumentId (VStr pending) s).
  eexists. split; [reflexivity|]. split; [done|].
  set (a' := App.set_pendingReuploadDocId None _).
  assert (Hs2 : App.getActiveSession a' = Some s').
  { unfold App.getActiveSession, SessionStore.getActiveSession.
    cbn [a' a1 App.set_pendingReuploadDocId App.put_sessions App.sessionStore
         SessionStore.persist SessionStore.store SessionStore.activeSessionId
         SessionStore.sessions App.sessions_of App.put_documents].
    rewrite Hta, <- Hid. apply Map_get_set_eq. by eapply Map_get_refl. }
  assert (Hl2 : App.heap a' !! l = Some (g d)).
  { cbn. by rewrite list_lookup_alter_eq, Hl. }
  assert (Hget2 : Map_get (VStr pending) (App.documents a') = Some l) by exact Hget.
  split.
  { unfold App.getActiveDocument. rewrite Hs2. cbn [s' set_activeDocumentId
      activeDocumentId]. by rewrite Ht. }
  split; [exact Hl2|].
  by rewrite (canAskQuestions_lookup a' s' pending l (g d)).
Qed.

End App_facts.

(** ** Worked examples *)

Lemma loadConfig_saveConfig_witness :
  Storage.loadConfig (Storage.saveConfig config_xai ∅) = config_xai.
Proof. apply (proj2 (loadConfig_saveConfig config_xai ∅)). reflexivity. Defined.

Lemma writes_are_confined_witness :
  Storage.saveDocuments [] 5 (Storage.saveConfig config_xai ∅)
    !! Storage.STORAGE_KEYS.config
  = Storage.saveConfig config_xai ∅ !! Storage.STORAGE_KEYS.config.
Proof.
  destruct (writes_are_confined nan_lt [] VNull [] VNull VNull 5) as (_ & H & _).
  apply H. discriminate.
Defined.

Lemma loaders_read_own_key_witness :
  Storage.loadConfig (Storage.saveSessions [] VNull 1 ∅) = Storage.loadConfig ∅.
Proof.
  destruct (loaders_read_own_key nan_lt (Storage.saveSessions [] VNull 1 ∅) ∅)
    as (_ & _ & _ & H).
  apply H. by vm_compute.
Defined.

Lemma loadSessions_keeps_the_valid_witness :
  ∃ saved,
    (Storage.loadSessions nan_lt
       (Storage.saveSessions [(VStr "s1", session_work)] (VStr "s1") 2 ∅)).1
    = Some saved
    ∧ (Storage.loadSessions nan_lt
         (Storage.saveSessions [(VStr "s1", session_work)] (VStr "s1") 2 ∅)).2
      = Storage.saveSessions [(VStr "s1", session_work)] (VStr "s1") 2 ∅.
Proof.
  assert (E : ∃ saved,
            (Storage.loadSessions nan_lt
               (Storage.saveSessions [(VStr "s1", session_work)] (VStr "s1") 2 ∅)).1
            = Some saved) by (vm_compute; eauto).
  destruct E as [saved E]. exists saved. split; [exact E|].
  exact (proj1 (loadSessions_keeps_the_valid nan_lt _ saved E)).
Defined.

Lemma loadDocuments_is_pessimistic_witness :
  ∃ saved,
    (Storage.loadDocuments nan_lt
       (Storage.saveDocuments [(VStr "d1", doc_parsing)] 2 ∅)).1 = Some saved
    ∧ Forall (λ e, is_str (prop "state" e.2) DocumentState.PARSING = false)
        (Storage.saved_documents saved).
Proof.
  assert (E : ∃ saved,
            (Storage.loadDocuments nan_lt
               (Storage.saveDocuments [(VStr "d1", doc_parsing)] 2 ∅)).1
            = Some saved) by (vm_compute; eauto).
  destruct E as [saved E]. exists saved. split; [exact E|].
  destruct (loadDocuments_is_pessimistic nan_lt _ saved E) as [_ H].
  eapply Forall_impl; [exact H|]. intros e He. apply He.
Defined.

Lemma createSession_activates_witness :
  Map_get (VStr "other")
    (SessionStore.sessions
       (SessionStore.store
          (SessionStore.createSession (VStr "Work") (clock 1) SessionRun.initial).2))
  = None
  ∧ SessionStore.storage
      (SessionStore.createSession (VStr "Work") (clock 1) SessionRun.initial).2
      !! Storage.STORAGE_KEYS.sessions
    = Some (Json.stringify
              (VObj [ ("version", VNum 2);
                      ("sessions",
                       VArr [ VArr [ VStr "1";
                                     VObj [ ("sessionId", VStr "1");
                                            ("name", VStr "Work");
                                            ("state", VStr "ACTIVE");
                                            ("activeDocumentIds", VArr []);
                                            ("createdAt", VNum 2) ] ] ]);
                      ("activeSessionId", VStr "1");
                      ("timestamp", VNum 3) ])).
Proof.
  destruct (createSession_activates (VStr "Work") (clock 1) SessionRun.initial)
    as (_ & _ & H & _ & Hsaved).
  split.
  - rewrite H; [reflexivity|]. vm_compute. discriminate.
  - rewrite Hsaved. reflexivity.
Defined.

Lemma setActiveSession_switches_witness :
  SessionStore.getActiveSession
    (SessionStore.store (SessionStore.setActiveSession "1" 9 w_session))
  = Some session_1
  ∧ SessionStore.storage (SessionStore.setActiveSession "1" 9 w_session)
      !! Storage.STORAGE_KEYS.sessions
    = Some (Json.stringify
              (VObj [ ("version", VNum 2);
                      ("sessions",
                       VArr [ VArr [ VStr "1";
                                     VObj [ ("sessionId", VStr "1");
                                            ("name", VStr "Work");
                                            ("state", VStr "ACTIVE");
                                            ("activeDocumentIds",
                                             VArr [ VStr "d1"; VStr "d2" ]);
                                            ("createdAt", VNum 2) ] ] ]);
                      ("activeSessionId", VStr "1");
                      ("timestamp", VNum 9) ])).
Proof.
  destruct (setActiveSession_switches "1" 9 w_session) as [_ H].
  destruct (H session_1) as (H1 & _ & _ & Hsaved); [by vm_compute|discriminate|].
  split; [exact H1|]. rewrite Hsaved. reflexivity.
Defined.

Lemma addDocumentToSession_adds_once_witness :
  Map_get (VStr "1")
    (SessionStore.sessions
       (SessionStore.store (SessionStore.addDocumentToSession "1" "d3" 10 w_session)))
  = Some (set_activeDocumentId (VStr "d3")
            (set_activeDocumentIds [VStr "d1"; VStr "d2"; VStr "d3"] session_1)).
Proof.
  destruct (addDocumentToSession_adds_once "1" "d3" 10 11 w_session) as [H _].
  apply (H session_1); [by vm_compute|].
  intros [H1|[H1|[]]]; discriminate.
Defined.

Lemma addDocument_uploads_witness :
  Map_get (VStr "other")
    (DocumentStore.documents
       (DocumentStore.addDocument report_txt (clock 1000)
          (DocumentStore.constructor ∅)).2)
  = None
  ∧ DocumentStore.storage
      (DocumentStore.addDocument report_txt (clock 1000)
         (DocumentStore.constructor ∅)).2 !! Storage.STORAGE_KEYS.documents
    = Some (Json.stringify
              (VObj [ ("version", VNum 2);
                      ("documents",
                       VArr [ VArr [ VStr "1000";
                                     VObj [ ("docId", VStr "1000");
                                            ("state", VStr "UPLOADED");
                                            ("metadata",
                                             VObj [ ("name", VStr "report.txt");
                                                    ("size", VNum 2048);
                                                    ("type", VStr "text/plain");
                                                    ("uploadedAt", VNum 1001) ]);
                                            ("parsedArtifactId", VNull);
                                            ("parseError", VNull) ] ] ]);
                      ("timestamp", VNum 1002) ])).
Proof.
  destruct (addDocument_uploads report_txt (clock 1000) (DocumentStore.constructor ∅))
    as (_ & _ & _ & H & _ & _ & Hsaved).
  split.
  - rewrite H; [reflexivity|]. vm_compute. discriminate.
  - rewrite (Hsaved _ eq_refl). reflexivity.
Defined.

Lemma reuploadDocument_resets_witness :
  (DocumentStore.reuploadDocument "1000" report_txt 1030 w_failed).1 = true
  ∧ (DocumentStore.parseDocument "1000" 1031
       (DocumentStore.reuploadDocument "1000" report_txt 1030 w_failed).2).1 = None.
Proof.
  destruct (reuploadDocument_resets "1000" report_txt 1030 1031 w_failed) as [_ H].
  destruct (H 0%nat (DocumentStore.deref w_failed 0)) as (H1 & _ & _ & H2);
    [by vm_compute|by vm_compute|].
  split; [exact H1|exact H2].
Defined.

Lemma parseDocument_starts_only_from_UPLOADED_witness :
  (DocumentStore.parseDocument "1000" 1005 w_uploaded).1 = None
  ∧ DocumentStore.storage (DocumentStore.parseDocument "1000" 1005 w_uploaded).2
      !! Storage.STORAGE_KEYS.documents
    = Some (Json.stringify
              (VObj [ ("version", VNum 2);
                      ("documents",
                       VArr [ VArr [ VStr "1000";
                                     VObj [ ("docId", VStr "1000");
                                            ("state", VStr "PARSING");
                                            ("metadata",
                                             VObj [ ("name", VStr "report.txt");
                                                    ("size", VNum 2048);
                                                    ("type", VStr "text/plain");
                                                    ("uploadedAt", VNum 1001) ]);
                                            ("parsedArtifactId", VNull);
                                            ("parseError", VNull) ] ] ]);
                      ("timestamp", VNum 1005) ])).
Proof.
  pose proof (parseDocument_starts_only_from_UPLOADED "1000" 1005 w_uploaded 0%nat
                (fresh_document report_txt (clock 1000))) as H.
  cbv zeta in H.
  change (is_str (state (fresh_document report_txt (clock 1000)))
            DocumentState.UPLOADED) with true in H.
  cbv beta iota in H.
  destruct H as (H1 & _ & _ & _ & _ & _ & Hsaved);
    [by vm_compute|by vm_compute|by eexists|].
  split; [exact H1|]. rewrite (Hsaved _ eq_refl). reflexivity.
Defined.

Lemma reupload_then_parse_recovers_witness :
  DocumentStore.isQueryable "1000"
    (DocumentStore.parseDocument_resume 0 (DocumentStore.Result parse_reply) 1032
       (DocumentStore.parseDocument "1000" 1031
          (DocumentStore.reuploadDocument "1000" report_txt 1030 w_failed).2).2).2
  = true.
Proof.
  apply (reupload_then_parse_recovers "1000" report_txt 1030 1031 1032 w_failed 0%nat
           (DocumentStore.deref w_failed 0) parse_reply (VStr "1000"));
    [by vm_compute|by vm_compute|reflexivity|discriminate].
Defined.

Lemma parse_against_backend_witness :
  let parsed (w : DocumentStore.world) (req : Backend.request) :=
    (DocumentStore.parseDocument_resume 0
       (DocumentStore.response_reply
          (Backend.parse extname_plain req "2024-01-01T00:00:00.000Z").1
          (Backend.parse extname_plain req "2024-01-01T00:00:00.000Z").2)
       1010 (DocumentStore.parseDocument "1000" 1005 w).2).2 in
  (∃ d', DocumentStore.getDocument "1000" (parsed w_uploaded req_report) = Some d'
         ∧ state d' = VStr DocumentState.PARSED)
  ∧ Upload.handleFileUpload report_bin = Upload.Success report_bin
  ∧ (∃ d', DocumentStore.getDocument "1000" (parsed w_uploaded_bin req_report_bin)
           = Some d'
           ∧ parseError d' = VStr "Only PDF, DOCX, and TXT files are supported").
Proof.
  cbv zeta. split; [|split; [by vm_compute|]].
  - destruct (parse_against_backend extname_plain "1000" 1005 1010 w_uploaded 0%nat
                (fresh_document report_txt (clock 1000)) report_txt req_report
                "2024-01-01T00:00:00.000Z") as (_ & d' & Hd & _ & Hif & _);
      [by vm_compute|by vm_compute|reflexivity|reflexivity|reflexivity|reflexivity
      |by vm_compute|].
    exists d'. split; [exact Hd|].
    assert (E : ((Backend.parse extname_plain req_report "2024-01-01T00:00:00.000Z").1
                =? 200) = true) by (by vm_compute).
    rewrite E in Hif. by destruct Hif as (_ & _ & ? & _).
  - destruct (parse_against_backend extname_plain "1000" 1005 1010 w_uploaded_bin 0%nat
                (fresh_document report_bin (clock 1000)) report_bin req_report_bin
                "2024-01-01T00:00:00.000Z") as (_ & d' & Hd & _ & _ & Hno);
      [by vm_compute|by vm_compute|reflexivity|reflexivity|reflexivity|reflexivity
      |by vm_compute|].
    exists d'. split; [exact Hd|]. apply Hno. by vm_compute.
Defined.

Lemma documents_survive_reload_witness :
  ∃ l' d',
    Map_get (VStr "1000")
      (DocumentStore.documents
         (DocumentStore.restore nan_lt
            (DocumentStore.constructor
               (DocumentStore.storage
                  (DocumentStore.persist 1006
                     (DocumentRun.run nan_lt ops_parsing
                        (DocumentStore.constructor ∅))))))) = Some l'
    ∧ DocumentStore.heap
        (DocumentStore.restore nan_lt
           (DocumentStore.constructor
              (DocumentStore.storage
                 (DocumentStore.persist 1006
                    (DocumentRun.run nan_lt ops_parsing
                       (DocumentStore.constructor ∅)))))) !! l' = Some d'
    ∧ state d' = VStr DocumentState.PARSE_FAILED
    ∧ file d' = None.
Proof.
  destruct (documents_survive_reload nan_lt ops_parsing ∅ 1006 "1000" 0%nat
              (DocumentStore.deref
                 (DocumentRun.run nan_lt ops_parsing (DocumentStore.constructor ∅)) 0))
    as (l' & d' & H1 & H2 & H3 & _ & H4 & _); [by vm_compute|by vm_compute|].
  exists l', d'. split; [exact H1|]. split; [exact H2|]. split; [|exact H4].
  rewrite H3. by vm_compute.
Defined.

Lemma sessions_survive_reload_witness :
  SessionStore.activeSessionId
    (SessionStore.store
       (SessionStore.restore nan_lt
          {| SessionStore.store := SessionStore.constructor;
             SessionStore.storage :=
               SessionStore.storage (SessionStore.persist 20 w_session) |}))
  = VStr "1".
Proof.
  destruct (sessions_survive_reload nan_lt 20 w_session) as (H & _).
  - vm_compute. repeat constructor.
  - vm_compute. repeat constructor.
  - by vm_compute.
  - rewrite H. by vm_compute.
Defined.

Lemma chat_survives_reload_witness :
  ∃ w',
    ChatStore.restore nan_lt (ChatStore.constructor [] (ChatStore.storage w_chat))
    = Some w'
    ∧ ChatRun.observe "S" w'
      = Some [ ChatRun.message (VStr "user") (VStr "hi") VUndef (clock 1);
               ChatRun.message (VStr "assistant") (VStr "hello") VUndef (clock 5) ].
Proof.
  destruct (chat_survives_reload nan_lt ops_chat ∅) as (w' & H1 & _ & H2).
  - apply lookup_empty.
  - repeat constructor.
  - exists w'. split; [exact H1|]. rewrite H2. by vm_compute.
Defined.

Lemma chat_restore_throws_witness : ChatStore.restore nan_lt w_bad_chat = None.
Proof.
  apply (proj2 (chat_restore_throws nan_lt w_bad_chat)).
  exists (VObj [ ("version", VNum 2); ("sessionMessages", VArr [VNum 1]) ]), [VNum 1].
  split; [by vm_compute|]. split; [reflexivity|]. split; [reflexivity|].
  left. reflexivity.
Defined.

(** A file without a type, accepted by the extension of its name. *)
Lemma handleFileUpload_accepts_witness :
  Upload.handleFileUpload notes_TXT = Upload.Success notes_TXT.
Proof.
  destruct (handleFileUpload_accepts notes_TXT) as (_ & [_ H] & _).
  apply H. split.
  - right. exists "notes", ".txt". split; [right; right; left; reflexivity|reflexivity].
  - split; [by vm_compute|discriminate].
Defined.

(** The page is loaded again after a document has been uploaded and
    parsed: the substrate holds the session and the PARSED document. *)
Lemma nothing_to_ask_after_init_witness :
  App.canAskQuestions a_parsed = true
  ∧ App.init nan_lt (App.start (App.storage a_parsed)) = Some a_reloaded
  ∧ App.canAskQuestions a_reloaded = false
  ∧ DocumentStore.isQueryable "1003" (App.documents_of a_reloaded) = false
  ∧ App.getActiveDocument a_reloaded = None.
Proof.
  assert (Hinit : App.init nan_lt (App.start (App.storage a_parsed)) = Some a_reloaded)
    by (by vm_compute).
  destruct (nothing_to_ask_after_init nan_lt (App.storage a_parsed) a_reloaded Hinit)
    as (H1 & H2 & H3).
  split; [by vm_compute|]. split; [exact Hinit|]. split; [exact H1|].
  split; [apply H2|]. apply H3. right.
  exists [(VStr "1000", session_1000)], (VStr "1000"), 1006, (App.storage a_parsed).
  symmetry. apply insert_id. by vm_compute.
Defined.

Lemma upload_selects_the_document_witness :
  ∃ a', App.handleFileSelection (Some report_txt) (clock 1000) (App.start ∅) = Some a'
        ∧ App.canAskQuestions a' = false.
Proof.
  destruct (upload_selects_the_document report_txt (clock 1000) (App.start ∅))
    as (a' & s' & l & ids & H1 & _ & _ & _ & _ & _ & H2).
  - by vm_compute.
  - reflexivity.
  - intros s Hs. vm_compute in Hs. discriminate.
  - exists a'. split; [exact H1|exact H2].
Defined.

Lemma questions_after_parse_witness :
  App.canAskQuestions
    (App.parseDocument_resume 0 (DocumentStore.Result reply_1003) 1020
       (App.parseDocument "1003" 1010 a_uploaded)) = true.
Proof.
  destruct (questions_after_parse a_uploaded session_1000 "1003" 0%nat
              (fresh_document report_txt (clock 1003)) report_txt 1010 1020
              reply_1003 (VStr "1003")) as (_ & _ & H & _).
  - by vm_compute.
  - reflexivity.
  - discriminate.
  - by vm_compute.
  - by vm_compute.
  - reflexivity.
  - reflexivity.
  - reflexivity.
  - reflexivity.
  - discriminate.
  - exact H.
Defined.

Lemma reupload_selects_the_document_witness :
  ∃ a', App.handleFileSelection (Some report_txt) (clock 2000) a_pending = Some a'
        ∧ App.pendingReuploadDocId a' = None
        ∧ App.getActiveDocument a' = Some 0%nat.
Proof.
  destruct (reupload_selects_the_document report_txt (clock 2000) a_pending "1003"
              session_1000 0%nat (fresh_document report_txt (clock 1003)))
    as (a' & H1 & H2 & H3 & _).
  - by vm_compute.
  - by vm_compute.
  - discriminate.
  - by vm_compute.
  - by vm_compute.
  - left. reflexivity.
  - by vm_compute.
  - by vm_compute.
  - reflexivity.
  - exists a'. split; [exact H1|]. split; [exact H2|exact H3].
Defined.

(** A stored log that is the text hi: [getMessages] returns its two
    characters, and no message can be added to the session. *)
Lemma log_that_is_no_array_witness :
  ∃ w', ChatStore.restore nan_lt (ChatStore.constructor [] ls_text_log) = Some w'
    ∧ ChatStore.addMessage "S" (VStr "user") (VStr "more") VUndef (clock 9) w' = None
    ∧ ChatRun.observe "S" w' = Some [ VStr "h"; VStr "i" ].
Proof.
  destruct (log_that_is_no_array nan_lt (ChatStore.constructor [] ls_text_log)
              (VObj [ ("version", VNum 2);
                      ("sessionMessages", VArr [ VArr [ VStr "S"; VStr "hi" ] ]);
                      ("timestamp", VNum 7) ])
              [ VArr [ VStr "S"; VStr "hi" ] ] [ (VStr "S", VStr "hi") ] "S" (VStr "hi"))
    as (w' & Hr & Hadd & Hobs).
  - apply lookup_singleton_eq.
  - reflexivity.
  - reflexivity.
  - reflexivity.
  - reflexivity.
  - reflexivity.
  - intros msgs. discriminate.
  - exists w'. split; [exact Hr|]. split; [apply Hadd|exact Hobs].
Defined.
